(** * voicechenger: a shallow embedding of the voice-changer pipeline

    Embedded sources:
    - [voice_changer.py]: format constants, engine selection, [_pitch_shift],
      class [VoiceChanger];
    - [bot.py]: classes [BufferedAudioSource] and [VoiceChangerSink];
    - [main.py]: [pitch_shift] and [audio_callback] of the local-microphone
      variant.

    Byte strings are [list byte]; Python exceptions are an explicit [result]
    type; objects mutated in place are records threaded through the calls;
    the DSP libraries the program imports (pyrubberband, librosa, scipy) are
    a record of functions the definitions take as a parameter. *)

From Stdlib Require Import ZArith List Lia Bool String QArith Qminmax.
From Stdlib Require Import PrimFloat Uint63 Reals Lra.
From Stdlib.Strings Require Import Byte.
From stdpp Require Import gmap strings.
From Equations Require Import Equations.
Import ListNotations.

#[local] Open Scope nat_scope.

(** ** Python results: a value or a raised exception *)

Inductive exn : Type :=
| ValueError
| KeyError
| ZeroDivisionError
| OverflowError
| ImportError
| RuntimeError.

Inductive result (A : Type) : Type :=
| Ok (a : A)
| Raise (e : exn).
Arguments Ok {A} a.
Arguments Raise {A} e.

#[global] Instance result_ret : MRet result := fun A a => Ok a.

#[global] Instance result_bind : MBind result := fun A B k r =>
  match r with
  | Ok a => k a
  | Raise e => Raise e
  end.

(** ** Python numbers

    The semitone tables hold both [int] literals ([6], [-6], [10]) and
    [float] literals ([10.0], [0.0]); a Python [float] is a binary64, which is
    Rocq's primitive [float]. *)

Inductive pynum : Type :=
| PyInt (n : Z)
| PyFloat (x : float).

(** [float(n)]; exact for the integers of this program (below 2^53). *)
Definition float_of_int (n : Z) : float :=
  if (n <? 0)%Z then PrimFloat.opp (PrimFloat.of_uint63 (Uint63.of_Z (- n)))
  else PrimFloat.of_uint63 (Uint63.of_Z n).

Definition py_float (v : pynum) : float :=
  match v with
  | PyInt n => float_of_int n
  | PyFloat x => x
  end.

(** Python's [a == b] on numbers: exact on two ints, IEEE equality once a
    float is involved (so [0 == 0.0] and [-0.0 == 0.0] hold). *)
Definition py_eq (a b : pynum) : bool :=
  match a, b with
  | PyInt m, PyInt n => (m =? n)%Z
  | _, _ => PrimFloat.eqb (py_float a) (py_float b)
  end.

(** ** The imported DSP libraries

    [has_*] tell whether the [import] succeeds. The library calls are
    external to the repository: they may return an array or raise.
    [scaled_len n semitones] stands for the float computation
    [int(round(n / 2.0 ** (semitones / 12.0)))], which raises on overflow and
    on division by an underflowed factor. *)

Record Libs (sample : Type) : Type := {
  has_pyrubberband : bool;
  has_librosa : bool;
  has_scipy : bool;
  pyrb_pitch_shift : list sample -> Z -> pynum -> result (list sample);
  librosa_pitch_shift :
    list sample -> Z -> pynum -> option (Z * Z) -> result (list sample);
  sg_resample : list sample -> nat -> result (list sample);
  scaled_len : nat -> pynum -> result Z
}.
Arguments has_pyrubberband {sample} _.
Arguments has_librosa {sample} _.
Arguments has_scipy {sample} _.
Arguments pyrb_pitch_shift {sample} _ _ _ _.
Arguments librosa_pitch_shift {sample} _ _ _ _ _.
Arguments sg_resample {sample} _ _ _.
Arguments scaled_len {sample} _ _ _.

(** [import m]: succeeds or raises [ImportError]. *)
Definition import_module (available : bool) : result unit :=
  if available then Ok tt else Raise ImportError.

Inductive engine : Type :=
| Pyrubberband
| Librosa
| Scipy.

(** ** numpy on one-dimensional arrays *)

(** [np.frombuffer(b, dtype=np.int16)]: little-endian two's complement; a
    buffer of odd size raises [ValueError]. *)
Definition int16_of_le (lo hi : byte) : Z :=
  let u := (Z.of_N (Byte.to_N lo) + 256 * Z.of_N (Byte.to_N hi))%Z in
  if (u <? 32768)%Z then u else (u - 65536)%Z.

Fixpoint np_frombuffer_int16 (b : list byte) : result (list Z) :=
  match b with
  | [] => Ok []
  | [_] => Raise ValueError
  | lo :: hi :: rest =>
      arr ← np_frombuffer_int16 rest; Ok (int16_of_le lo hi :: arr)
  end.

(** [a[0::2]]; [a[1::2]] is [slice_step2 (tl a)]. *)
Fixpoint slice_step2 {A : Type} (a : list A) : list A :=
  match a with
  | [] => []
  | [x] => [x]
  | x :: _ :: rest => x :: slice_step2 rest
  end.

(** Element-wise [a + b] with numpy's broadcasting: equal shapes, or one
    operand of length 1 stretched over the other; anything else raises
    [ValueError]. *)
Definition np_add (a b : list Q) : result (list Q) :=
  if length a =? length b then Ok (zip_with Qplus a b)
  else if length a =? 1 then Ok (map (Qplus (hd 0%Q a)) b)
  else if length b =? 1 then Ok (map (fun x => (x + hd 0%Q b)%Q) a)
  else Raise ValueError.

(** [np.clip(x, lo, hi)] is [minimum(maximum(x, lo), hi)]. *)
Definition np_clip (x lo hi : Q) : Q := Qmin (Qmax x lo) hi.

(** [.astype(np.int16)] on a float within the int16 range: truncation
    toward zero. *)
Definition astype_int16 (x : Q) : Z := Z.quot (Qnum x) (Zpos (Qden x)).

(** [np.repeat(a, 2)]. *)
Definition np_repeat2 {A : Type} (a : list A) : list A :=
  flat_map (fun s => [s; s]) a.

(** [np.tile(a, reps)]. *)
Definition np_tile {A : Type} (a : list A) (reps : nat) : list A :=
  concat (repeat a reps).

(** [int(np.ceil(n / m))] for array lengths. *)
Definition ceil_div (n m : nat) : nat := (n + m - 1) / m.

(** [.tobytes()] of an int16 array. *)
Definition byte_of_Z (z : Z) : byte :=
  match Byte.of_N (Z.to_N (z mod 256)) with
  | Some b => b
  | None => x00
  end.

Definition int16_to_le (z : Z) : list byte :=
  let u := (z mod 65536)%Z in [byte_of_Z u; byte_of_Z (u / 256)].

Definition tobytes_int16 (a : list Z) : list byte := flat_map int16_to_le a.

(** ** voice_changer.py *)

(** The format constants are Python ints; a length is compared with them
    as [Z.of_nat (length _)], and a slice bound is [Z.to_nat] of them. *)
Definition DISCORD_SAMPLE_RATE : Z := 48000.
Definition DISCORD_CHANNELS : Z := 2.
Definition DISCORD_FRAME_MS : Z := 20.
Definition DISCORD_FRAME_SAMPLES : Z :=
  (DISCORD_SAMPLE_RATE * DISCORD_FRAME_MS / 1000)%Z.
Definition DISCORD_FRAME_BYTES : Z :=
  (DISCORD_FRAME_SAMPLES * DISCORD_CHANNELS * 2)%Z.

(** The nested [try: import ... except ImportError:] at import time. *)
Definition _ENGINE {sample : Type} (L : Libs sample) : engine :=
  match import_module (has_pyrubberband L) with
  | Ok _ => Pyrubberband
  | Raise _ =>
      match import_module (has_librosa L) with
      | Ok _ => Librosa
      | Raise _ => Scipy
      end
  end.

(** [_pitch_shift(mono, semitones)]. Samples are float32 in the source; the
    model carries them as rationals, which hold every finite float exactly. *)
Definition _pitch_shift (L : Libs Q) (mono : list Q) (semitones : pynum)
  : result (list Q) :=
  match _ENGINE L with
  | Pyrubberband => pyrb_pitch_shift L mono DISCORD_SAMPLE_RATE semitones
  | Librosa => librosa_pitch_shift L mono DISCORD_SAMPLE_RATE semitones None
  | Scipy =>
      _ ← import_module (has_scipy L);
      let n := length mono in
      r ← scaled_len L n semitones;
      let new_len := Z.to_nat (Z.max 1 r) in
      resampled ← sg_resample L mono new_len;
      if n <=? new_len then Ok (firstn n resampled)
      else
        let repeats := ceil_div n new_len + 1 in
        Ok (firstn n (np_tile resampled repeats))
  end.

Module VoiceChanger.

Record t : Type := mk {
  mode : string;
  _gender_st : float;
  _custom_st : float
}.

Definition _FIXED : gmap string pynum :=
  <["normal" := PyInt 0]> (<["high" := PyInt 6]> (<["low" := PyInt (-6)]> ∅)).

Definition init : t :=
  {| mode := "normal"; _gender_st := 10%float; _custom_st := 0%float |}.

Definition semitones (self : t) : pynum :=
  if String.eqb (mode self) "gender" then PyFloat (_gender_st self)
  else if String.eqb (mode self) "custom" then PyFloat (_custom_st self)
  else default (PyFloat 0%float) (_FIXED !! mode self).

Definition set_mode (self : t) (m : string) : t :=
  {| mode := m; _gender_st := _gender_st self; _custom_st := _custom_st self |}.

Definition set_normal (self : t) : t := set_mode self "normal".
Definition set_high (self : t) : t := set_mode self "high".
Definition set_low (self : t) : t := set_mode self "low".

Definition set_gender (self : t) (male_to_female : bool) : t :=
  {| mode := "gender";
     _gender_st := if male_to_female then 10%float else (-10)%float;
     _custom_st := _custom_st self |}.

(** [process(pcm_bytes)]: the source has no [try] here, an exception of any
    step leaves the method. *)
Definition process (L : Libs Q) (self : t) (pcm_bytes : list byte)
  : result (list byte) :=
  let st := semitones self in
  if py_eq st (PyFloat 0%float) then Ok pcm_bytes
  else
    ints ← np_frombuffer_int16 pcm_bytes;
    let arr := map (fun z => (inject_Z z / 32768)%Q) ints in
    sum ← np_add (slice_step2 arr) (slice_step2 (tl arr));
    let mono := map (fun x => (x * (1 # 2))%Q) sum in
    shifted ← _pitch_shift L mono st;
    let out_i16 :=
      map (fun x => astype_int16 (np_clip (x * 32768) (-32768) 32767)) shifted in
    let stereo := np_repeat2 out_i16 in
    Ok (tobytes_int16 stereo).

End VoiceChanger.

(** The mode-set commands of the bot ([!normal], [!pitch_up], [!pitch_down],
    [!gender]) as data, to speak of sequences of them. *)
Inductive mode_op : Type :=
| OpNormal
| OpHigh
| OpLow
| OpGender (male_to_female : bool).

Definition apply_op (s : VoiceChanger.t) (o : mode_op) : VoiceChanger.t :=
  match o with
  | OpNormal => VoiceChanger.set_normal s
  | OpHigh => VoiceChanger.set_high s
  | OpLow => VoiceChanger.set_low s
  | OpGender b => VoiceChanger.set_gender s b
  end.

Definition run_ops (ops : list mode_op) : VoiceChanger.t :=
  fold_left apply_op ops VoiceChanger.init.

(** ** bot.py: [BufferedAudioSource], the output jitter buffer

    Every method body runs under [self._lock], so each method is one atomic
    step on the [bytearray] it guards. *)

Module BufferedAudioSource.

Record t : Type := mk { _buf : list byte }.

(** [__init__]: an empty [bytearray]. *)
Definition init : t := {| _buf := [] |}.

(** [read]: one 20 ms frame, or a frame of zero bytes when fewer than
    [DISCORD_FRAME_BYTES] bytes are buffered. *)
Definition read (self : t) : list byte * t :=
  if (DISCORD_FRAME_BYTES <=? Z.of_nat (length (_buf self)))%Z then
    let frame := firstn (Z.to_nat DISCORD_FRAME_BYTES) (_buf self) in
    (frame, {| _buf := skipn (Z.to_nat DISCORD_FRAME_BYTES) (_buf self) |})
  else
    (repeat x00 (Z.to_nat DISCORD_FRAME_BYTES), self).

(** [cleanup]: [self._buf.clear()]. *)
Definition cleanup (self : t) : t := {| _buf := [] |}.

(** [push]: [self._buf.extend(data)]. *)
Definition push (self : t) (data : list byte) : t :=
  {| _buf := _buf self ++ data |}.

End BufferedAudioSource.

(** ** bot.py: [VoiceChangerSink], the per-speaker accumulator *)

(** The discord voice client, external: whether it is playing, and what
    [play] does when called (it may raise). *)
Record VoiceClient : Type := {
  is_playing : bool;
  play_result : result unit
}.

Module VoiceChangerSink.

Definition PROCESS_FRAMES : Z := 10.

(** [self._chunk_bytes], set once in [__init__]. *)
Definition _chunk_bytes : Z := (DISCORD_FRAME_BYTES * PROCESS_FRAMES)%Z.

Record t : Type := mk {
  changer : VoiceChanger.t;
  vc : VoiceClient;
  audio_source : BufferedAudioSource.t;
  _user_bufs : gmap Z (list byte)
}.

Definition init (changer : VoiceChanger.t) (vc : VoiceClient) : t :=
  {| changer := changer; vc := vc;
     audio_source := BufferedAudioSource.init; _user_bufs := ∅ |}.

(** The [while len(buf) >= self._chunk_bytes] loop of [write]. It returns the
    speaker buffer and the jitter buffer as the loop leaves them, and how it
    left: normally, or by the exception [process] raised (the window was
    already deleted from [buf] by then). *)
Equations? dispatch (L : Libs Q) (ch : VoiceChanger.t) (buf : list byte)
  (src : BufferedAudioSource.t)
  : list byte * BufferedAudioSource.t * result unit
  by wf (length buf) lt :=
dispatch L ch buf src
  with Z_le_gt_dec _chunk_bytes (Z.of_nat (length buf)) := {
  | left _ with
      VoiceChanger.process L ch (firstn (Z.to_nat _chunk_bytes) buf) := {
    | Ok processed =>
        dispatch L ch (skipn (Z.to_nat _chunk_bytes) buf)
          (BufferedAudioSource.push src processed)
    | Raise e => (skipn (Z.to_nat _chunk_bytes) buf, src, Raise e) }
  | right _ => (buf, src, Ok tt) }.
Proof.
  rewrite length_skipn.
  assert (0 < _chunk_bytes)%Z by reflexivity.
  lia.
Qed.

(** The playback start at the end of [write]: under [self._play_lock], call
    [vc.play] unless already playing; an exception of [play] is printed. *)
Definition start_playback (v : VoiceClient) : VoiceClient * list exn :=
  if negb (is_playing v) then
    match play_result v with
    | Ok _ => ({| is_playing := true; play_result := play_result v |}, [])
    | Raise exc => (v, [exc])
    end
  else (v, []).

(** [write(data, user)]: the sink after the call, the exceptions it printed,
    and whether the call returned or raised. *)
Definition write (L : Libs Q) (self : t) (data : list byte) (user : Z)
  : t * list exn * result unit :=
  let buf := default [] (_user_bufs self !! user) ++ data in
  let '(buf', src', outcome) := dispatch L (changer self) buf (audio_source self) in
  let bufs' := <[user := buf']> (_user_bufs self) in
  match outcome with
  | Ok _ =>
      let '(vc', printed) := start_playback (vc self) in
      ({| changer := changer self; vc := vc';
          audio_source := src'; _user_bufs := bufs' |}, printed, Ok tt)
  | Raise e =>
      ({| changer := changer self; vc := vc self;
          audio_source := src'; _user_bufs := bufs' |}, [], Raise e)
  end.

(** [cleanup]. *)
Definition cleanup (self : t) : t :=
  {| changer := changer self;
     vc := {| is_playing := false; play_result := play_result (vc self) |};
     audio_source := BufferedAudioSource.cleanup (audio_source self);
     _user_bufs := ∅ |}.

End VoiceChangerSink.

(** ** main.py: the local-microphone variant

    Samples are float32 in the source; this part carries them as real
    numbers, where [tanh] is the library's. [CHANNELS] is 1, so the
    [(frames, 1)] arrays [indata] and [outdata] are their only column. *)

Module Main.

Definition SAMPLE_RATE : Z := 22050.
Definition BLOCK_SIZE : Z := 1024.
Definition CHANNELS : Z := 1.

Definition MODE_NORMAL : Z := 0.
Definition MODE_HIGH : Z := 1.
Definition MODE_LOW : Z := 2.
Definition MODE_OPPOSITE : Z := 3.
Definition MODE_CUSTOM : Z := 4.

(** The module's mutable globals read by the callback. *)
Record globals : Type := {
  VOLUME_GAIN : R;
  SEMITONE_MAP : gmap Z pynum;
  current_mode : Z
}.

Definition init_globals : globals :=
  {| VOLUME_GAIN := 4%R;
     SEMITONE_MAP :=
       <[MODE_NORMAL := PyInt 0]> (<[MODE_HIGH := PyInt 6]>
       (<[MODE_LOW := PyInt (-6)]> (<[MODE_OPPOSITE := PyInt 10]>
       (<[MODE_CUSTOM := PyFloat 0%float]> ∅))));
     current_mode := MODE_NORMAL |}.

Definition HAS_PYRUBBERBAND {sample : Type} (L : Libs sample) : bool :=
  match import_module (has_pyrubberband L) with
  | Ok _ => true
  | Raise _ => false
  end.

Definition HAS_LIBROSA {sample : Type} (L : Libs sample) : bool :=
  match import_module (has_librosa L) with
  | Ok _ => true
  | Raise _ => false
  end.

Definition _pitch_shift_scipy {sample : Type} (L : Libs sample)
  (audio : list sample) (semitones : pynum) : result (list sample) :=
  _ ← import_module (has_scipy L);
  let n := length audio in
  r ← scaled_len L n semitones;
  let new_len := Z.to_nat (Z.max 1 r) in
  resampled ← sg_resample L audio new_len;
  if n <=? new_len then Ok (firstn n resampled)
  else
    let repeats := ceil_div n new_len + 1 in
    Ok (firstn n (np_tile resampled repeats)).

Definition _pitch_shift_librosa {sample : Type} (L : Libs sample)
  (audio : list sample) (semitones : pynum) : result (list sample) :=
  librosa_pitch_shift L audio SAMPLE_RATE semitones (Some (24%Z, BLOCK_SIZE)).

Definition _pitch_shift_rubberband {sample : Type} (L : Libs sample)
  (audio : list sample) (semitones : pynum) : result (list sample) :=
  pyrb_pitch_shift L audio SAMPLE_RATE semitones.

Definition pitch_shift {sample : Type} (L : Libs sample)
  (audio : list sample) (semitones : pynum) : result (list sample) :=
  if py_eq semitones (PyInt 0) then Ok audio
  else if HAS_PYRUBBERBAND L then _pitch_shift_rubberband L audio semitones
  else if HAS_LIBROSA L then _pitch_shift_librosa L audio semitones
  else _pitch_shift_scipy L audio semitones.

(** What the callback prints to stderr. *)
Inductive stderr_line : Type :=
| AudioStatus
| PitchShiftError (exc : exn).

(** [audio_callback(indata, outdata, frames, time_info, status)]: the new
    contents of [outdata] and the lines printed, or the exception raised.
    The slice assignment [outdata[:copy_len, 0] = processed[:copy_len]]
    needs [copy_len] rows in [outdata]; with fewer, numpy raises
    [ValueError], except that a single value broadcasts (here over the
    empty slice, writing nothing). *)
Definition audio_callback (L : Libs R) (g : globals) (indata outdata : list R)
  (frames : nat) (status : bool) : result (list R * list stderr_line) :=
  let printed0 := if status then [AudioStatus] else [] in
  let audio := indata in
  match SEMITONE_MAP g !! current_mode g with
  | None => Raise KeyError
  | Some semitones =>
      let '(processed, printed1) :=
        if negb (py_eq semitones (PyInt 0)) then
          match pitch_shift L audio semitones with
          | Ok p => (p, [])
          | Raise exc => (audio, [PitchShiftError exc])
          end
        else (audio, []) in
      let processed := map (fun x => (x * VOLUME_GAIN g)%R) processed in
      let processed := map tanh processed in
      let zeroed := map (fun _ => 0%R) outdata in
      let copy_len := Nat.min (length processed) frames in
      if copy_len <=? length zeroed then
        Ok (firstn copy_len processed ++ skipn copy_len zeroed,
            printed0 ++ printed1)
      else if copy_len =? 1 then Ok (zeroed, printed0 ++ printed1)
      else Raise ValueError
  end.

End Main.

(** ** main.py: the callback's arithmetic on float32 samples *)

(** A float32 value as the callback's arithmetic sees it: a finite number,
    an infinity, or NaN. Finite values are carried as reals. Rounding moves
    a finite result to a neighbouring float32, which keeps it inside
    [-1, 1] since -1 and 1 are float32 values; a product too large for
    float32 becomes an infinity, whose [tanh] is 1 or -1. *)
Module Float32.

Inductive t : Type :=
| Finite (x : R)
| Infinity (negative : bool)
| NaN.

(** [a * gain] for a sample [a] and a finite Python float [gain]: an
    infinity times zero is NaN, and NaN times anything is NaN. *)
Definition mul (a : t) (gain : R) : t :=
  match a with
  | NaN => NaN
  | Finite x => Finite (x * gain)
  | Infinity negative =>
      match total_order_T gain 0 with
      | inleft (left _) => Infinity (negb negative)
      | inleft (right _) => NaN
      | inright _ => Infinity negative
      end
  end.

(** [np.tanh]: 1 and -1 at the infinities, NaN at NaN. *)
Definition tanh (a : t) : t :=
  match a with
  | NaN => NaN
  | Finite x => Finite (Rtrigo_def.tanh x)
  | Infinity negative => Finite (if negative then -1 else 1)
  end.

Definition zero : t := Finite 0.

(** [-1.0 <= a <= 1.0]; a comparison with NaN is false. *)
Definition in_unit (a : t) : Prop :=
  match a with
  | Finite x => (-1 <= x <= 1)%R
  | Infinity _ => False
  | NaN => False
  end.

End Float32.

Section SampleArithmetic.

Context {sample : Type}.
Variable mul : sample -> R -> sample.
Variable limit : sample -> sample.
Variable zero : sample.

(** [audio_callback] over any sample arithmetic: the code of
    [Main.audio_callback], with the product, [np.tanh] and [0.0] of the
    sample type. *)
Definition audio_callback_over (L : Libs sample) (g : Main.globals)
  (indata outdata : list sample) (frames : nat) (status : bool)
  : result (list sample * list Main.stderr_line) :=
  let printed0 := if status then [Main.AudioStatus] else [] in
  let audio := indata in
  match Main.SEMITONE_MAP g !! Main.current_mode g with
  | None => Raise KeyError
  | Some semitones =>
      let '(processed, printed1) :=
        if negb (py_eq semitones (PyInt 0)) then
          match Main.pitch_shift L audio semitones with
          | Ok p => (p, [])
          | Raise exc => (audio, [Main.PitchShiftError exc])
          end
        else (audio, []) in
      let processed := map (fun x => mul x (Main.VOLUME_GAIN g)) processed in
      let processed := map limit processed in
      let zeroed := map (fun _ => zero) outdata in
      let copy_len := Nat.min (length processed) frames in
      if copy_len <=? length zeroed then
        Ok (firstn copy_len processed ++ skipn copy_len zeroed,
            printed0 ++ printed1)
      else if copy_len =? 1 then Ok (zeroed, printed0 ++ printed1)
      else Raise ValueError
  end.

End SampleArithmetic.

(** The callback on float32 blocks, special values included. *)
Definition audio_callback_f32 (L : Libs Float32.t) (g : Main.globals)
  (indata outdata : list Float32.t) (frames : nat) (status : bool)
  : result (list Float32.t * list Main.stderr_line) :=
  audio_callback_over Float32.mul Float32.tanh Float32.zero
    L g indata outdata frames status.

(** ** voice_changer.py: the [description] property *)

Definition _DESC : gmap string string :=
  <["normal" := "ノーマル（変換なし）"]>
    (<["high" := "高い声 (+6 半音)"]> (<["low" := "低い声 (-6 半音)"]> ∅)).

(** [description]. [format_signed x] stands for Python's
    [format(x, "+.1f")], used by the "custom" branch only. *)
Definition description (format_signed : float -> string)
  (self : VoiceChanger.t) : string :=
  if String.eqb (VoiceChanger.mode self) "gender" then
    let label :=
      if PrimFloat.ltb 0%float (VoiceChanger._gender_st self)
      then "男→女 (+10 半音)" else "女→男 (-10 半音)" in
    "異性の声 (" +:+ label +:+ ")"
  else if String.eqb (VoiceChanger.mode self) "custom" then
    "カスタム (" +:+ format_signed (VoiceChanger._custom_st self) +:+ " 半音)"
  else default (VoiceChanger.mode self) (_DESC !! VoiceChanger.mode self).

(** ** bot.py: consecutive reads and pushes of the jitter buffer *)

(** [k] consecutive calls of [read], as the player thread makes them: the
    frames returned, oldest first, and the buffer they leave. *)
Fixpoint read_n (k : nat) (src : BufferedAudioSource.t)
  : list (list byte) * BufferedAudioSource.t :=
  match k with
  | 0 => ([], src)
  | S k' =>
      let '(frame, src1) := BufferedAudioSource.read src in
      let '(frames, src2) := read_n k' src1 in
      (frame :: frames, src2)
  end.

(** Consecutive calls of [push], one per chunk. *)
Definition push_all (src : BufferedAudioSource.t) (chunks : list (list byte))
  : BufferedAudioSource.t :=
  fold_left BufferedAudioSource.push chunks src.

(** ** bot.py: the per-guild state and the commands

    [_changers] and [_sinks] are the module's two dictionaries. The sink
    stored for a guild is always built by [cmd_join] from
    [get_changer(gid)], and [get_changer] never replaces an entry: the sink
    holds the very [VoiceChanger] object that [_changers] holds for the
    guild. The model writes a mutation of that object through to both.
    What Discord does (connecting, recording, sending the reply) is outside;
    a command returns the text it sends. *)

Definition newline : string := String (Ascii.ascii_of_nat 10) EmptyString.

(** [str.lower()] on ASCII letters. The characters outside ASCII that
    Python's [lower] changes never turn into a character of the strings
    [cmd_gender] compares with. *)
Definition lower_ascii (c : Ascii.ascii) : Ascii.ascii :=
  let n := Ascii.nat_of_ascii c in
  if (65 <=? n) && (n <=? 90) then Ascii.ascii_of_nat (n + 32) else c.

Fixpoint lower (s : string) : string :=
  match s with
  | EmptyString => EmptyString
  | String c rest => String (lower_ascii c) (lower rest)
  end.

Module Bot.

Record state : Type := mk {
  _changers : gmap Z VoiceChanger.t;
  _sinks : gmap Z VoiceChangerSink.t
}.

Definition init : state := {| _changers := ∅; _sinks := ∅ |}.

(** [get_changer(guild_id)]: creates the guild's [VoiceChanger] on first
    use. *)
Definition get_changer (st : state) (guild_id : Z) : VoiceChanger.t * state :=
  match _changers st !! guild_id with
  | Some changer => (changer, st)
  | None =>
      (VoiceChanger.init,
       {| _changers := <[guild_id := VoiceChanger.init]> (_changers st);
          _sinks := _sinks st |})
  end.

(** An in-place mutation of the guild's [VoiceChanger] object, seen through
    both references to it. *)
Definition mutate_changer (st : state) (gid : Z) (changer : VoiceChanger.t)
  : state :=
  {| _changers := <[gid := changer]> (_changers st);
     _sinks :=
       alter (fun sink =>
                VoiceChangerSink.mk changer (VoiceChangerSink.vc sink)
                  (VoiceChangerSink.audio_source sink)
                  (VoiceChangerSink._user_bufs sink))
             gid (_sinks st) |}.

Definition cmd_pitch_up (format_signed : float -> string) (st : state)
  (gid : Z) : state * string :=
  let '(changer, st1) := get_changer st gid in
  let changer := VoiceChanger.set_high changer in
  (mutate_changer st1 gid changer,
   "🔼 モード変更: **" +:+ description format_signed changer +:+ "**").

Definition cmd_pitch_down (format_signed : float -> string) (st : state)
  (gid : Z) : state * string :=
  let '(changer, st1) := get_changer st gid in
  let changer := VoiceChanger.set_low changer in
  (mutate_changer st1 gid changer,
   "🔽 モード変更: **" +:+ description format_signed changer +:+ "**").

Definition cmd_gender (format_signed : float -> string) (st : state)
  (gid : Z) (base : string) : state * string :=
  let '(changer, st1) := get_changer st gid in
  let male_to_female :=
    negb (existsb (String.eqb (lower base)) ["female"; "f"; "女"; "2"]) in
  let changer := VoiceChanger.set_gender changer male_to_female in
  (mutate_changer st1 gid changer,
   "⚧ モード変更: **" +:+ description format_signed changer +:+ "**").

Definition cmd_normal (format_signed : float -> string) (st : state)
  (gid : Z) : state * string :=
  let '(changer, st1) := get_changer st gid in
  let changer := VoiceChanger.set_normal changer in
  (mutate_changer st1 gid changer,
   "➡️ モード変更: **" +:+ description format_signed changer +:+ "**").

(** [cmd_join]. [ensured] is what [_ensure_voice] returned: nothing (it has
    sent its own reply), or the voice client with its channel's name. *)
Definition cmd_join (format_signed : float -> string) (st : state) (gid : Z)
  (ensured : option (VoiceClient * string)) : state * option string :=
  match ensured with
  | None => (st, None)
  | Some (vc, channel_name) =>
      let '(changer, st1) := get_changer st gid in
      let vc :=
        if is_playing vc
        then {| is_playing := false; play_result := play_result vc |}
        else vc in
      let sink := VoiceChangerSink.init changer vc in
      ({| _changers := _changers st1; _sinks := <[gid := sink]> (_sinks st1) |},
       Some ("✅ **" +:+ channel_name +:+ "** に参加しました！" +:+ newline +:+
             "現在のモード: **" +:+ description format_signed changer +:+ "**" +:+
             newline +:+
             "ボットがあなたの声を変換してチャンネルに再生します。" +:+ newline +:+
             "> ⚠️ 自分の声が二重に聞こえる場合は Discord でマイクをサーバーミュートしてください。"))
  end.

(** [cmd_leave]. [voice_client] tells whether [ctx.voice_client] is set. *)
Definition cmd_leave (st : state) (gid : Z) (voice_client : bool)
  : state * string :=
  if negb voice_client then
    (st, "❌ ボットはボイスチャンネルに参加していません。")
  else
    ({| _changers := _changers st; _sinks := delete gid (_sinks st) |},
     "👋 ボイスチャンネルから退出しました。").

(** [on_voice_state_update]. [members] is the size of the bot's channel when
    the guild has a connected voice client, nothing otherwise. *)
Definition on_voice_state_update (st : state) (gid : Z) (member_bot : bool)
  (members : option nat) : state :=
  if member_bot then st
  else
    match members with
    | Some n =>
        if n <=? 1
        then {| _changers := _changers st; _sinks := delete gid (_sinks st) |}
        else st
    | None => st
    end.

(** The commands and events that touch the two dictionaries, as data. *)
Inductive command : Type :=
| Join (ensured : option (VoiceClient * string))
| Leave (voice_client : bool)
| PitchUp
| PitchDown
| Gender (base : string)
| Normal
| VoiceStateUpdate (member_bot : bool) (members : option nat).

Definition run_command (format_signed : float -> string) (st : state)
  (gid : Z) (c : command) : state :=
  match c with
  | Join ensured => fst (cmd_join format_signed st gid ensured)
  | Leave voice_client => fst (cmd_leave st gid voice_client)
  | PitchUp => fst (cmd_pitch_up format_signed st gid)
  | PitchDown => fst (cmd_pitch_down format_signed st gid)
  | Gender base => fst (cmd_gender format_signed st gid base)
  | Normal => fst (cmd_normal format_signed st gid)
  | VoiceStateUpdate member_bot members =>
      on_voice_state_update st gid member_bot members
  end.

(** A run of commands, each with the guild it is issued in. *)
Definition run_commands (format_signed : float -> string) (st : state)
  (cs : list (Z * command)) : state :=
  fold_left (fun st gc => run_command format_signed st (fst gc) (snd gc)) cs st.

End Bot.

(** ** main.py: devices, keyboard listener and console loop *)

Record device : Type := {
  name : string;
  max_input_channels : Z;
  max_output_channels : Z
}.

(** ["BlackHole" in s]. *)
Definition contains (pattern s : string) : bool :=
  match String.index 0 pattern s with
  | Some _ => true
  | None => false
  end.

(** The [for i, dev in enumerate(...)] loop of [find_blackhole], from index
    [i] on. *)
Fixpoint find_blackhole_from (i : nat) (devices : list device)
  : option (nat * string) :=
  match devices with
  | [] => None
  | dev :: rest =>
      if contains "BlackHole" (name dev) && (0 <? max_output_channels dev)%Z
      then Some (i, name dev)
      else find_blackhole_from (S i) rest
  end.

Definition find_blackhole (devices : list device) : option (nat * string) :=
  find_blackhole_from 0 devices.

Module MainUI.

Definition escape : string := String (Ascii.ascii_of_nat 27) EmptyString.

(** The globals the listener and the console loop share. [last_mode] is the
    loop's local variable. *)
Record state : Type := mk {
  globals : Main.globals;
  MODE_NAMES : gmap Z string;
  running : bool;
  last_mode : Z
}.

Definition init : state :=
  {| globals := Main.init_globals;
     MODE_NAMES :=
       <[Main.MODE_NORMAL := "ノーマル（変換なし）"]>
       (<[Main.MODE_HIGH := "高い声 (+6 半音)"]>
       (<[Main.MODE_LOW := "低い声 (-6 半音)"]>
       (<[Main.MODE_OPPOSITE := "異性の声"]>
       (<[Main.MODE_CUSTOM := "カスタム設定"]> ∅))));
     running := true;
     last_mode := (-1)%Z |}.

Definition set_semitone (g : Main.globals) (m : Z) (v : pynum) : Main.globals :=
  {| Main.VOLUME_GAIN := Main.VOLUME_GAIN g;
     Main.SEMITONE_MAP := <[m := v]> (Main.SEMITONE_MAP g);
     Main.current_mode := Main.current_mode g |}.

Definition set_current_mode (g : Main.globals) (m : Z) : Main.globals :=
  {| Main.VOLUME_GAIN := Main.VOLUME_GAIN g;
     Main.SEMITONE_MAP := Main.SEMITONE_MAP g;
     Main.current_mode := m |}.

(** The gender question of [main]: [gender] is the stripped input line. *)
Definition select_gender (st : state) (gender : string) : state :=
  if String.eqb gender "2" then
    {| globals := set_semitone (globals st) Main.MODE_OPPOSITE (PyInt (-10));
       MODE_NAMES :=
         <[Main.MODE_OPPOSITE := "異性の声: 女→男 (-10 半音)"]> (MODE_NAMES st);
       running := running st; last_mode := last_mode st |}
  else
    {| globals := set_semitone (globals st) Main.MODE_OPPOSITE (PyInt 10);
       MODE_NAMES :=
         <[Main.MODE_OPPOSITE := "異性の声: 男→女 (+10 半音)"]> (MODE_NAMES st);
       running := running st; last_mode := last_mode st |}.

(** A pynput key: a special key has no [char] attribute; a character key
    has one, possibly [None]. *)
Inductive key : Type :=
| SpecialKey
| KeyCode (char : option string).

(** The end of [on_press]: [if new_mode is not None]. *)
Definition switch_mode (st : state) (printed : list string)
  (new_mode : option Z) : result (state * list string * bool) :=
  match new_mode with
  | None => Ok (st, printed, true)
  | Some m =>
      match MODE_NAMES st !! m with
      | None => Raise KeyError
      | Some mode_name =>
          Ok ({| globals := set_current_mode (globals st) m;
                 MODE_NAMES := MODE_NAMES st;
                 running := running st; last_mode := last_mode st |},
              printed ++
                [newline +:+ "  [Key] モード切替 ➡ " +:+ escape +:+ "[1;32m" +:+
                 mode_name +:+ escape +:+ "[0m" +:+ newline],
              true)
      end
  end.

(** [on_press(key)]: the state after it, what it printed, and whether the
    listener goes on (it stops when the handler returns [False]). *)
Definition on_press (st : state) (k : key)
  : result (state * list string * bool) :=
  match k with
  | SpecialKey => Ok (st, [], true)
  | KeyCode ch =>
      if bool_decide (ch = Some "1") then switch_mode st [] (Some Main.MODE_NORMAL)
      else if bool_decide (ch = Some "2") then switch_mode st [] (Some Main.MODE_HIGH)
      else if bool_decide (ch = Some "3") then switch_mode st [] (Some Main.MODE_LOW)
      else if bool_decide (ch = Some "4") then
        switch_mode st [] (Some Main.MODE_OPPOSITE)
      else if bool_decide (ch = Some "5") then
        switch_mode
          {| globals :=
               set_semitone (globals st) Main.MODE_CUSTOM (PyFloat 12%float);
             MODE_NAMES :=
               <[Main.MODE_CUSTOM := "カスタム (1オクターブ上)"]> (MODE_NAMES st);
             running := running st; last_mode := last_mode st |}
          [newline +:+ newline +:+
           "新しいピッチ（半音）を入力してください（例: 12.0）: "]
          (Some Main.MODE_CUSTOM)
      else if bool_decide (ch = Some "q") then
        Ok ({| globals := globals st; MODE_NAMES := MODE_NAMES st;
               running := false; last_mode := last_mode st |},
            [newline +:+ newline +:+ "終了要求を受け取りました。" +:+ newline],
            false)
      else switch_mode st [] None
  end.

(** What the second [input()] of the console loop gave, after key 5:
    end of input, a line [float()] rejects, or a number. *)
Inductive custom_input : Type :=
| CustomEof
| CustomInvalid
| CustomValue (val : float).

(** One turn of [while running] in [main]. [user_input] is
    [input().strip().lower()], or nothing when [input] raised [EOFError] or
    [KeyboardInterrupt]; [custom] is consulted after the line "5" only. *)
Definition console_turn (format_signed : float -> string) (st : state)
  (user_input : option string) (custom : custom_input)
  : result (state * list string) :=
  header ←
    (if bool_decide (Main.current_mode (globals st) = last_mode st)
     then Ok (st, [])
     else
       match MODE_NAMES st !! Main.current_mode (globals st) with
       | None => Raise KeyError
       | Some mode_name =>
           Ok ({| globals := globals st; MODE_NAMES := MODE_NAMES st;
                  running := running st;
                  last_mode := Main.current_mode (globals st) |},
               [newline +:+ "  ▶ 現在のモード: " +:+ escape +:+ "[1;32m" +:+
                mode_name +:+ escape +:+ "[0m" +:+ newline;
                "  [変更: 1-5, 終了: q] ➡ "])
       end);
  let '(st, printed) := header in
  let stop :=
    {| globals := globals st; MODE_NAMES := MODE_NAMES st;
       running := false; last_mode := last_mode st |} in
  match user_input with
  | None => Ok (stop, printed)
  | Some line =>
      if String.eqb line "q" then Ok (stop, printed)
      else if existsb (String.eqb line) ["1"; "2"; "3"; "4"] then
        let chosen :=
          if String.eqb line "1" then 0%Z
          else if String.eqb line "2" then 1%Z
          else if String.eqb line "3" then 2%Z
          else 3%Z in
        Ok ({| globals := set_current_mode (globals st) chosen;
               MODE_NAMES := MODE_NAMES st;
               running := running st; last_mode := last_mode st |}, printed)
      else if String.eqb line "5" then
        let prompt := "新しいピッチ（半音）を入力してください (例: 12.0): " in
        match custom with
        | CustomEof => Ok (stop, printed ++ [prompt])
        | CustomInvalid =>
            Ok (st, printed ++ [prompt; "無効な数値です。" +:+ newline])
        | CustomValue val =>
            Ok ({| globals :=
                     set_current_mode
                       (set_semitone (globals st) Main.MODE_CUSTOM (PyFloat val))
                       Main.MODE_CUSTOM;
                   MODE_NAMES :=
                     <[Main.MODE_CUSTOM :=
                         "カスタム (" +:+ format_signed val +:+ " 半音)"]>
                       (MODE_NAMES st);
                   running := running st; last_mode := last_mode st |},
                printed ++ [prompt])
        end
      else Ok (st, printed)
  end.

(** What happens while the stream runs: a key press or a console turn. *)
Inductive event : Type :=
| KeyPress (k : key)
| Console (user_input : option string) (custom : custom_input).

Definition step (format_signed : float -> string) (st : state) (e : event)
  : result state :=
  match e with
  | KeyPress k => r ← on_press st k; Ok (fst (fst r))
  | Console user_input custom =>
      r ← console_turn format_signed st user_input custom; Ok (fst r)
  end.

Fixpoint run (format_signed : float -> string) (st : state) (es : list event)
  : result state :=
  match es with
  | [] => Ok st
  | e :: rest => st' ← step format_signed st e; run format_signed st' rest
  end.

End MainUI.

(** The commands that start or end a session, as opposed to those that set
    the mode. *)
Definition is_session_command (c : Bot.command) : bool :=
  match c with
  | Bot.Join _ | Bot.Leave _ | Bot.VoiceStateUpdate _ _ => true
  | _ => false
  end.

(** What the listener and the console loop keep true of the globals: the
    current mode is one of the five, the three fixed modes keep their
    shifts, the opposite-voice mode holds 10 or -10, and every mode has a
    shift and a name. *)
Definition modes_intact (st : MainUI.state) : Prop :=
  let g := MainUI.globals st in
  In (Main.current_mode g) [0; 1; 2; 3; 4]%Z /\
  Main.SEMITONE_MAP g !! 0%Z = Some (PyInt 0) /\
  Main.SEMITONE_MAP g !! 1%Z = Some (PyInt 6) /\
  Main.SEMITONE_MAP g !! 2%Z = Some (PyInt (-6)) /\
  (Main.SEMITONE_MAP g !! 3%Z = Some (PyInt 10) \/
   Main.SEMITONE_MAP g !! 3%Z = Some (PyInt (-10))) /\
  is_Some (Main.SEMITONE_MAP g !! 4%Z) /\
  (forall m, In m [0; 1; 2; 3; 4]%Z -> is_Some (MainUI.MODE_NAMES st !! m)) /\
  Main.VOLUME_GAIN g = 4%R.

(** ** The selection rule as the spec words it *)

(** The selection rule in the spec's words: a fixed preference order, the
    first available backend wins, and the resampling fallback, last in the
    order, is taken whenever it is reached. *)
Definition preference_order : list engine := [Pyrubberband; Librosa; Scipy].

Definition backend_available {sample : Type} (L : Libs sample) (e : engine)
  : bool :=
  match e with
  | Pyrubberband => has_pyrubberband L
  | Librosa => has_librosa L
  | Scipy => true
  end.

(** [main.py]: the backend function each engine names. *)
Definition main_backend {sample : Type} (L : Libs sample) (e : engine)
  : list sample -> pynum -> result (list sample) :=
  match e with
  | Pyrubberband => Main._pitch_shift_rubberband L
  | Librosa => Main._pitch_shift_librosa L
  | Scipy => Main._pitch_shift_scipy L
  end.

(** ** The windows of a speaker buffer, as the spec words them *)

(** The processing window, in bytes, as a list length. *)
Definition window_size : nat := Z.to_nat VoiceChangerSink._chunk_bytes.

(** The first [k] windows of [w] bytes each, front to back. *)
Fixpoint windows (w k : nat) (buf : list byte) : list (list byte) :=
  match k with
  | 0 => []
  | S k' => firstn w buf :: windows w k' (skipn w buf)
  end.

(** ** The transform steps, as the spec words them *)

(** The stereo frames (left, right) of an interleaved sample array. *)
Fixpoint stereo_frames {A : Type} (a : list A) : list (A * A) :=
  match a with
  | l :: r :: rest => (l, r) :: stereo_frames rest
  | _ => []
  end.

(** Downmix of one frame: the average of its two normalised samples. *)
Definition channel_average (f : Z * Z) : Q :=
  ((inject_Z (fst f) / 32768 + inject_Z (snd f) / 32768) * (1 # 2))%Q.

(** Saturating conversion to a signed 16-bit integer: the ends of the range
    beyond it, truncation toward zero inside. *)
Definition saturate_int16 (x : Q) : Z :=
  if Qle_bool 32767 x then 32767%Z
  else if Qle_bool x (-32768) then (-32768)%Z
  else Z.quot (Qnum x) (Zpos (Qden x)).

(** What the program relies on from the DSP libraries: a pitch shift returns
    as many samples as it was given, and [resample(x, num)] returns [num]
    samples. *)
Definition library_contract {sample : Type} (L : Libs sample) : Prop :=
  (forall a sr st out,
     pyrb_pitch_shift L a sr st = Ok out -> length out = length a) /\
  (forall a sr st kw out,
     librosa_pitch_shift L a sr st kw = Ok out -> length out = length a) /\
  (forall a n out, sg_resample L a n = Ok out -> length out = n).

(** ** Sample environments, for concrete instances *)

(** Libraries that are all installed and leave the samples as they are. *)
Definition passthrough_libs (sample : Type) : Libs sample :=
  {| has_pyrubberband := true; has_librosa := true; has_scipy := true;
     pyrb_pitch_shift := fun a _ _ => Ok a;
     librosa_pitch_shift := fun a _ _ _ => Ok a;
     sg_resample := fun a n => Ok (firstn n (np_tile a (S n)));
     scaled_len := fun n _ => Ok (Z.of_nat n) |}.

(** Only librosa is installed; it answers with the reversed array, so that
    its use is visible in a result. *)
Definition librosa_only (sample : Type) : Libs sample :=
  {| has_pyrubberband := false; has_librosa := true; has_scipy := true;
     pyrb_pitch_shift := fun a _ _ => Raise RuntimeError;
     librosa_pitch_shift := fun a _ _ _ => Ok (rev a);
     sg_resample := fun a _ => Ok a;
     scaled_len := fun n _ => Ok (Z.of_nat n) |}.

(** The same availability of pyrubberband and librosa, without scipy. *)
Definition librosa_without_scipy (sample : Type) : Libs sample :=
  {| has_pyrubberband := false; has_librosa := true; has_scipy := false;
     pyrb_pitch_shift := fun a _ _ => Raise RuntimeError;
     librosa_pitch_shift := fun a _ _ _ => Ok a;
     sg_resample := fun a _ => Raise RuntimeError;
     scaled_len := fun n _ => Raise OverflowError |}.

(** pyrubberband imports, but every call fails: the Python package is
    installed and the [rubberband] program it runs is not. *)
Definition broken_rubberband (sample : Type) : Libs sample :=
  {| has_pyrubberband := true; has_librosa := false; has_scipy := true;
     pyrb_pitch_shift := fun _ _ _ => Raise RuntimeError;
     librosa_pitch_shift := fun a _ _ _ => Ok a;
     sg_resample := fun a n => Ok (firstn n (np_tile a (S n)));
     scaled_len := fun n _ => Ok (Z.of_nat n) |}.

(** A voice client that is not playing and whose [play] succeeds. *)
Definition idle_client : VoiceClient :=
  {| is_playing := false; play_result := Ok tt |}.

(** Only scipy is there; [resample] is a stand-in that returns [num] copies
    of the first sample, and the length is scaled as by a shift of one octave
    up (half as many samples). *)
Definition scipy_octave_up : Libs Q :=
  {| has_pyrubberband := false; has_librosa := false; has_scipy := true;
     pyrb_pitch_shift := fun a _ _ => Ok a;
     librosa_pitch_shift := fun a _ _ _ => Ok a;
     sg_resample := fun a n => Ok (repeat (hd 0%Q a) n);
     scaled_len := fun n _ => Ok (Z.of_nat n / 2)%Z |}.

(** pyrubberband answers four times louder, so that loud input saturates. *)
Definition loud_rubberband : Libs Q :=
  {| has_pyrubberband := true; has_librosa := false; has_scipy := false;
     pyrb_pitch_shift := fun a _ _ => Ok (map (Qmult 4) a);
     librosa_pitch_shift := fun a _ _ _ => Ok a;
     sg_resample := fun a n => Ok (repeat (hd 0%Q a) n);
     scaled_len := fun n _ => Ok (Z.of_nat n) |}.

(** The globals of [main.py] after the key 2 was pressed: mode "high". *)
Definition high_globals : Main.globals :=
  {| Main.VOLUME_GAIN := Main.VOLUME_GAIN Main.init_globals;
     Main.SEMITONE_MAP := Main.SEMITONE_MAP Main.init_globals;
     Main.current_mode := Main.MODE_HIGH |}.

(** pyrubberband fails on any window that does not start in silence. *)
Definition flaky_rubberband : Libs Q :=
  {| has_pyrubberband := true; has_librosa := false; has_scipy := false;
     pyrb_pitch_shift :=
       fun a _ _ => if Qeq_bool (hd 0%Q a) 0 then Ok a else Raise RuntimeError;
     librosa_pitch_shift := fun a _ _ _ => Ok a;
     sg_resample := fun a n => Ok (repeat (hd 0%Q a) n);
     scaled_len := fun n _ => Ok (Z.of_nat n) |}.

(** No DSP library is installed at all. *)
Definition no_libs (sample : Type) : Libs sample :=
  {| has_pyrubberband := false; has_librosa := false; has_scipy := false;
     pyrb_pitch_shift := fun _ _ _ => Raise RuntimeError;
     librosa_pitch_shift := fun _ _ _ _ => Raise RuntimeError;
     sg_resample := fun _ _ => Raise RuntimeError;
     scaled_len := fun n _ => Ok (Z.of_nat n) |}.

(** Only scipy is there, over the real samples of [main.py]; [resample]
    returns [num] copies of the first sample and the length is halved. *)
Definition scipy_halving : Libs R :=
  {| has_pyrubberband := false; has_librosa := false; has_scipy := true;
     pyrb_pitch_shift := fun a _ _ => Ok a;
     librosa_pitch_shift := fun a _ _ _ => Ok a;
     sg_resample := fun a n => Ok (repeat (hd 0%R a) n);
     scaled_len := fun n _ => Ok (Z.of_nat n / 2)%Z |}.

(** A machine with a microphone, a BlackHole input-only entry and the
    BlackHole output. *)
Definition mac_devices : list device :=
  [{| name := "MacBook Pro Microphone"; max_input_channels := 1;
      max_output_channels := 0 |};
   {| name := "BlackHole 2ch (in)"; max_input_channels := 2;
      max_output_channels := 0 |};
   {| name := "BlackHole 2ch"; max_input_channels := 2;
      max_output_channels := 2 |};
   {| name := "BlackHole 16ch"; max_input_channels := 16;
      max_output_channels := 16 |}].

(** A stand-in for the number formatting of the "custom" texts. *)
Definition plain_format (x : float) : string := "+0.0".

(** Boolean checks of a concrete result, to decide it by evaluation. *)
Fixpoint bytes_eqb (a b : list byte) : bool :=
  match a, b with
  | [], [] => true
  | x :: a', y :: b' => Byte.eqb x y && bytes_eqb a' b'
  | _, _ => false
  end.

Definition returns (r : result (list byte)) (expected : list byte) : bool :=
  match r with
  | Ok y => bytes_eqb y expected
  | Raise _ => false
  end.

(** * Properties *)

Lemma bytes_eqb_eq (a b : list byte) : bytes_eqb a b = true -> a = b.
Proof.
  revert b. induction a as [| x a IH]; intros [| y b] H; try discriminate.
  - reflexivity.
  - cbn [bytes_eqb] in H. apply andb_true_iff in H as [Hx Hab].
    apply Byte.byte_dec_bl in Hx. apply IH in Hab. congruence.
Qed.

Lemma returns_ok (r : result (list byte)) (expected : list byte) :
  returns r expected = true -> r = Ok expected.
Proof.
  destruct r as [y | e]; cbn [returns]; [| discriminate].
  intros H. apply bytes_eqb_eq in H. congruence.
Qed.

(** ** The jitter buffer *)

Lemma frame_bytes_nat : Z.to_nat DISCORD_FRAME_BYTES = 3840.
Proof. reflexivity. Qed.

Lemma read_enough (src : BufferedAudioSource.t) :
  3840 <= length (BufferedAudioSource._buf src) ->
  BufferedAudioSource.read src =
    (firstn 3840 (BufferedAudioSource._buf src),
     BufferedAudioSource.mk (skipn 3840 (BufferedAudioSource._buf src))).
Proof.
  intros Hle. unfold BufferedAudioSource.read. rewrite frame_bytes_nat.
  destruct (Z.leb_spec DISCORD_FRAME_BYTES
              (Z.of_nat (length (BufferedAudioSource._buf src)))) as [_ | Hlt].
  - reflexivity.
  - exfalso. change DISCORD_FRAME_BYTES with 3840%Z in Hlt. lia.
Qed.

Lemma read_underrun (src : BufferedAudioSource.t) :
  length (BufferedAudioSource._buf src) < 3840 ->
  BufferedAudioSource.read src = (repeat x00 3840, src).
Proof.
  intros Hlt. unfold BufferedAudioSource.read. rewrite frame_bytes_nat.
  destruct (Z.leb_spec DISCORD_FRAME_BYTES
              (Z.of_nat (length (BufferedAudioSource._buf src)))) as [Hle | _].
  - exfalso. change DISCORD_FRAME_BYTES with 3840%Z in Hle. lia.
  - reflexivity.
Qed.

Lemma read_head (frame rest : list byte) :
  length frame = 3840 ->
  BufferedAudioSource.read (BufferedAudioSource.mk (frame ++ rest)) =
    (frame, BufferedAudioSource.mk rest).
Proof.
  intros Hlen. rewrite read_enough; cbn [BufferedAudioSource._buf].
  - rewrite <- Hlen, firstn_app, skipn_app, Nat.sub_diag, firstn_all, skipn_all.
    cbn [firstn skipn app]. now rewrite app_nil_r.
  - rewrite length_app. lia.
Qed.

(** C1. Every [read] returns a frame of exactly 3840 bytes. With at least
    3840 bytes buffered it is the first 3840 bytes, which are removed; with
    fewer it is 3840 zero bytes and the buffer is left as it was. On a buffer
    holding exactly two frames [f1 ++ f2], the first two reads return [f1]
    and [f2], the buffer is then empty, and the third read returns zeros. *)
Theorem read_frame_exact (src : BufferedAudioSource.t) (f1 f2 : list byte) :
  let r1 := BufferedAudioSource.read src in
  let r2 := BufferedAudioSource.read (snd r1) in
  let r3 := BufferedAudioSource.read (snd r2) in
  length (fst r1) = 3840 /\
  (3840 <= length (BufferedAudioSource._buf src) ->
     fst r1 = firstn 3840 (BufferedAudioSource._buf src) /\
     BufferedAudioSource._buf src = fst r1 ++ BufferedAudioSource._buf (snd r1)) /\
  (length (BufferedAudioSource._buf src) < 3840 ->
     fst r1 = repeat x00 3840 /\ snd r1 = src) /\
  (length f1 = 3840 -> length f2 = 3840 ->
   BufferedAudioSource._buf src = f1 ++ f2 ->
     fst r1 = f1 /\ fst r2 = f2 /\
     length (BufferedAudioSource._buf (snd r2)) = 0 /\
     fst r3 = repeat x00 3840 /\ snd r3 = snd r2).
Proof.
  cbv zeta. split; [| split; [| split]].
  - destruct (Nat.le_gt_cases 3840 (length (BufferedAudioSource._buf src))) as [Hle | Hlt].
    + rewrite (read_enough _ Hle). cbn [fst]. rewrite length_firstn. lia.
    + rewrite (read_underrun _ Hlt). cbn [fst]. apply repeat_length.
  - intros Hle. rewrite (read_enough _ Hle). cbn [fst snd BufferedAudioSource._buf].
    split; [reflexivity |]. symmetry. apply firstn_skipn.
  - intros Hlt. rewrite (read_underrun _ Hlt). split; reflexivity.
  - intros H1 H2 Hbuf. destruct src as [buf]. cbn [BufferedAudioSource._buf] in Hbuf.
    subst buf. rewrite (read_head f1 f2 H1). cbn [fst snd].
    pose proof (read_head f2 [] H2) as Hr2. rewrite app_nil_r in Hr2.
    rewrite Hr2. cbn [fst snd BufferedAudioSource._buf length].
    rewrite read_underrun by (cbn [BufferedAudioSource._buf length]; lia).
    repeat split; reflexivity.
Qed.

(** A witness of C1: two pushed frames of distinct contents. *)
Lemma read_frame_exact_witness :
  let f1 := repeat x01 3840 in
  let f2 := repeat x02 3840 in
  let src := BufferedAudioSource.push
               (BufferedAudioSource.push BufferedAudioSource.init f1) f2 in
  let r1 := BufferedAudioSource.read src in
  let r2 := BufferedAudioSource.read (snd r1) in
  let r3 := BufferedAudioSource.read (snd r2) in
  fst r1 = f1 /\ fst r2 = f2 /\
  length (BufferedAudioSource._buf (snd r2)) = 0 /\
  fst r3 = repeat x00 3840 /\ snd r3 = snd r2.
Proof.
  cbv zeta.
  apply (read_frame_exact
           (BufferedAudioSource.push
              (BufferedAudioSource.push BufferedAudioSource.init (repeat x01 3840))
              (repeat x02 3840))
           (repeat x01 3840) (repeat x02 3840)).
  - apply repeat_length.
  - apply repeat_length.
  - reflexivity.
Defined.

(** ** The mode controller *)

Lemma semitones_set_high (s : VoiceChanger.t) :
  VoiceChanger.semitones (VoiceChanger.set_high s) = PyInt 6.
Proof. reflexivity. Qed.

Lemma semitones_set_low (s : VoiceChanger.t) :
  VoiceChanger.semitones (VoiceChanger.set_low s) = PyInt (-6).
Proof. reflexivity. Qed.

Lemma semitones_set_gender (s : VoiceChanger.t) (male_to_female : bool) :
  VoiceChanger.semitones (VoiceChanger.set_gender s male_to_female) =
  PyFloat (if male_to_female then 10%float else (-10)%float).
Proof. reflexivity. Qed.

(** C6. A fresh controller is in mode "normal" with shift 0. After any
    sequence of mode-set operations, [set_high] makes the shift equal to 6.0,
    [set_low] to -6.0 (the table holds the ints 6 and -6, which Python's [==]
    identifies with the floats), [set_gender(True)] makes it the float 10.0
    and [set_gender(False)] the float -10.0. *)
Theorem mode_controller_shifts (ops : list mode_op) :
  let s := run_ops ops in
  VoiceChanger.mode VoiceChanger.init = "normal" /\
  py_eq (VoiceChanger.semitones VoiceChanger.init) (PyFloat 0%float) = true /\
  py_eq (VoiceChanger.semitones (VoiceChanger.set_high s)) (PyFloat 6%float) = true /\
  py_eq (VoiceChanger.semitones (VoiceChanger.set_low s)) (PyFloat (-6)%float) = true /\
  VoiceChanger.semitones (VoiceChanger.set_gender s true) = PyFloat 10%float /\
  VoiceChanger.semitones (VoiceChanger.set_gender s false) = PyFloat (-10)%float.
Proof.
  cbv zeta. generalize (run_ops ops). intros s.
  rewrite semitones_set_high, semitones_set_low, !semitones_set_gender.
  repeat split; reflexivity.
Qed.

Lemma _FIXED_unknown (m : string) :
  m <> "normal" -> m <> "high" -> m <> "low" -> VoiceChanger._FIXED !! m = None.
Proof.
  intros Hn Hh Hl. unfold VoiceChanger._FIXED.
  rewrite !lookup_insert_ne by congruence. apply lookup_empty.
Qed.

(** The identity fast path of [process]. *)
Lemma process_zero (L : Libs Q) (self : VoiceChanger.t) (x : list byte) :
  py_eq (VoiceChanger.semitones self) (PyFloat 0%float) = true ->
  VoiceChanger.process L self x = Ok x.
Proof. intros Hz. unfold VoiceChanger.process. cbv zeta. now rewrite Hz. Qed.

Lemma process_nonzero (L : Libs Q) (self : VoiceChanger.t) (x : list byte) :
  py_eq (VoiceChanger.semitones self) (PyFloat 0%float) = false ->
  VoiceChanger.process L self x =
    (ints ← np_frombuffer_int16 x;
     sum ← np_add (slice_step2 (map (fun z => (inject_Z z / 32768)%Q) ints))
                  (slice_step2 (tl (map (fun z => (inject_Z z / 32768)%Q) ints)));
     shifted ← _pitch_shift L (map (fun x => (x * (1 # 2))%Q) sum)
                 (VoiceChanger.semitones self);
     Ok (tobytes_int16 (np_repeat2
           (map (fun x => astype_int16 (np_clip (x * 32768) (-32768) 32767))
                shifted)))).
Proof. intros Hz. unfold VoiceChanger.process. cbv zeta. now rewrite Hz. Qed.

(** C2. Whenever the active shift compares equal to 0.0, [process] returns
    its argument itself, whatever the bytes are (no decoding takes place). *)
Theorem process_identity (L : Libs Q) (self : VoiceChanger.t) (x : list byte) :
  py_eq (VoiceChanger.semitones self) (PyFloat 0%float) = true ->
  VoiceChanger.process L self x = Ok x.
Proof. apply process_zero. Qed.

(** A witness of C2: a fresh controller and three bytes (not even a whole
    sample frame). *)
Lemma process_identity_witness :
  VoiceChanger.process (passthrough_libs Q) VoiceChanger.init [x01; x02; x03] =
  Ok [x01; x02; x03].
Proof.
  apply (process_identity (passthrough_libs Q) VoiceChanger.init [x01; x02; x03]).
  reflexivity.
Defined.

(** C9. A mode string outside normal/high/low/gender/custom yields the
    float 0.0 from [semitones], and [process] is then the identity. *)
Theorem unknown_mode_passthrough (L : Libs Q) (self : VoiceChanger.t)
  (x : list byte) :
  VoiceChanger.mode self <> "normal" ->
  VoiceChanger.mode self <> "high" ->
  VoiceChanger.mode self <> "low" ->
  VoiceChanger.mode self <> "gender" ->
  VoiceChanger.mode self <> "custom" ->
  VoiceChanger.semitones self = PyFloat 0%float /\
  VoiceChanger.process L self x = Ok x.
Proof.
  intros Hn Hh Hl Hg Hc.
  assert (Hs : VoiceChanger.semitones self = PyFloat 0%float).
  { unfold VoiceChanger.semitones.
    apply String.eqb_neq in Hg. apply String.eqb_neq in Hc.
    rewrite Hg, Hc, (_FIXED_unknown _ Hn Hh Hl). reflexivity. }
  split; [exact Hs |]. apply process_zero. rewrite Hs. reflexivity.
Qed.

(** A witness of C9: the mode string "robot". *)
Lemma unknown_mode_passthrough_witness :
  let self := VoiceChanger.set_mode (VoiceChanger.set_gender VoiceChanger.init false) "robot" in
  VoiceChanger.semitones self = PyFloat 0%float /\
  VoiceChanger.process (passthrough_libs Q) self [x01; x02; x03; x04] =
  Ok [x01; x02; x03; x04].
Proof.
  cbv zeta.
  apply (unknown_mode_passthrough (passthrough_libs Q)
           (VoiceChanger.set_mode
              (VoiceChanger.set_gender VoiceChanger.init false) "robot")
           [x01; x02; x03; x04]); discriminate.
Defined.

(** ** Engine selection *)

(** C8. The engine [voice_changer.py] selects at import time is the first
    available one in the order pyrubberband, librosa, scipy; two
    environments with the same pyrubberband and librosa availability select
    the same engine; and [main.py]'s [pitch_shift] dispatches a nonzero
    shift to the backend of that same engine. *)
Theorem engine_selection_deterministic (sample : Type) (L L' : Libs sample)
  (audio : list sample) (st : pynum) :
  has_pyrubberband L' = has_pyrubberband L ->
  has_librosa L' = has_librosa L ->
  find (backend_available L) preference_order = Some (_ENGINE L) /\
  _ENGINE L' = _ENGINE L /\
  Main.pitch_shift L audio st =
    (if py_eq st (PyInt 0) then Ok audio
     else main_backend L (_ENGINE L) audio st).
Proof.
  intros Hp Hl. unfold _ENGINE, Main.pitch_shift, Main.HAS_PYRUBBERBAND,
    Main.HAS_LIBROSA, import_module. rewrite Hp, Hl. cbn [find preference_order backend_available].
  destruct (has_pyrubberband L), (has_librosa L), (py_eq st (PyInt 0));
    repeat split; reflexivity.
Qed.

(** A witness of C8: librosa alone is installed, with and without scipy. *)
Lemma engine_selection_deterministic_witness :
  find (backend_available (librosa_only Z)) preference_order = Some Librosa /\
  _ENGINE (librosa_without_scipy Z) = Librosa /\
  Main.pitch_shift (librosa_only Z) [1%Z; 2%Z; 3%Z] (PyInt 6) =
    Ok [3%Z; 2%Z; 1%Z].
Proof.
  apply (engine_selection_deterministic Z (librosa_only Z)
           (librosa_without_scipy Z) [1%Z; 2%Z; 3%Z] (PyInt 6)); reflexivity.
Defined.

(** ** Failure of the pitch-shift backend *)

(** C3, on the code: with a backend that raises, [process] raises the same
    exception instead of returning the window, and [write] lets it through
    to its caller; the window has left the speaker buffer and nothing was
    pushed to the jitter buffer. *)
Theorem process_propagates_backend_error :
  let self := VoiceChanger.set_high VoiceChanger.init in
  let window := repeat x00 (Z.to_nat VoiceChangerSink._chunk_bytes) in
  let sink := VoiceChangerSink.init self idle_client in
  VoiceChanger.process (broken_rubberband Q) self window = Raise RuntimeError /\
  VoiceChangerSink.write (broken_rubberband Q) sink window 7 =
    (VoiceChangerSink.mk self idle_client BufferedAudioSource.init
       (<[7%Z := []]> ∅),
     [], Raise RuntimeError).
Proof. cbv zeta. split; vm_compute; reflexivity. Qed.

(** ** The accumulator *)

Lemma chunk_bytes_eq : VoiceChangerSink._chunk_bytes = 38400%Z.
Proof. reflexivity. Qed.

(** One turn of the loop of [write]. *)
Lemma dispatch_unfold (L : Libs Q) (ch : VoiceChanger.t) (buf : list byte)
  (src : BufferedAudioSource.t) :
  VoiceChangerSink.dispatch L ch buf src =
    if (VoiceChangerSink._chunk_bytes <=? Z.of_nat (length buf))%Z then
      match VoiceChanger.process L ch
              (firstn (Z.to_nat VoiceChangerSink._chunk_bytes) buf) with
      | Ok processed =>
          VoiceChangerSink.dispatch L ch
            (skipn (Z.to_nat VoiceChangerSink._chunk_bytes) buf)
            (BufferedAudioSource.push src processed)
      | Raise e =>
          (skipn (Z.to_nat VoiceChangerSink._chunk_bytes) buf, src, Raise e)
      end
    else (buf, src, Ok tt).
Proof.
  rewrite VoiceChangerSink.dispatch_equation_1.
  destruct (Z_le_gt_dec VoiceChangerSink._chunk_bytes (Z.of_nat (length buf)))
    as [Hle | Hgt]; simp dispatch.
  - destruct (Z.leb_spec VoiceChangerSink._chunk_bytes (Z.of_nat (length buf)));
      [| lia].
    destruct (VoiceChanger.process L ch _); simp dispatch; reflexivity.
  - destruct (Z.leb_spec VoiceChangerSink._chunk_bytes (Z.of_nat (length buf)));
      [lia | reflexivity].
Qed.

Section Dispatch.

Variable L : Libs Q.
Variable ch : VoiceChanger.t.

Lemma window_size_pos : 0 < window_size.
Proof. unfold window_size. rewrite chunk_bytes_eq. lia. Qed.

(** The loop dispatches the [K] full windows in order and keeps the rest. *)
Lemma dispatch_windows (K : nat) :
  forall (buf : list byte) (src : BufferedAudioSource.t) (outs : list (list byte)),
    K * window_size <= length buf < K * window_size + window_size ->
    Forall2 (fun w out => VoiceChanger.process L ch w = Ok out)
            (windows window_size K buf) outs ->
    VoiceChangerSink.dispatch L ch buf src =
      (skipn (K * window_size) buf,
       BufferedAudioSource.mk (BufferedAudioSource._buf src ++ concat outs),
       Ok tt).
Proof.
  pose proof window_size_pos as HW.
  induction K as [| K IH]; intros buf src outs Hlen Hall.
  - inversion Hall; subst. rewrite dispatch_unfold.
    destruct (Z.leb_spec VoiceChangerSink._chunk_bytes (Z.of_nat (length buf)))
      as [Hle | _].
    + exfalso. unfold window_size in *. lia.
    + destruct src as [b]. cbn [BufferedAudioSource._buf concat Nat.mul skipn].
      now rewrite app_nil_r.
  - cbn [windows] in Hall. inversion Hall as [| w out ws outs' Hout Hrest]; subst.
    rewrite dispatch_unfold.
    destruct (Z.leb_spec VoiceChangerSink._chunk_bytes (Z.of_nat (length buf)))
      as [_ | Hgt].
    + fold window_size. rewrite Hout.
      rewrite (IH (skipn window_size buf) (BufferedAudioSource.push src out) outs').
      * rewrite skipn_skipn. cbn [BufferedAudioSource.push BufferedAudioSource._buf concat].
        rewrite <- app_assoc. f_equal. f_equal. f_equal. lia.
      * rewrite length_skipn. lia.
      * exact Hrest.
    + exfalso. unfold window_size in *. lia.
Qed.

End Dispatch.

(** The accumulator while the transform returns. When the speaker buffer,
    after the incoming data is appended, holds [K] windows of 38400 bytes
    and [r < 38400] more, and the transform returns on each of them, [write]
    returns, has pushed the [K] transformed windows to the jitter buffer in
    order, and leaves exactly the last [r] bytes in the speaker buffer. One
    3840-byte frame for a speaker without a buffer dispatches nothing and is
    kept whole. *)
Theorem ingest_dispatches_full_windows (L : Libs Q)
  (self : VoiceChangerSink.t) (data : list byte) (user : Z) (K r : nat)
  (outs : list (list byte)) :
  let buf := default [] (VoiceChangerSink._user_bufs self !! user) ++ data in
  let after := VoiceChangerSink.write L self data user in
  let self' := fst (fst after) in
  (length buf = K * window_size + r ->
   r < window_size ->
   Forall2 (fun w out => VoiceChanger.process L (VoiceChangerSink.changer self) w = Ok out)
           (windows window_size K buf) outs ->
   window_size = 10 * 3840 /\
   snd after = Ok tt /\
   length outs = K /\
   BufferedAudioSource._buf (VoiceChangerSink.audio_source self') =
     BufferedAudioSource._buf (VoiceChangerSink.audio_source self) ++ concat outs /\
   VoiceChangerSink._user_bufs self' !! user = Some (skipn (K * window_size) buf) /\
   length (skipn (K * window_size) buf) = r) /\
  (VoiceChangerSink._user_bufs self !! user = None ->
   length data = 3840 ->
   snd after = Ok tt /\
   VoiceChangerSink.audio_source self' = VoiceChangerSink.audio_source self /\
   VoiceChangerSink._user_bufs self' !! user = Some data /\
   length data = 3840).
Proof.
  cbv zeta. split.
  - intros Hlen Hr Hall.
    assert (Hk : length outs = K).
    { apply Forall2_length in Hall. rewrite <- Hall. clear.
      generalize (default [] (VoiceChangerSink._user_bufs self !! user) ++ data).
      induction K as [| K IH]; intros b; cbn [windows length]; [| rewrite IH]; reflexivity. }
    unfold VoiceChangerSink.write.
    rewrite (dispatch_windows L (VoiceChangerSink.changer self) K _ _ outs)
      by (try exact Hall; lia).
    destruct (VoiceChangerSink.start_playback (VoiceChangerSink.vc self)) as [vc' printed].
    cbn [fst snd VoiceChangerSink.audio_source VoiceChangerSink._user_bufs
         BufferedAudioSource._buf].
    rewrite lookup_insert_eq, length_skipn.
    repeat split; try reflexivity; try assumption. lia.
  - intros Hnone Hlen.
    unfold VoiceChangerSink.write. rewrite Hnone. cbn [default app].
    rewrite (dispatch_windows L (VoiceChangerSink.changer self) 0 data _ [])
      by (try constructor; unfold window_size; rewrite chunk_bytes_eq; lia).
    destruct (VoiceChangerSink.start_playback (VoiceChangerSink.vc self)) as [vc' printed].
    cbn [fst snd VoiceChangerSink.audio_source VoiceChangerSink._user_bufs
         BufferedAudioSource._buf concat Nat.mul skipn].
    rewrite lookup_insert_eq, app_nil_r.
    destruct (VoiceChangerSink.audio_source self). repeat split; try reflexivity. exact Hlen.
Qed.

(** An instance: eleven frames of silence for a new speaker in mode
    "high" (one window dispatched, one frame kept), and a single frame for a
    new speaker (nothing dispatched). *)
Lemma ingest_dispatches_full_windows_witness :
  let L := passthrough_libs Q in
  let sink := VoiceChangerSink.init (VoiceChanger.set_high VoiceChanger.init) idle_client in
  let data := repeat x00 (window_size + 3840) in
  let frame := repeat x01 3840 in
  let sink1 := fst (fst (VoiceChangerSink.write L sink data 7)) in
  let sink2 := fst (fst (VoiceChangerSink.write L sink frame 7)) in
  (BufferedAudioSource._buf (VoiceChangerSink.audio_source sink1) =
     repeat x00 window_size /\
   length (default [] (VoiceChangerSink._user_bufs sink1 !! 7%Z)) = 3840) /\
  (VoiceChangerSink.audio_source sink2 = BufferedAudioSource.init /\
   VoiceChangerSink._user_bufs sink2 !! 7%Z = Some frame).
Proof.
  cbv zeta. split.
  - destruct (proj1 (ingest_dispatches_full_windows (passthrough_libs Q)
               (VoiceChangerSink.init (VoiceChanger.set_high VoiceChanger.init) idle_client)
               (repeat x00 (window_size + 3840)) 7 1 3840
               [repeat x00 window_size]))
      as (_ & _ & _ & Hsrc & Hbuf & Hlen).
    + apply Nat.eqb_eq. vm_compute. reflexivity.
    + apply Nat.ltb_lt. vm_compute. reflexivity.
    + cbn [windows]. constructor; [| constructor].
      apply returns_ok. vm_compute. reflexivity.
    + rewrite Hsrc, Hbuf. split; [apply app_nil_r | exact Hlen].
  - destruct (proj2 (ingest_dispatches_full_windows (passthrough_libs Q)
               (VoiceChangerSink.init (VoiceChanger.set_high VoiceChanger.init) idle_client)
               (repeat x01 3840) 7 0 0 []))
      as (_ & Hsrc & Hbuf & _).
    + reflexivity.
    + apply repeat_length.
    + split; [exact Hsrc | exact Hbuf].
Defined.

(** ** The transform: decoding, downmix, encoding *)

Lemma byte_of_Z_to_N (z : Z) :
  Z.of_N (Byte.to_N (byte_of_Z z)) = (z mod 256)%Z.
Proof.
  unfold byte_of_Z.
  assert (Hb : (0 <= z mod 256 < 256)%Z) by (apply Z.mod_pos_bound; lia).
  destruct (Byte.of_N (Z.to_N (z mod 256))) as [b |] eqn:E.
  - apply Byte.to_of_N in E. rewrite E. lia.
  - apply Byte.of_N_None_iff in E. lia.
Qed.

Lemma int16_roundtrip (z : Z) :
  (-32768 <= z <= 32767)%Z ->
  int16_to_le z =
    [byte_of_Z (z mod 65536); byte_of_Z (z mod 65536 / 256)] /\
  int16_of_le (byte_of_Z (z mod 65536)) (byte_of_Z (z mod 65536 / 256)) = z.
Proof.
  intros Hz. split; [reflexivity |].
  unfold int16_of_le. rewrite !byte_of_Z_to_N. cbv zeta.
  destruct (Z.ltb_spec (z mod 65536 mod 256 + 256 * (z mod 65536 / 256 mod 256)) 32768);
    Z.to_euclidean_division_equations; lia.
Qed.

Lemma frombuffer_tobytes (a : list Z) :
  Forall (fun z => (-32768 <= z <= 32767)%Z) a ->
  np_frombuffer_int16 (tobytes_int16 a) = Ok a.
Proof.
  induction 1 as [| z a Hz _ IH]; [reflexivity |].
  cbn [tobytes_int16 flat_map]. destruct (int16_roundtrip z Hz) as [-> Hrt].
  cbn [app np_frombuffer_int16]. fold (tobytes_int16 a). rewrite IH.
  cbn. now rewrite Hrt.
Qed.

Lemma tobytes_length (a : list Z) : length (tobytes_int16 a) = 2 * length a.
Proof.
  induction a as [| z a IH]; [reflexivity |].
  cbn [tobytes_int16 flat_map]. rewrite length_app. fold (tobytes_int16 a).
  rewrite IH. cbn [int16_to_le length]. lia.
Qed.

Lemma np_repeat2_length {A : Type} (a : list A) :
  length (np_repeat2 a) = 2 * length a.
Proof.
  induction a as [| x a IH]; [reflexivity |].
  cbn [np_repeat2 flat_map app length] in *. unfold np_repeat2 in IH. lia.
Qed.

Lemma stereo_frames_repeat2 {A : Type} (a : list A) :
  stereo_frames (np_repeat2 a) = map (fun s => (s, s)) a.
Proof.
  induction a as [| x a IH]; [reflexivity |].
  cbn [np_repeat2 flat_map app stereo_frames map]. f_equal. exact IH.
Qed.

(** A buffer of whole stereo frames decodes to an even number of samples. *)
Lemma frombuffer_frames (x : list byte) :
  length x mod 4 = 0 ->
  exists ints, np_frombuffer_int16 x = Ok ints /\
               length ints = 2 * length (stereo_frames ints) /\
               length x = 2 * length ints.
Proof.
  remember (length x) as n eqn:Hn. revert x Hn.
  induction n as [n IH] using lt_wf_ind. intros x Hn Hmod.
  destruct x as [| b0 [| b1 [| b2 [| b3 x]]]]; cbn [length] in Hn; subst n.
  - exists []. repeat split.
  - discriminate.
  - discriminate.
  - discriminate.
  - destruct (IH (length x)) with (x := x) as (ints & Hi & He & Hl).
    + cbn [length]. lia.
    + reflexivity.
    + cbn [length] in Hmod.
      replace (S (S (S (S (length x))))) with (length x + 1 * 4) in Hmod by lia.
      now rewrite Nat.Div0.mod_add in Hmod.
    + exists (int16_of_le b0 b1 :: int16_of_le b2 b3 :: ints).
      split; [| split].
      * cbn [np_frombuffer_int16]. rewrite Hi. reflexivity.
      * cbn [stereo_frames length]. lia.
      * cbn [length]. lia.
Qed.

(** On an even number of samples the two strided slices are the left and
    the right channel. *)
Lemma slices_of_frames {A : Type} (a : list A) :
  length a = 2 * length (stereo_frames a) ->
  slice_step2 a = map fst (stereo_frames a) /\
  slice_step2 (tl a) = map snd (stereo_frames a).
Proof.
  remember (length a) as n eqn:Hn. revert a Hn.
  induction n as [n IH] using lt_wf_ind. intros a Hn He.
  destruct a as [| l [| r a]]; cbn [length stereo_frames] in *.
  - split; reflexivity.
  - lia.
  - destruct (IH (length a)) with (a := a) as [Hl Hr]; [lia | reflexivity | lia |].
    cbn [slice_step2 map fst snd tl]. rewrite Hl. split; [reflexivity |].
    destruct a as [| l' a']; [reflexivity |].
    cbn [slice_step2 tl] in *. now rewrite Hr.
Qed.
Lemma quot_cancel (k : Z) (d : positive) : Z.quot (k * Z.pos d) (Z.pos d) = k.
Proof. apply Z.quot_mul. lia. Qed.

Lemma clip_saturate (x : Q) :
  astype_int16 (np_clip x (-32768) 32767) = saturate_int16 x /\
  (-32768 <= saturate_int16 x <= 32767)%Z.
Proof.
  destruct x as [n d].
  unfold np_clip, Qmin, Qmax, GenericMinMax.gmin, GenericMinMax.gmax,
    saturate_int16, astype_int16, Qle_bool, Qcompare.
  cbn [Qnum Qden]. rewrite !Z.mul_1_r.
  pose proof (Z.quot_le_mono (-32768 * Z.pos d) n (Z.pos d)) as Hlo.
  pose proof (Z.quot_le_mono n (32767 * Z.pos d) (Z.pos d)) as Hhi.
  pose proof (Z.quot_le_mono n (-32768 * Z.pos d) (Z.pos d)) as Hlo'.
  pose proof (Z.quot_le_mono (32767 * Z.pos d) n (Z.pos d)) as Hhi'.
  rewrite quot_cancel in Hlo, Hhi, Hlo', Hhi'.
  destruct (Z.compare_spec n (-32768 * Z.pos d)) as [He | Hl | Hg];
    cbn [Qnum Qden]; rewrite ?Z.mul_1_r;
    destruct (Z.leb_spec (32767 * Z.pos d) n);
    destruct (Z.leb_spec n (-32768 * Z.pos d)); try lia.
  - destruct (Z.compare_spec n (32767 * Z.pos d)); try lia.
    cbn [Qnum Qden]. lia.
  - cbn. split; [reflexivity | lia].
  - destruct (Z.compare_spec n (32767 * Z.pos d)); try lia; cbn [Qnum Qden]; try lia.
    cbn. split; [reflexivity | lia].
  - destruct (Z.compare_spec n (32767 * Z.pos d)); try lia; cbn [Qnum Qden]; lia.
Qed.

Lemma bind_ok {A B : Type} (a : A) (k : A -> result B) : (Ok a ≫= k) = k a.
Proof. reflexivity. Qed.

Lemma stereo_frames_map {A B : Type} (g : A -> B) (a : list A) :
  stereo_frames (map g a) =
  map (fun f => (g (fst f), g (snd f))) (stereo_frames a).
Proof.
  remember (length a) as n eqn:Hn. revert a Hn.
  induction n as [n IH] using lt_wf_ind. intros a Hn.
  destruct a as [| l [| r a]]; try reflexivity.
  cbn [map stereo_frames fst snd]. f_equal.
  apply (IH (length a)); [subst n; cbn [length]; lia | reflexivity].
Qed.

Lemma zip_with_map_same {A B C D : Type} (f : B -> C -> D) (p : A -> B)
  (q : A -> C) (l : list A) :
  zip_with f (map p l) (map q l) = map (fun x => f (p x) (q x)) l.
Proof. induction l as [| x l IH]; [reflexivity |]. cbn. now rewrite IH. Qed.

(** The two strided slices, added and halved, are the per-frame averages. *)
Lemma downmix_frames (ints : list Z) :
  length ints = 2 * length (stereo_frames ints) ->
  let arr := map (fun z => (inject_Z z / 32768)%Q) ints in
  (np_add (slice_step2 arr) (slice_step2 (tl arr)) ≫=
     fun sum => Ok (map (fun x => (x * (1 # 2))%Q) sum)) =
  Ok (map channel_average (stereo_frames ints)).
Proof.
  intros He arr.
  assert (Ha : length arr = 2 * length (stereo_frames arr)).
  { subst arr. rewrite stereo_frames_map, !length_map. exact He. }
  destruct (slices_of_frames arr Ha) as [-> ->].
  unfold np_add. rewrite !length_map, Nat.eqb_refl, bind_ok, zip_with_map_same.
  subst arr. rewrite stereo_frames_map, !map_map. reflexivity.
Qed.

(** [process] on whole stereo frames and a nonzero shift: averages in,
    saturated and duplicated samples out. *)
Lemma process_frames (L : Libs Q) (self : VoiceChanger.t) (x : list byte)
  (ints : list Z) :
  py_eq (VoiceChanger.semitones self) (PyFloat 0%float) = false ->
  np_frombuffer_int16 x = Ok ints ->
  length ints = 2 * length (stereo_frames ints) ->
  VoiceChanger.process L self x =
    (_pitch_shift L (map channel_average (stereo_frames ints))
       (VoiceChanger.semitones self) ≫=
     fun shifted =>
       Ok (tobytes_int16 (np_repeat2
             (map (fun s => saturate_int16 (s * 32768)) shifted)))).
Proof.
  intros Hnz Hx He. rewrite (process_nonzero L self x Hnz), Hx, bind_ok.
  pose proof (downmix_frames ints He) as Hd. cbv zeta in Hd.
  destruct (np_add _ _) as [sum | e]; [| discriminate].
  rewrite bind_ok. rewrite (bind_ok sum) in Hd. injection Hd as ->.
  destruct (_pitch_shift L _ _) as [shifted | e]; [| reflexivity].
  rewrite !bind_ok. do 3 f_equal. apply map_ext. intros s.
  apply clip_saturate.
Qed.

Lemma encoded_length (out : list Z) :
  length (tobytes_int16 (np_repeat2 out)) = 4 * length out.
Proof. rewrite tobytes_length, np_repeat2_length. lia. Qed.

(** ** The pitch-shift backends keep the sample count *)

Lemma np_tile_length {A : Type} (a : list A) (reps : nat) :
  length (np_tile a reps) = reps * length a.
Proof.
  unfold np_tile. induction reps as [| k IH]; [reflexivity |].
  cbn [repeat concat]. rewrite length_app, IH. reflexivity.
Qed.

Lemma ceil_div_covers (n m : nat) : 0 < m -> n <= ceil_div n m * m.
Proof.
  intros Hm. unfold ceil_div.
  pose proof (Nat.div_mod_eq (n + m - 1) m) as Hdm.
  pose proof (Nat.mod_upper_bound (n + m - 1) m) as Hub. nia.
Qed.

(** The truncate-or-tile step of the resampling fallback. *)
Lemma fallback_restores_length {A : Type} (resampled : list A) (n new_len : nat) :
  length resampled = new_len ->
  0 < new_len ->
  length (if n <=? new_len then firstn n resampled
          else firstn n (np_tile resampled (ceil_div n new_len + 1))) = n.
Proof.
  intros Hr Hpos. destruct (Nat.leb_spec n new_len) as [Hle | Hlt].
  - rewrite length_firstn. lia.
  - rewrite length_firstn, np_tile_length, Hr.
    pose proof (ceil_div_covers n new_len Hpos). nia.
Qed.

Lemma _pitch_shift_length (L : Libs Q) (mono out : list Q) (st : pynum) :
  library_contract L ->
  _pitch_shift L mono st = Ok out ->
  length out = length mono.
Proof.
  intros (Hpyrb & Hlibrosa & Hres). unfold _pitch_shift.
  destruct (_ENGINE L).
  - apply Hpyrb.
  - apply Hlibrosa.
  - destruct (import_module (has_scipy L)) as [[] | e]; [| discriminate].
    rewrite bind_ok. cbv zeta.
    destruct (scaled_len L (length mono) st) as [r | e]; [| discriminate].
    rewrite bind_ok.
    destruct (sg_resample L mono (Z.to_nat (Z.max 1 r))) as [resampled | e] eqn:Er;
      [| discriminate].
    rewrite bind_ok. apply Hres in Er.
    pose proof (fallback_restores_length resampled (length mono)
                  (Z.to_nat (Z.max 1 r)) Er ltac:(lia)) as Hlen.
    destruct (length mono <=? Z.to_nat (Z.max 1 r)); intros [= <-]; exact Hlen.
Qed.

(** C5. Given the libraries' contract (a pitch shift keeps the sample
    count, [resample] returns the count asked for), on a chunk of whole
    stereo frames: whatever [process] returns has the length of its input;
    it returns whenever the selected backend does; every backend keeps the
    sample count; and the resampling fallback returns the resampled signal
    truncated to the input's count when it is at least as long, and its
    periodic repetition truncated to that count when it is shorter. *)
Theorem transform_preserves_length (L : Libs Q) (self : VoiceChanger.t)
  (x : list byte) :
  library_contract L ->
  length x mod 4 = 0 ->
  (forall y, VoiceChanger.process L self x = Ok y -> length y = length x) /\
  (exists mono, 4 * length mono = length x /\
     forall shifted,
       _pitch_shift L mono (VoiceChanger.semitones self) = Ok shifted ->
       exists y, VoiceChanger.process L self x = Ok y /\ length y = length x) /\
  (forall mono st shifted,
     _pitch_shift L mono st = Ok shifted -> length shifted = length mono) /\
  (forall mono st r resampled,
     _ENGINE L = Scipy ->
     has_scipy L = true ->
     scaled_len L (length mono) st = Ok r ->
     sg_resample L mono (Z.to_nat (Z.max 1 r)) = Ok resampled ->
     let n := length mono in
     let out :=
       if n <=? length resampled then firstn n resampled
       else firstn n (np_tile resampled (ceil_div n (length resampled) + 1)) in
     _pitch_shift L mono st = Ok out /\ length out = n).
Proof.
  intros Hlib Hmod.
  destruct (frombuffer_frames x Hmod) as (ints & Hints & Heven & Hlen).
  assert (Hshape : forall y, VoiceChanger.process L self x = Ok y ->
                             length y = length x).
  { intros y Hy.
    destruct (py_eq (VoiceChanger.semitones self) (PyFloat 0%float)) eqn:Hz.
    - rewrite (process_zero L self x Hz) in Hy. now injection Hy as <-.
    - rewrite (process_frames L self x ints Hz Hints Heven) in Hy.
      destruct (_pitch_shift L _ _) as [shifted | e] eqn:Hs; [| discriminate].
      rewrite bind_ok in Hy. injection Hy as <-.
      apply (_pitch_shift_length L _ _ _ Hlib) in Hs.
      rewrite encoded_length, length_map, Hs, length_map. lia. }
  split; [exact Hshape | split; [| split]].
  - exists (map channel_average (stereo_frames ints)). split.
    + rewrite length_map. lia.
    + intros shifted Hs.
      destruct (py_eq (VoiceChanger.semitones self) (PyFloat 0%float)) eqn:Hz.
      * exists x. split; [apply (process_zero L self x Hz) | reflexivity].
      * eexists. split; [| apply Hshape];
          rewrite (process_frames L self x ints Hz Hints Heven), Hs, bind_ok;
          reflexivity.
  - intros mono st shifted. apply (_pitch_shift_length L mono shifted st Hlib).
  - intros mono st r resampled Heng Hsci Hr Hres. cbv zeta.
    destruct Hlib as (_ & _ & Hcontract). pose proof (Hcontract _ _ _ Hres) as Hl.
    unfold _pitch_shift. rewrite Heng, Hsci. cbn [import_module].
    rewrite bind_ok. cbv zeta. rewrite Hr, bind_ok, Hres, bind_ok, Hl.
    split.
    + destruct (length mono <=? Z.to_nat (Z.max 1 r)); reflexivity.
    + apply fallback_restores_length; [exact Hl | lia].
Qed.

(** Whole stereo frames are needed: on three samples the two slices have
    lengths 2 and 1, numpy broadcasts the shorter one and two frames come
    back; on five samples the addition raises [ValueError]. *)
Example process_partial_frame :
  let self := VoiceChanger.set_high VoiceChanger.init in
  VoiceChanger.process (passthrough_libs Q) self
    [x01; x00; x02; x00; x03; x00] =
    Ok [x01; x00; x01; x00; x02; x00; x02; x00] /\
  VoiceChanger.process (passthrough_libs Q) self
    [x01; x00; x02; x00; x03; x00; x04; x00; x05; x00] = Raise ValueError.
Proof. cbv zeta. split; vm_compute; reflexivity. Qed.

Lemma scipy_octave_up_contract : library_contract scipy_octave_up.
Proof.
  repeat split.
  - intros a sr st out [= <-]. reflexivity.
  - intros a sr st kw out [= <-]. reflexivity.
  - intros a n out [= <-]. apply repeat_length.
Qed.

(** A witness of C5: two stereo frames through the fallback, whose
    resampled signal is one sample long and is tiled back to two. *)
Lemma transform_preserves_length_witness :
  let self := VoiceChanger.set_high VoiceChanger.init in
  let x := [x00; x40; x00; x40; x64; x00; x2c; x01] in
  VoiceChanger.process scipy_octave_up self x =
    Ok [x00; x40; x00; x40; x00; x40; x00; x40] /\
  length [x00; x40; x00; x40; x00; x40; x00; x40] = length x.
Proof.
  cbv zeta. split; [vm_compute; reflexivity |].
  apply (proj1 (transform_preserves_length scipy_octave_up
                  (VoiceChanger.set_high VoiceChanger.init)
                  [x00; x40; x00; x40; x64; x00; x2c; x01]
                  scipy_octave_up_contract eq_refl)).
  vm_compute. reflexivity.
Defined.

(** C7. On whole stereo frames and a nonzero shift, the backend is handed
    the per-frame averages of the two normalised channel samples; when it
    raises, [process] raises; when it returns, [process] returns the
    little-endian bytes of its samples scaled by 32768, saturated to
    [-32768, 32767] and each written twice, so that every decoded output
    frame has equal left and right samples within that range. *)
Theorem stereo_transform_shape (L : Libs Q) (self : VoiceChanger.t)
  (x : list byte) :
  length x mod 4 = 0 ->
  py_eq (VoiceChanger.semitones self) (PyFloat 0%float) = false ->
  exists ints,
    np_frombuffer_int16 x = Ok ints /\
    let mono := map channel_average (stereo_frames ints) in
    (forall e,
       _pitch_shift L mono (VoiceChanger.semitones self) = Raise e ->
       VoiceChanger.process L self x = Raise e) /\
    (forall shifted,
       _pitch_shift L mono (VoiceChanger.semitones self) = Ok shifted ->
       let out := map (fun s => saturate_int16 (s * 32768)) shifted in
       VoiceChanger.process L self x = Ok (tobytes_int16 (np_repeat2 out)) /\
       np_frombuffer_int16 (tobytes_int16 (np_repeat2 out)) = Ok (np_repeat2 out) /\
       stereo_frames (np_repeat2 out) = map (fun s => (s, s)) out /\
       Forall (fun f => fst f = snd f /\ (-32768 <= fst f <= 32767)%Z)
              (stereo_frames (np_repeat2 out))).
Proof.
  intros Hmod Hnz.
  destruct (frombuffer_frames x Hmod) as (ints & Hints & Heven & _).
  exists ints. split; [exact Hints |]. cbv zeta.
  pose proof (process_frames L self x ints Hnz Hints Heven) as Hp.
  split.
  - intros e He. now rewrite Hp, He.
  - intros shifted Hs. rewrite Hp, Hs, bind_ok.
    assert (Hrange : Forall (fun z => (-32768 <= z <= 32767)%Z)
                       (map (fun s => saturate_int16 (s * 32768)) shifted)).
    { apply List.Forall_forall. intros z Hz. apply in_map_iff in Hz as (s & <- & _).
      apply clip_saturate. }
    split; [reflexivity | split; [| split]].
    + apply frombuffer_tobytes. unfold np_repeat2.
      apply List.Forall_forall. intros z Hz. apply in_flat_map in Hz as (s & Hs1 & Hs2).
      rewrite List.Forall_forall in Hrange. specialize (Hrange s Hs1).
      destruct Hs2 as [<- | [<- | []]]; exact Hrange.
    + apply stereo_frames_repeat2.
    + rewrite stereo_frames_repeat2. apply List.Forall_forall. intros f Hf.
      apply in_map_iff in Hf as (s & <- & Hs1).
      rewrite List.Forall_forall in Hrange. split; [reflexivity | apply (Hrange s Hs1)].
Qed.

(** A witness of C7: three frames through a backend that answers four times
    louder. The frame (16384, 16384) saturates at 32767, (-32768, -32768)
    at -32768, and (100, 300) becomes (800, 800). *)
Lemma stereo_transform_shape_witness :
  let self := VoiceChanger.set_high VoiceChanger.init in
  let x := [x00; x40; x00; x40; x00; x80; x00; x80; x64; x00; x2c; x01] in
  VoiceChanger.process loud_rubberband self x =
    Ok [xff; x7f; xff; x7f; x00; x80; x00; x80; x20; x03; x20; x03] /\
  np_frombuffer_int16
    [xff; x7f; xff; x7f; x00; x80; x00; x80; x20; x03; x20; x03] =
    Ok [32767; 32767; -32768; -32768; 800; 800]%Z.
Proof.
  cbv zeta.
  destruct (stereo_transform_shape loud_rubberband
              (VoiceChanger.set_high VoiceChanger.init)
              [x00; x40; x00; x40; x00; x80; x00; x80; x64; x00; x2c; x01]
              eq_refl eq_refl) as (ints & Hints & _ & Hok).
  vm_compute in Hints. injection Hints as <-.
  destruct (Hok (map (Qmult 4)
                   (map channel_average
                      (stereo_frames [16384; 16384; -32768; -32768; 100; 300]%Z)))
              eq_refl) as (Hp & Hd & _).
  split.
  - rewrite Hp. vm_compute. reflexivity.
  - vm_compute. reflexivity.
Defined.

(** ** The callback of the local-microphone variant *)

Lemma tanh_bounded (x : R) : (-1 <= tanh x <= 1)%R.
Proof.
  unfold tanh, sinh, cosh.
  pose proof (exp_pos x) as Ha. pose proof (exp_pos (- x)) as Hb.
  set (s := ((exp x - exp (- x)) / 2)%R).
  set (c := ((exp x + exp (- x)) / 2)%R).
  assert (Hc : (0 < c)%R) by (subst c; lra).
  assert (Hs : (s / c * c = s)%R) by (field; lra).
  split; apply (Rmult_le_reg_r c); try exact Hc; rewrite Hs; subst s c; lra.
Qed.

Lemma tanh_0 : tanh 0 = 0%R.
Proof. unfold tanh. rewrite sinh_0. unfold Rdiv. apply Rmult_0_l. Qed.

(** What the callback writes, given the signal [processed] it limits. *)
Lemma limited_output (gain : R) (processed outdata : list R) (frames : nat) :
  let limited := map tanh (map (fun x => (x * gain)%R) processed) in
  let zeroed := map (fun _ : R => 0%R) outdata in
  let copy_len := Nat.min (length limited) frames in
  let out := firstn copy_len limited ++ skipn copy_len zeroed in
  copy_len <= length zeroed ->
  length out = length outdata /\
  Forall (fun y => (-1 <= y <= 1)%R) out /\
  (forall i, i < copy_len ->
     nth i out 0%R = tanh (nth i processed 0%R * gain)) /\
  (forall i, copy_len <= i -> nth i out 0%R = 0%R).
Proof.
  intros limited zeroed copy_len out Hfit.
  assert (Hfirst : length (firstn copy_len limited) = copy_len).
  { rewrite length_firstn. subst copy_len. lia. }
  assert (Hzero : forall i, nth i zeroed 0%R = 0%R).
  { intros i. subst zeroed.
    exact (map_nth (fun _ : R => 0%R) outdata 0%R i). }
  split; [| split; [| split]].
  - subst out. rewrite length_app, Hfirst, length_skipn.
    subst zeroed. rewrite length_map in *. lia.
  - subst out. apply Forall_app. split.
    + apply List.Forall_forall. intros y Hy.
      assert (Hin : In y limited).
      { rewrite <- (firstn_skipn copy_len limited). apply in_or_app. now left. }
      subst limited. apply in_map_iff in Hin as (z & <- & _). apply tanh_bounded.
    + apply List.Forall_forall. intros y Hy.
      apply (In_nth _ _ 0%R) in Hy as (i & _ & <-).
      rewrite nth_skipn, Hzero. lra.
  - intros i Hi. subst out. rewrite app_nth1 by lia.
    rewrite nth_firstn. destruct (Nat.ltb_spec i copy_len); [| lia].
    subst limited.
    rewrite <- tanh_0 at 1. rewrite <- (Rmult_0_l gain) at 1.
    rewrite (map_nth tanh), (map_nth (fun x => (x * gain)%R)). reflexivity.
  - intros i Hi. subst out. rewrite app_nth2 by lia.
    rewrite nth_skipn, Hzero. reflexivity.
Qed.

(** [audio_callback] once the mode is a key of [SEMITONE_MAP] and [outdata]
    has room: it returns, whatever [pitch_shift] did. *)
Lemma audio_callback_returns (L : Libs R) (g : Main.globals)
  (indata outdata : list R) (frames : nat) (status : bool) (st : pynum) :
  Main.SEMITONE_MAP g !! Main.current_mode g = Some st ->
  frames <= length outdata ->
  exists processed printed,
    (processed = indata \/ Main.pitch_shift L indata st = Ok processed) /\
    (forall exc, Main.pitch_shift L indata st = Raise exc ->
       py_eq st (PyInt 0) = false ->
       processed = indata /\ In (Main.PitchShiftError exc) printed) /\
    Main.audio_callback L g indata outdata frames status =
      Ok (firstn (Nat.min (length processed) frames)
            (map tanh (map (fun x => (x * Main.VOLUME_GAIN g)%R) processed)) ++
          skipn (Nat.min (length processed) frames)
            (map (fun _ : R => 0%R) outdata),
          printed).
Proof.
  intros Hst Hroom. unfold Main.audio_callback. rewrite Hst.
  assert (Hfit : forall processed : list R,
            (Nat.min (length (map tanh (map (fun x => (x * Main.VOLUME_GAIN g)%R) processed))) frames
             <=? length (map (fun _ : R => 0%R) outdata)) = true).
  { intros processed. apply Nat.leb_le. rewrite !length_map. lia. }
  destruct (py_eq st (PyInt 0)) eqn:Hz; cbn [negb].
  - exists indata, ((if status then [Main.AudioStatus] else []) ++ []).
    rewrite Hfit, !length_map. split; [now left |]. split; [| reflexivity].
    intros exc _ Hne. discriminate.
  - destruct (Main.pitch_shift L indata st) as [p | exc] eqn:Hp.
    + exists p, ((if status then [Main.AudioStatus] else []) ++ []).
      rewrite Hfit, !length_map. split; [now right |]. split; [| reflexivity].
      intros exc Hexc. discriminate.
    + exists indata,
        ((if status then [Main.AudioStatus] else []) ++ [Main.PitchShiftError exc]).
      rewrite Hfit, !length_map. split; [now left |]. split; [| reflexivity].
      intros exc' [= <-] _. split; [reflexivity |].
      apply in_or_app. right. now left.
Qed.

(** On blocks of numbers (no NaN, no infinity): when the current mode is a
    key of [SEMITONE_MAP] and [outdata] has [frames] rows, the callback
    returns, and for every such input block, gain and backend behaviour each
    sample of the new [outdata] lies in [-1, 1]: up to the processed length
    it is [tanh] of the gained sample, beyond it zero. *)
Theorem audio_callback_output_bounded (L : Libs R) (g : Main.globals)
  (indata outdata : list R) (frames : nat) (status : bool) (st : pynum) :
  Main.SEMITONE_MAP g !! Main.current_mode g = Some st ->
  frames <= length outdata ->
  exists processed out printed,
    Main.audio_callback L g indata outdata frames status = Ok (out, printed) /\
    (processed = indata \/ Main.pitch_shift L indata st = Ok processed) /\
    length out = length outdata /\
    Forall (fun y => (-1 <= y <= 1)%R) out /\
    (forall i, i < Nat.min (length processed) frames ->
       nth i out 0%R = tanh (nth i processed 0%R * Main.VOLUME_GAIN g)) /\
    (forall i, Nat.min (length processed) frames <= i -> nth i out 0%R = 0%R).
Proof.
  intros Hst Hroom.
  destruct (audio_callback_returns L g indata outdata frames status st Hst Hroom)
    as (processed & printed & Hsrc & _ & Hcall).
  pose proof (limited_output (Main.VOLUME_GAIN g) processed outdata frames) as Hout.
  cbv zeta in Hout. rewrite !length_map in Hout.
  specialize (Hout ltac:(lia)).
  exists processed. eexists. exists printed.
  split; [exact Hcall |]. split; [exact Hsrc |]. exact Hout.
Qed.

(** An instance: mode "high", a block of three samples, one of them far
    beyond full scale, and an output block of four rows. *)
Lemma audio_callback_output_bounded_witness :
  exists out printed,
    Main.audio_callback (passthrough_libs R) high_globals
      [(1 / 2)%R; (-300)%R; 0%R] [9%R; 9%R; 9%R; 9%R] 4 false =
      Ok (out, printed) /\
    length out = 4 /\
    Forall (fun y => (-1 <= y <= 1)%R) out /\
    nth 3 out 0%R = 0%R.
Proof.
  destruct (audio_callback_output_bounded (passthrough_libs R) high_globals
              [(1 / 2)%R; (-300)%R; 0%R] [9%R; 9%R; 9%R; 9%R] 4 false (PyInt 6)
              eq_refl (le_n 4))
    as (processed & out & printed & Hcall & [-> | Hp] & Hlen & Hbound & _ & Hzero).
  - exists out, printed. split; [exact Hcall |]. split; [exact Hlen |].
    split; [exact Hbound |]. apply Hzero. cbn. lia.
  - injection Hp as <-.
    exists out, printed. split; [exact Hcall |]. split; [exact Hlen |].
    split; [exact Hbound |]. apply Hzero. cbn. lia.
Defined.

(** ** The callback on float32 blocks *)

(** The callback on real samples is the same code at the arithmetic of the
    reals. *)
Lemma audio_callback_over_reals (L : Libs R) (g : Main.globals)
  (indata outdata : list R) (frames : nat) (status : bool) :
  Main.audio_callback L g indata outdata frames status =
  audio_callback_over Rmult Rtrigo_def.tanh 0%R L g indata outdata frames status.
Proof. reflexivity. Qed.

Lemma f32_mul_nan (a : Float32.t) (gain : R) :
  Float32.mul a gain = Float32.NaN <->
  a = Float32.NaN \/
  (gain = 0%R /\ exists negative, a = Float32.Infinity negative).
Proof.
  destruct a as [x | negative |]; cbn [Float32.mul].
  - split; [discriminate | intros [H | (_ & n & H)]; discriminate].
  - destruct (total_order_T gain 0) as [[Hlt | Heq] | Hgt].
    + split; [discriminate | intros [H | (Hz & _)]; [discriminate | lra]].
    + split; [intros _; right; split; [exact Heq | now exists negative] | reflexivity].
    + split; [discriminate | intros [H | (Hz & _)]; [discriminate | lra]].
  - split; [now left | reflexivity].
Qed.

Lemma f32_tanh_nan (a : Float32.t) :
  Float32.tanh a = Float32.NaN <-> a = Float32.NaN.
Proof. destruct a; cbn [Float32.tanh]; split; intros H; congruence. Qed.

Lemma f32_tanh_in_unit (a : Float32.t) :
  a <> Float32.NaN -> Float32.in_unit (Float32.tanh a).
Proof.
  destruct a as [x | [|] |]; cbn [Float32.tanh Float32.in_unit]; intros H.
  - apply tanh_bounded.
  - lra.
  - lra.
  - congruence.
Qed.

Section CallbackReturns.

Context {sample : Type}.
Variable mul : sample -> R -> sample.
Variable limit : sample -> sample.
Variable zero : sample.

(** The callback over any sample arithmetic, once the mode is a key of
    [SEMITONE_MAP] and [outdata] has room. *)
Lemma audio_callback_over_returns (L : Libs sample) (g : Main.globals)
  (indata outdata : list sample) (frames : nat) (status : bool) (st : pynum) :
  Main.SEMITONE_MAP g !! Main.current_mode g = Some st ->
  frames <= length outdata ->
  exists processed printed,
    (processed = indata \/ Main.pitch_shift L indata st = Ok processed) /\
    audio_callback_over mul limit zero L g indata outdata frames status =
      Ok (firstn (Nat.min (length processed) frames)
            (map limit (map (fun x => mul x (Main.VOLUME_GAIN g)) processed)) ++
          skipn (Nat.min (length processed) frames)
            (map (fun _ : sample => zero) outdata),
          printed).
Proof.
  intros Hst Hroom. unfold audio_callback_over. rewrite Hst.
  assert (Hfit : forall processed : list sample,
            (Nat.min (length (map limit
                                (map (fun x => mul x (Main.VOLUME_GAIN g)) processed)))
                     frames
             <=? length (map (fun _ : sample => zero) outdata)) = true).
  { intros processed. apply Nat.leb_le. rewrite !length_map. lia. }
  destruct (py_eq st (PyInt 0)) eqn:Hz; cbn [negb].
  - exists indata, ((if status then [Main.AudioStatus] else []) ++ []).
    rewrite Hfit, !length_map. split; [now left | reflexivity].
  - destruct (Main.pitch_shift L indata st) as [p | exc] eqn:Hp.
    + exists p, ((if status then [Main.AudioStatus] else []) ++ []).
      rewrite Hfit, !length_map. split; [now right | reflexivity].
    + exists indata,
        ((if status then [Main.AudioStatus] else []) ++ [Main.PitchShiftError exc]).
      rewrite Hfit, !length_map. split; [now left | reflexivity].
Qed.

End CallbackReturns.

(** What the callback writes on float32 samples, given the signal
    [processed] it limits. *)
Lemma limited_output_f32 (gain : R) (processed outdata : list Float32.t)
  (frames : nat) :
  let limited :=
    map Float32.tanh (map (fun x => Float32.mul x gain) processed) in
  let zeroed := map (fun _ : Float32.t => Float32.zero) outdata in
  let copy_len := Nat.min (length processed) frames in
  let out := firstn copy_len limited ++ skipn copy_len zeroed in
  frames <= length outdata ->
  length out = length outdata /\
  (forall i, i < copy_len ->
     nth i out Float32.zero =
       Float32.tanh (Float32.mul (nth i processed Float32.zero) gain)) /\
  (forall i, copy_len <= i -> nth i out Float32.zero = Float32.zero).
Proof.
  intros limited zeroed copy_len out Hfit.
  assert (Hlim : length limited = length processed).
  { subst limited. now rewrite !length_map. }
  assert (Hfirst : length (firstn copy_len limited) = copy_len).
  { rewrite length_firstn. subst copy_len. lia. }
  assert (Hzero : forall i, nth i zeroed Float32.zero = Float32.zero).
  { intros i. subst zeroed.
    exact (map_nth (fun _ : Float32.t => Float32.zero) outdata Float32.zero i). }
  split; [| split].
  - subst out. rewrite length_app, Hfirst, length_skipn.
    subst zeroed. rewrite length_map. subst copy_len. lia.
  - intros i Hi. subst out. rewrite app_nth1 by lia.
    rewrite nth_firstn. destruct (Nat.ltb_spec i copy_len); [| lia].
    subst limited.
    rewrite (nth_indep _ Float32.zero
               (Float32.tanh (Float32.mul Float32.zero gain)))
      by (rewrite !length_map; subst copy_len; lia).
    rewrite (map_nth Float32.tanh).
    rewrite (map_nth (fun x => Float32.mul x gain)). reflexivity.
  - intros i Hi. subst out. rewrite app_nth2 by lia.
    rewrite nth_skipn, Hzero. reflexivity.
Qed.

(** C10, as the code has it. When the current mode is a key of
    [SEMITONE_MAP] and [outdata] has [frames] rows, the callback returns for
    every float32 input block, gain and backend behaviour. Up to the
    processed length each sample written is [tanh] of the gained sample,
    beyond it zero. Each sample written lies in [-1, 1] unless the gained
    sample is NaN, and then NaN is written: that is so exactly for a NaN
    sample and for an infinite sample under gain 0. So a processed block
    without NaN (and without infinities when the gain is 0) gives output
    within [-1, 1] throughout. *)
Theorem audio_callback_bounded_unless_nan (L : Libs Float32.t)
  (g : Main.globals) (indata outdata : list Float32.t) (frames : nat)
  (status : bool) (st : pynum) :
  Main.SEMITONE_MAP g !! Main.current_mode g = Some st ->
  frames <= length outdata ->
  exists processed out printed,
    audio_callback_f32 L g indata outdata frames status = Ok (out, printed) /\
    (processed = indata \/ Main.pitch_shift L indata st = Ok processed) /\
    length out = length outdata /\
    (forall i, i < Nat.min (length processed) frames ->
       nth i out Float32.zero =
         Float32.tanh
           (Float32.mul (nth i processed Float32.zero) (Main.VOLUME_GAIN g)) /\
       (nth i out Float32.zero = Float32.NaN <->
        nth i processed Float32.zero = Float32.NaN \/
        (Main.VOLUME_GAIN g = 0%R /\
         exists negative,
           nth i processed Float32.zero = Float32.Infinity negative)) /\
       (nth i out Float32.zero <> Float32.NaN ->
        Float32.in_unit (nth i out Float32.zero))) /\
    (forall i, Nat.min (length processed) frames <= i ->
       nth i out Float32.zero = Float32.zero) /\
    (Forall (fun x => x <> Float32.NaN /\
                      (Main.VOLUME_GAIN g = 0%R -> exists r, x = Float32.Finite r))
            processed ->
     Forall Float32.in_unit out).
Proof.
  intros Hst Hroom.
  destruct (audio_callback_over_returns Float32.mul Float32.tanh Float32.zero
              L g indata outdata frames status st Hst Hroom)
    as (processed & printed & Hsrc & Hcall).
  pose proof (limited_output_f32 (Main.VOLUME_GAIN g) processed outdata frames
                Hroom) as (Hlen & Hnth & Hzero).
  cbv zeta in Hlen, Hnth, Hzero.
  set (out := firstn (Nat.min (length processed) frames)
                (map Float32.tanh
                   (map (fun x => Float32.mul x (Main.VOLUME_GAIN g)) processed)) ++
              skipn (Nat.min (length processed) frames)
                (map (fun _ : Float32.t => Float32.zero) outdata)) in *.
  exists processed, out, printed.
  split; [exact Hcall |]. split; [exact Hsrc |]. split; [exact Hlen |].
  assert (Hsample : forall i, i < Nat.min (length processed) frames ->
            nth i out Float32.zero =
              Float32.tanh
                (Float32.mul (nth i processed Float32.zero) (Main.VOLUME_GAIN g)) /\
            (nth i out Float32.zero = Float32.NaN <->
             nth i processed Float32.zero = Float32.NaN \/
             (Main.VOLUME_GAIN g = 0%R /\
              exists negative,
                nth i processed Float32.zero = Float32.Infinity negative)) /\
            (nth i out Float32.zero <> Float32.NaN ->
             Float32.in_unit (nth i out Float32.zero))).
  { intros i Hi. rewrite (Hnth i Hi). split; [reflexivity |]. split.
    - rewrite f32_tanh_nan. apply f32_mul_nan.
    - intros Hn. apply f32_tanh_in_unit. intros Hm. apply Hn.
      now apply f32_tanh_nan. }
  split; [exact Hsample |]. split; [exact Hzero |].
  intros Hclean. apply List.Forall_forall. intros y Hy.
  apply (In_nth _ _ Float32.zero) in Hy as (i & Hi & <-).
  destruct (Nat.lt_ge_cases i (Nat.min (length processed) frames)) as [Hlt | Hge].
  - destruct (Hsample i Hlt) as (_ & Hnan & Hunit). apply Hunit.
    intros Hn. apply Hnan in Hn.
    assert (Hin : In (nth i processed Float32.zero) processed) by (apply nth_In; lia).
    rewrite List.Forall_forall in Hclean. destruct (Hclean _ Hin) as (Hx & Hfin).
    destruct Hn as [Hn | (Hg & negative & Hinf)]; [contradiction |].
    destruct (Hfin Hg) as [r Hr]. congruence.
  - rewrite (Hzero i Hge). cbn [Float32.zero Float32.in_unit]. lra.
Qed.

(** A witness of C10: mode "high" with a backend that returns its input, a
    block of a number, an infinity and a NaN, and an output block of four
    rows. The first two samples written are within [-1, 1], the third is
    NaN, the fourth zero. *)
Lemma audio_callback_bounded_unless_nan_witness :
  exists out printed,
    audio_callback_f32 (passthrough_libs Float32.t) high_globals
      [Float32.Finite (1 / 2); Float32.Infinity true; Float32.NaN]
      [Float32.Finite 9; Float32.Finite 9; Float32.Finite 9; Float32.Finite 9]
      4 false = Ok (out, printed) /\
    length out = 4 /\
    Float32.in_unit (nth 0 out Float32.zero) /\
    Float32.in_unit (nth 1 out Float32.zero) /\
    nth 2 out Float32.zero = Float32.NaN /\
    nth 3 out Float32.zero = Float32.zero.
Proof.
  destruct (audio_callback_bounded_unless_nan (passthrough_libs Float32.t)
              high_globals
              [Float32.Finite (1 / 2); Float32.Infinity true; Float32.NaN]
              [Float32.Finite 9; Float32.Finite 9; Float32.Finite 9; Float32.Finite 9]
              4 false (PyInt 6) eq_refl (le_n 4))
    as (processed & out & printed & Hcall & Hsrc & Hlen & Hsample & Hzero & _).
  assert (Hp : processed =
               [Float32.Finite (1 / 2); Float32.Infinity true; Float32.NaN]).
  { destruct Hsrc as [-> | Hp]; [reflexivity | now injection Hp as <-]. }
  subst processed.
  exists out, printed. split; [exact Hcall |]. split; [exact Hlen |].
  destruct (Hsample 0 ltac:(cbn; lia)) as (_ & Hn0 & Hu0).
  destruct (Hsample 1 ltac:(cbn; lia)) as (_ & Hn1 & Hu1).
  destruct (Hsample 2 ltac:(cbn; lia)) as (_ & Hn2 & _).
  assert (Hgain : Main.VOLUME_GAIN high_globals <> 0%R).
  { cbn [high_globals Main.VOLUME_GAIN Main.init_globals]. lra. }
  split; [| split; [| split]].
  - apply Hu0. intros Hn. apply Hn0 in Hn. cbn [nth] in Hn.
    destruct Hn as [Hn | (Hg & _)]; [discriminate | contradiction].
  - apply Hu1. intros Hn. apply Hn1 in Hn. cbn [nth] in Hn.
    destruct Hn as [Hn | (Hg & _)]; [discriminate | contradiction].
  - apply Hn2. left. reflexivity.
  - apply Hzero. cbn. lia.
Defined.

(** C10 as it is worded fails: in normal mode a block holding a NaN sample
    is written out as NaN, which is not within [-1, 1]. *)
Lemma audio_callback_nan_escapes_limiter :
  audio_callback_f32 (passthrough_libs Float32.t)
    Main.init_globals [Float32.NaN] [Float32.zero] 1 false =
    Ok ([Float32.NaN], []) /\
  ~ Forall Float32.in_unit [Float32.NaN].
Proof.
  split.
  - reflexivity.
  - intros H. inversion H as [| y l Hy Hl]; subst. exact Hy.
Qed.

(** * Further properties of the embedded code *)

(** ** The jitter buffer over many pushes and reads *)

Lemma push_all_buf (chunks : list (list byte)) :
  forall src,
    BufferedAudioSource._buf (push_all src chunks) =
    BufferedAudioSource._buf src ++ concat chunks.
Proof.
  induction chunks as [| c chunks IH]; intros src; cbn [push_all fold_left concat].
  - now rewrite app_nil_r.
  - fold (push_all (BufferedAudioSource.push src c) chunks). rewrite IH.
    cbn [BufferedAudioSource.push BufferedAudioSource._buf]. now rewrite app_assoc.
Qed.

Lemma concat_windows (w k : nat) :
  forall buf, k * w <= length buf -> concat (windows w k buf) = firstn (k * w) buf.
Proof.
  induction k as [| k IH]; intros buf Hlen; [reflexivity |].
  cbn [windows concat]. rewrite IH by (rewrite length_skipn; lia).
  rewrite firstn_skipn_comm.
  replace (S k * w) with (w + k * w) by lia.
  rewrite <- (firstn_skipn w (firstn (w + k * w) buf)) at 2.
  f_equal. rewrite firstn_firstn. f_equal. lia.
Qed.

Lemma windows_length (w k : nat) (buf : list byte) :
  length (windows w k buf) = k.
Proof.
  revert buf. induction k as [| k IH]; intros buf; cbn [windows length];
    [| rewrite IH]; reflexivity.
Qed.

Lemma windows_full (w k : nat) :
  forall buf, k * w <= length buf ->
    Forall (fun f => length f = w) (windows w k buf).
Proof.
  induction k as [| k IH]; intros buf Hlen; cbn [windows]; constructor.
  - rewrite length_firstn. lia.
  - apply IH. rewrite length_skipn. lia.
Qed.

(** While data lasts, [k] reads return the [k] leading frames. *)
Lemma read_n_windows (k : nat) :
  forall src,
    k * 3840 <= length (BufferedAudioSource._buf src) ->
    read_n k src =
      (windows 3840 k (BufferedAudioSource._buf src),
       BufferedAudioSource.mk (skipn (k * 3840) (BufferedAudioSource._buf src))).
Proof.
  induction k as [| k IH]; intros src Hlen.
  - destruct src. reflexivity.
  - cbn [read_n]. rewrite read_enough by lia.
    rewrite IH by (cbn [BufferedAudioSource._buf]; rewrite length_skipn; lia).
    cbn [BufferedAudioSource._buf windows]. rewrite skipn_skipn.
    do 3 f_equal. lia.
Qed.

(** On less than a frame, every read is silence and nothing moves. *)
Lemma read_n_underrun (k : nat) (src : BufferedAudioSource.t) :
  length (BufferedAudioSource._buf src) < 3840 ->
  read_n k src = (repeat (repeat x00 3840) k, src).
Proof.
  intros Hlt. induction k as [| k IH]; [reflexivity |].
  cbn [read_n repeat]. rewrite (read_underrun src Hlt), IH. reflexivity.
Qed.

Lemma read_n_app (j k : nat) :
  forall src,
    read_n (j + k) src =
      (fst (read_n j src) ++ fst (read_n k (snd (read_n j src))),
       snd (read_n k (snd (read_n j src)))).
Proof.
  induction j as [| j IH]; intros src; cbn [Nat.add read_n fst snd app].
  - now destruct (read_n k src).
  - destruct (BufferedAudioSource.read src) as [f s1]. rewrite IH.
    destruct (read_n j s1) as [fs s2]. cbn [fst snd].
    destruct (read_n k s2) as [gs s3]. reflexivity.
Qed.

(** X1. First in, first out across any chunking: after any pushes, as long
    as [k] frames of data are buffered, [k] reads return frames of 3840
    bytes whose concatenation is the first [k * 3840] buffered bytes, and
    leave the rest buffered. *)
Theorem jitter_buffer_fifo (src : BufferedAudioSource.t)
  (chunks : list (list byte)) (k : nat) :
  let data := BufferedAudioSource._buf src ++ concat chunks in
  let after := read_n k (push_all src chunks) in
  k * 3840 <= length data ->
  length (fst after) = k /\
  Forall (fun frame => length frame = 3840) (fst after) /\
  concat (fst after) = firstn (k * 3840) data /\
  BufferedAudioSource._buf (snd after) = skipn (k * 3840) data /\
  concat (fst after) ++ BufferedAudioSource._buf (snd after) = data.
Proof.
  cbv zeta. intros Hlen. rewrite <- push_all_buf in *.
  rewrite (read_n_windows k _ Hlen). cbn [fst snd BufferedAudioSource._buf].
  rewrite windows_length, (concat_windows 3840 k _ Hlen).
  repeat split; try reflexivity.
  - apply windows_full. exact Hlen.
  - apply firstn_skipn.
Qed.

(** An instance of X1: a frame and a half pushed as three uneven chunks. *)
Lemma jitter_buffer_fifo_witness :
  let chunks := [repeat x01 1000; repeat x02 2840; repeat x03 1920] in
  let after := read_n 1 (push_all BufferedAudioSource.init chunks) in
  concat (fst after) = repeat x01 1000 ++ repeat x02 2840 /\
  BufferedAudioSource._buf (snd after) = repeat x03 1920.
Proof.
  cbv zeta.
  destruct (jitter_buffer_fifo BufferedAudioSource.init
              [repeat x01 1000; repeat x02 2840; repeat x03 1920] 1)
    as (_ & _ & Hdata & Hrest & _).
  - apply Nat.leb_le. vm_compute. reflexivity.
  - rewrite Hdata, Hrest. split; apply bytes_eqb_eq; vm_compute; reflexivity.
Defined.

(** X2. Draining: with [m] whole frames buffered, [m + j] reads return
    those [m] frames followed by [j] frames of zero bytes; the remainder,
    shorter than a frame, is neither returned nor dropped. *)
Theorem jitter_buffer_drains (src : BufferedAudioSource.t) (j : nat) :
  let buf := BufferedAudioSource._buf src in
  let m := length buf / 3840 in
  let after := read_n (m + j) src in
  fst after = windows 3840 m buf ++ repeat (repeat x00 3840) j /\
  BufferedAudioSource._buf (snd after) = skipn (m * 3840) buf /\
  length (BufferedAudioSource._buf (snd after)) = length buf mod 3840 /\
  length (BufferedAudioSource._buf (snd after)) < 3840.
Proof.
  cbv zeta.
  pose proof (Nat.div_mod_eq (length (BufferedAudioSource._buf src)) 3840) as Hdm.
  pose proof (Nat.mod_upper_bound (length (BufferedAudioSource._buf src)) 3840
                ltac:(lia)) as Hub.
  set (m := length (BufferedAudioSource._buf src) / 3840) in *.
  rewrite read_n_app, (read_n_windows m src) by lia. cbn [fst snd].
  rewrite read_n_underrun
    by (cbn [BufferedAudioSource._buf]; rewrite length_skipn; lia).
  cbn [fst snd BufferedAudioSource._buf]. rewrite length_skipn.
  repeat split; try reflexivity; lia.
Qed.

(** ** The accumulator, whatever the transform does *)

Lemma window_size_frames : window_size = 10 * 3840.
Proof. reflexivity. Qed.

Lemma chunk_leb (buf : list byte) :
  (VoiceChangerSink._chunk_bytes <=? Z.of_nat (length buf))%Z =
  (window_size <=? length buf).
Proof.
  unfold window_size.
  destruct (Z.leb_spec VoiceChangerSink._chunk_bytes (Z.of_nat (length buf)));
    destruct (Nat.leb_spec (Z.to_nat VoiceChangerSink._chunk_bytes) (length buf));
    try reflexivity; rewrite chunk_bytes_eq in *; lia.
Qed.

(** The length of what [process] returns on whole stereo frames. *)
Lemma process_length (L : Libs Q) (self : VoiceChanger.t) (x y : list byte) :
  library_contract L ->
  length x mod 4 = 0 ->
  VoiceChanger.process L self x = Ok y ->
  length y = length x.
Proof.
  intros Hlib Hmod Hy.
  destruct (frombuffer_frames x Hmod) as (ints & Hints & Heven & Hlen).
  destruct (py_eq (VoiceChanger.semitones self) (PyFloat 0%float)) eqn:Hz.
  - rewrite (process_zero L self x Hz) in Hy. now injection Hy as <-.
  - rewrite (process_frames L self x ints Hz Hints Heven) in Hy.
    destruct (_pitch_shift L _ _) as [shifted | e] eqn:Hs; [| discriminate].
    rewrite bind_ok in Hy. injection Hy as <-.
    apply (_pitch_shift_length L _ _ _ Hlib) in Hs.
    rewrite encoded_length, length_map, Hs, length_map. lia.
Qed.

(** What the loop of [write] keeps true of the jitter buffer, the speaker
    buffer and its outcome, by induction on the buffer length. *)
Lemma dispatch_ind (L : Libs Q) (ch : VoiceChanger.t)
  (P : list byte -> BufferedAudioSource.t ->
       list byte * BufferedAudioSource.t * result unit -> Prop) :
  (forall buf src, length buf < window_size -> P buf src (buf, src, Ok tt)) ->
  (forall buf src e,
     window_size <= length buf ->
     VoiceChanger.process L ch (firstn window_size buf) = Raise e ->
     P buf src (skipn window_size buf, src, Raise e)) ->
  (forall buf src processed r,
     window_size <= length buf ->
     VoiceChanger.process L ch (firstn window_size buf) = Ok processed ->
     P (skipn window_size buf) (BufferedAudioSource.push src processed) r ->
     P buf src r) ->
  forall buf src, P buf src (VoiceChangerSink.dispatch L ch buf src).
Proof.
  intros Hstop Hraise Hloop buf.
  remember (length buf) as n eqn:Hn. revert buf Hn.
  induction n as [n IH] using lt_wf_ind. intros buf Hn src.
  pose proof window_size_pos as Hpos.
  rewrite dispatch_unfold, chunk_leb. fold window_size.
  destruct (Nat.leb_spec window_size (length buf)) as [Hle | Hlt].
  - destruct (VoiceChanger.process L ch (firstn window_size buf))
      as [processed | e] eqn:Hp.
    + apply (Hloop buf src processed _ Hle Hp).
      apply (IH (length (skipn window_size buf))); [| reflexivity].
      rewrite length_skipn. lia.
    + apply (Hraise buf src e Hle Hp).
  - apply (Hstop buf src Hlt).
Qed.

Lemma write_unfold (L : Libs Q) (self : VoiceChangerSink.t) (data : list byte)
  (user : Z) :
  let buf := default [] (VoiceChangerSink._user_bufs self !! user) ++ data in
  let d := VoiceChangerSink.dispatch L (VoiceChangerSink.changer self) buf
             (VoiceChangerSink.audio_source self) in
  VoiceChangerSink.write L self data user =
    match snd d with
    | Ok _ =>
        (VoiceChangerSink.mk (VoiceChangerSink.changer self)
           (fst (VoiceChangerSink.start_playback (VoiceChangerSink.vc self)))
           (snd (fst d))
           (<[user := fst (fst d)]> (VoiceChangerSink._user_bufs self)),
         snd (VoiceChangerSink.start_playback (VoiceChangerSink.vc self)),
         Ok tt)
    | Raise e =>
        (VoiceChangerSink.mk (VoiceChangerSink.changer self)
           (VoiceChangerSink.vc self) (snd (fst d))
           (<[user := fst (fst d)]> (VoiceChangerSink._user_bufs self)),
         [], Raise e)
    end.
Proof.
  cbv zeta. unfold VoiceChangerSink.write.
  destruct (VoiceChangerSink.dispatch L _ _ _) as [[buf' src'] [[] | e]];
    cbn [fst snd]; [| reflexivity].
  destruct (VoiceChangerSink.start_playback _). reflexivity.
Qed.

(** X3. Speakers are independent, and so are sessions of the mode: a
    [write] for one speaker leaves every other speaker's buffer, the
    [VoiceChanger] and, when the transform raised, the voice client as they
    were; the writing speaker has a buffer afterwards. This holds however
    the call ends. *)
Theorem write_touches_one_speaker (L : Libs Q) (self : VoiceChangerSink.t)
  (data : list byte) (user other : Z) :
  other <> user ->
  let after := VoiceChangerSink.write L self data user in
  VoiceChangerSink._user_bufs (fst (fst after)) !! other =
    VoiceChangerSink._user_bufs self !! other /\
  is_Some (VoiceChangerSink._user_bufs (fst (fst after)) !! user) /\
  VoiceChangerSink.changer (fst (fst after)) = VoiceChangerSink.changer self /\
  (forall e, snd after = Raise e ->
     VoiceChangerSink.vc (fst (fst after)) = VoiceChangerSink.vc self /\
     snd (fst after) = []).
Proof.
  intros Hne. cbv zeta. pose proof (write_unfold L self data user) as Hw.
  cbv zeta in Hw. rewrite Hw.
  destruct (snd (VoiceChangerSink.dispatch L _ _ _)) as [[] | e];
    cbn [fst snd VoiceChangerSink._user_bufs VoiceChangerSink.changer
         VoiceChangerSink.vc];
    rewrite lookup_insert_ne by congruence; rewrite lookup_insert_eq;
    (split; [reflexivity | split; [eexists; reflexivity | split; [reflexivity |]]]).
  - intros e' [=].
  - intros e' _. split; reflexivity.
Qed.

(** An instance of X3: speaker 8 has half a frame buffered while speaker 7
    sends a frame. *)
Lemma write_touches_one_speaker_witness :
  let sink :=
    VoiceChangerSink.mk VoiceChanger.init idle_client BufferedAudioSource.init
      (<[8%Z := repeat x05 1920]> ∅) in
  let after := VoiceChangerSink.write (passthrough_libs Q) sink (repeat x01 3840) 7 in
  VoiceChangerSink._user_bufs (fst (fst after)) !! 8%Z = Some (repeat x05 1920) /\
  is_Some (VoiceChangerSink._user_bufs (fst (fst after)) !! 7%Z).
Proof.
  cbv zeta.
  destruct (write_touches_one_speaker (passthrough_libs Q)
              (VoiceChangerSink.mk VoiceChanger.init idle_client
                 BufferedAudioSource.init (<[8%Z := repeat x05 1920]> ∅))
              (repeat x01 3840) 7 8 ltac:(discriminate))
    as (Hother & Huser & _).
  split; [rewrite Hother; reflexivity | exact Huser].
Defined.

(** X4. After a [write] that returns, the speaker's buffer holds less than
    one window (38400 bytes), whatever it held before and whatever the
    transform returned. *)
Theorem write_leaves_less_than_a_window (L : Libs Q)
  (self : VoiceChangerSink.t) (data : list byte) (user : Z) :
  let after := VoiceChangerSink.write L self data user in
  snd after = Ok tt ->
  exists rest,
    VoiceChangerSink._user_bufs (fst (fst after)) !! user = Some rest /\
    length rest < 10 * 3840.
Proof.
  cbv zeta. pose proof (write_unfold L self data user) as Hw.
  cbv zeta in Hw. rewrite Hw. clear Hw.
  generalize (default [] (VoiceChangerSink._user_bufs self !! user) ++ data).
  generalize (VoiceChangerSink.audio_source self).
  intros src buf.
  pattern buf, src, (VoiceChangerSink.dispatch L (VoiceChangerSink.changer self) buf src).
  apply dispatch_ind; clear buf src.
  - intros buf src Hlt _. cbn [fst snd VoiceChangerSink._user_bufs].
    exists buf. rewrite lookup_insert_eq. rewrite <- window_size_frames.
    split; [reflexivity | exact Hlt].
  - intros buf src e _ _. cbn [fst snd]. discriminate.
  - intros buf src processed r _ _ IH. exact IH.
Qed.

(** An instance of X4: twenty-five frames for a new speaker in mode "high"
    leave five frames buffered. *)
Lemma write_leaves_less_than_a_window_witness :
  let sink := VoiceChangerSink.init (VoiceChanger.set_high VoiceChanger.init) idle_client in
  let after :=
    VoiceChangerSink.write (passthrough_libs Q) sink
      (repeat x00 (2 * window_size + 5 * 3840)) 7 in
  exists rest,
    VoiceChangerSink._user_bufs (fst (fst after)) !! 7%Z = Some rest /\
    length rest < 10 * 3840.
Proof.
  cbv zeta.
  apply (write_leaves_less_than_a_window (passthrough_libs Q)
           (VoiceChangerSink.init (VoiceChanger.set_high VoiceChanger.init) idle_client)
           (repeat x00 (2 * window_size + 5 * 3840)) 7).
  vm_compute. reflexivity.
Defined.

(** X5. In pass-through mode (shift 0) the accumulator and the jitter
    buffer together are a plain byte pipe: [write] returns, and the jitter
    buffer followed by the speaker's buffer is, after the call, what it was
    before followed by the incoming data; no byte is lost, repeated or
    reordered, and libraries are never consulted. *)
Theorem passthrough_write_conserves_bytes (L : Libs Q)
  (self : VoiceChangerSink.t) (data : list byte) (user : Z) :
  py_eq (VoiceChanger.semitones (VoiceChangerSink.changer self))
        (PyFloat 0%float) = true ->
  let before := default [] (VoiceChangerSink._user_bufs self !! user) in
  let after := VoiceChangerSink.write L self data user in
  snd after = Ok tt /\
  exists rest,
    VoiceChangerSink._user_bufs (fst (fst after)) !! user = Some rest /\
    BufferedAudioSource._buf (VoiceChangerSink.audio_source (fst (fst after))) ++ rest =
      BufferedAudioSource._buf (VoiceChangerSink.audio_source self) ++ before ++ data.
Proof.
  intros Hz. cbv zeta. pose proof (write_unfold L self data user) as Hw.
  cbv zeta in Hw. rewrite Hw. clear Hw.
  generalize (default [] (VoiceChangerSink._user_bufs self !! user) ++ data).
  generalize (VoiceChangerSink.audio_source self).
  intros src buf.
  pattern buf, src, (VoiceChangerSink.dispatch L (VoiceChangerSink.changer self) buf src).
  apply dispatch_ind; clear buf src.
  - intros buf src _. cbn [fst snd VoiceChangerSink._user_bufs
                           VoiceChangerSink.audio_source].
    split; [reflexivity |]. exists buf. now rewrite lookup_insert_eq.
  - intros buf src e _ Hp. rewrite process_zero in Hp by exact Hz. discriminate.
  - intros buf src processed r _ Hp IH.
    rewrite process_zero in Hp by exact Hz. injection Hp as <-.
    destruct IH as (Hok & rest & Hrest & Hcat). split; [exact Hok |].
    exists rest. split; [exact Hrest |]. rewrite Hcat.
    cbn [BufferedAudioSource.push BufferedAudioSource._buf].
    now rewrite <- app_assoc, firstn_skipn.
Qed.

(** An instance of X5: twelve frames into a fresh sink in mode "normal". *)
Lemma passthrough_write_conserves_bytes_witness :
  let sink := VoiceChangerSink.init VoiceChanger.init idle_client in
  let data := repeat x01 window_size ++ repeat x02 (2 * 3840) in
  let after := VoiceChangerSink.write (broken_rubberband Q) sink data 7 in
  snd after = Ok tt /\
  exists rest,
    VoiceChangerSink._user_bufs (fst (fst after)) !! 7%Z = Some rest /\
    BufferedAudioSource._buf (VoiceChangerSink.audio_source (fst (fst after))) ++ rest =
      [] ++ [] ++ data.
Proof.
  cbv zeta.
  apply (passthrough_write_conserves_bytes (broken_rubberband Q)
           (VoiceChangerSink.init VoiceChanger.init idle_client)
           (repeat x01 window_size ++ repeat x02 (2 * 3840)) 7).
  reflexivity.
Defined.

(** A write in pass-through mode returns, and its voice client and prints
    are those of the playback start. *)
Lemma passthrough_write_returns (L : Libs Q)
  (self : VoiceChangerSink.t) (data : list byte) (user : Z) :
  py_eq (VoiceChanger.semitones (VoiceChangerSink.changer self))
        (PyFloat 0%float) = true ->
  let after := VoiceChangerSink.write L self data user in
  snd after = Ok tt /\
  VoiceChangerSink.changer (fst (fst after)) = VoiceChangerSink.changer self /\
  VoiceChangerSink.vc (fst (fst after)) =
    fst (VoiceChangerSink.start_playback (VoiceChangerSink.vc self)) /\
  snd (fst after) = snd (VoiceChangerSink.start_playback (VoiceChangerSink.vc self)).
Proof.
  intros Hz. cbv zeta. pose proof (write_unfold L self data user) as Hw.
  cbv zeta in Hw. rewrite Hw. clear Hw.
  assert (Hok : snd (VoiceChangerSink.dispatch L (VoiceChangerSink.changer self)
                       (default [] (VoiceChangerSink._user_bufs self !! user) ++ data)
                       (VoiceChangerSink.audio_source self)) = Ok tt).
  { generalize (default [] (VoiceChangerSink._user_bufs self !! user) ++ data).
    generalize (VoiceChangerSink.audio_source self). intros src buf.
    pattern buf, src,
      (VoiceChangerSink.dispatch L (VoiceChangerSink.changer self) buf src).
    apply dispatch_ind; clear buf src.
    - reflexivity.
    - intros buf src e _ Hp. rewrite process_zero in Hp by exact Hz. discriminate.
    - intros buf src processed r _ _ IH. exact IH. }
  rewrite Hok. repeat split; reflexivity.
Qed.

(** X6. Playback start across two calls, in pass-through mode: when [play]
    raises, both writes return, each prints the exception, and the client is
    still not playing, so every later write tries again; when [play]
    succeeds, the first write starts playback and the second one neither
    calls [play] nor prints. *)
Theorem playback_start_is_retried_until_it_succeeds (L : Libs Q)
  (self : VoiceChangerSink.t) (data1 data2 : list byte) (user1 user2 : Z) :
  py_eq (VoiceChanger.semitones (VoiceChangerSink.changer self))
        (PyFloat 0%float) = true ->
  is_playing (VoiceChangerSink.vc self) = false ->
  let first := VoiceChangerSink.write L self data1 user1 in
  let second := VoiceChangerSink.write L (fst (fst first)) data2 user2 in
  snd first = Ok tt /\ snd second = Ok tt /\
  match play_result (VoiceChangerSink.vc self) with
  | Raise exc =>
      snd (fst first) = [exc] /\ snd (fst second) = [exc] /\
      VoiceChangerSink.vc (fst (fst second)) = VoiceChangerSink.vc self
  | Ok _ =>
      snd (fst first) = [] /\ snd (fst second) = [] /\
      is_playing (VoiceChangerSink.vc (fst (fst first))) = true /\
      VoiceChangerSink.vc (fst (fst second)) = VoiceChangerSink.vc (fst (fst first))
  end.
Proof.
  intros Hz Hidle. cbv zeta.
  destruct (passthrough_write_returns L self data1 user1 Hz)
    as (H1 & Hch1 & Hvc1 & Hpr1).
  assert (Hz2 : py_eq (VoiceChanger.semitones
                         (VoiceChangerSink.changer
                            (fst (fst (VoiceChangerSink.write L self data1 user1)))))
                      (PyFloat 0%float) = true) by (rewrite Hch1; exact Hz).
  destruct (passthrough_write_returns L _ data2 user2 Hz2)
    as (H2 & _ & Hvc2 & Hpr2).
  split; [exact H1 | split; [exact H2 |]].
  rewrite Hpr1, Hpr2, Hvc2, Hvc1. unfold VoiceChangerSink.start_playback.
  rewrite Hidle. cbn [negb].
  destruct (VoiceChangerSink.vc self) as [playing [[] | exc]];
    cbn [play_result is_playing fst snd negb] in *; subst playing;
    cbn [play_result is_playing fst snd negb]; repeat split; reflexivity.
Qed.

(** An instance of X6: a client whose [play] raises. *)
Lemma playback_start_is_retried_until_it_succeeds_witness :
  let sink :=
    VoiceChangerSink.init VoiceChanger.init
      {| is_playing := false; play_result := Raise RuntimeError |} in
  let first := VoiceChangerSink.write (passthrough_libs Q) sink [x01; x02] 7 in
  let second :=
    VoiceChangerSink.write (passthrough_libs Q) (fst (fst first)) [x03; x04] 8 in
  snd first = Ok tt /\ snd second = Ok tt /\
  snd (fst first) = [RuntimeError] /\ snd (fst second) = [RuntimeError] /\
  is_playing (VoiceChangerSink.vc (fst (fst second))) = false.
Proof.
  cbv zeta.
  destruct (playback_start_is_retried_until_it_succeeds (passthrough_libs Q)
              (VoiceChangerSink.init VoiceChanger.init
                 {| is_playing := false; play_result := Raise RuntimeError |})
              [x01; x02] [x03; x04] 7 8 eq_refl eq_refl)
    as (H1 & H2 & Hp1 & Hp2 & Hvc).
  rewrite Hvc. repeat split; assumption.
Defined.

Lemma dispatch_raises_at (L : Libs Q) (ch : VoiceChanger.t) (e : exn) (j : nat) :
  forall (buf : list byte) (src : BufferedAudioSource.t) (outs : list (list byte)),
    (j + 1) * window_size <= length buf ->
    Forall2 (fun w out => VoiceChanger.process L ch w = Ok out)
            (windows window_size j buf) outs ->
    VoiceChanger.process L ch
      (firstn window_size (skipn (j * window_size) buf)) = Raise e ->
    VoiceChangerSink.dispatch L ch buf src =
      (skipn ((j + 1) * window_size) buf,
       BufferedAudioSource.mk (BufferedAudioSource._buf src ++ concat outs),
       Raise e).
Proof.
  pose proof window_size_pos as HW.
  induction j as [| j IH]; intros buf src outs Hlen Hall Hfail.
  - inversion Hall; subst. rewrite dispatch_unfold, chunk_leb.
    destruct (Nat.leb_spec window_size (length buf)); [| lia].
    fold window_size. rewrite Nat.mul_0_l, skipn_O in Hfail. rewrite Hfail.
    destruct src as [b]. cbn [BufferedAudioSource._buf concat].
    rewrite app_nil_r. do 3 f_equal; lia.
  - cbn [windows] in Hall. inversion Hall as [| w out ws outs' Hout Hrest]; subst.
    rewrite dispatch_unfold, chunk_leb.
    destruct (Nat.leb_spec window_size (length buf)); [| lia].
    fold window_size. rewrite Hout.
    rewrite (IH (skipn window_size buf) (BufferedAudioSource.push src out) outs').
    + rewrite skipn_skipn.
      cbn [BufferedAudioSource.push BufferedAudioSource._buf concat].
      rewrite <- app_assoc. do 3 f_equal; lia.
    + rewrite length_skipn. lia.
    + exact Hrest.
    + rewrite skipn_skipn.
      replace (j * window_size + window_size) with (S j * window_size) by lia.
      exact Hfail.
Qed.

(** X7. When the transform raises on window number [j + 1] of the speaker
    buffer, [write] raises the same exception without printing; the [j]
    windows before it are in the jitter buffer, the failing window is in
    neither buffer any more (its 38400 bytes are lost), and playback start
    is not attempted. *)
Theorem write_failure_drops_the_window (L : Libs Q)
  (self : VoiceChangerSink.t) (data : list byte) (user : Z) (j : nat)
  (outs : list (list byte)) (e : exn) :
  let buf := default [] (VoiceChangerSink._user_bufs self !! user) ++ data in
  let after := VoiceChangerSink.write L self data user in
  (j + 1) * window_size <= length buf ->
  Forall2 (fun w out =>
             VoiceChanger.process L (VoiceChangerSink.changer self) w = Ok out)
          (windows window_size j buf) outs ->
  VoiceChanger.process L (VoiceChangerSink.changer self)
    (firstn window_size (skipn (j * window_size) buf)) = Raise e ->
  snd after = Raise e /\
  snd (fst after) = [] /\
  VoiceChangerSink.vc (fst (fst after)) = VoiceChangerSink.vc self /\
  BufferedAudioSource._buf (VoiceChangerSink.audio_source (fst (fst after))) =
    BufferedAudioSource._buf (VoiceChangerSink.audio_source self) ++ concat outs /\
  VoiceChangerSink._user_bufs (fst (fst after)) !! user =
    Some (skipn ((j + 1) * window_size) buf).
Proof.
  cbv zeta. intros Hlen Hall Hfail.
  pose proof (write_unfold L self data user) as Hw. cbv zeta in Hw. rewrite Hw.
  rewrite (dispatch_raises_at L _ e j _ _ outs Hlen Hall Hfail).
  cbn [fst snd VoiceChangerSink.vc VoiceChangerSink.audio_source
       VoiceChangerSink._user_bufs BufferedAudioSource._buf].
  rewrite lookup_insert_eq. repeat split; reflexivity.
Qed.

(** An instance of X7: the first window is silence and goes through, the
    second one makes the backend raise; one more frame follows. *)
Lemma write_failure_drops_the_window_witness :
  let sink := VoiceChangerSink.init (VoiceChanger.set_high VoiceChanger.init) idle_client in
  let data :=
    repeat x00 window_size ++ repeat x01 window_size ++ repeat x02 3840 in
  let after := VoiceChangerSink.write flaky_rubberband sink data 7 in
  snd after = Raise RuntimeError /\
  BufferedAudioSource._buf (VoiceChangerSink.audio_source (fst (fst after))) =
    repeat x00 window_size /\
  VoiceChangerSink._user_bufs (fst (fst after)) !! 7%Z = Some (repeat x02 3840).
Proof.
  cbv zeta.
  destruct (write_failure_drops_the_window flaky_rubberband
              (VoiceChangerSink.init (VoiceChanger.set_high VoiceChanger.init)
                 idle_client)
              (repeat x00 window_size ++ repeat x01 window_size ++ repeat x02 3840)
              7 1 [repeat x00 window_size] RuntimeError)
    as (Hout & _ & _ & Hsrc & Hbuf).
  - apply Nat.leb_le. vm_compute. reflexivity.
  - cbn [windows]. constructor; [| constructor].
    apply returns_ok. vm_compute. reflexivity.
  - vm_compute. reflexivity.
  - rewrite Hout, Hsrc, Hbuf. split; [reflexivity |]. split.
    + apply app_nil_r.
    + f_equal; apply bytes_eqb_eq; vm_compute; reflexivity.
Defined.

(** ** The accumulator when the transform raises *)

(** C4, on the code. A new speaker's data of two whole windows (K = 2,
    r = 0) in mode "high", with a pyrubberband whose calls fail: [write]
    raises the backend's exception, no window reaches the jitter buffer, and
    the speaker buffer keeps 38400 bytes, where two windows were to be
    dispatched and none kept. The first window was removed and is lost. *)
Theorem ingest_stops_at_failing_window :
  let self := VoiceChanger.set_high VoiceChanger.init in
  let sink := VoiceChangerSink.init self idle_client in
  let data := repeat x00 (2 * window_size) in
  let after := VoiceChangerSink.write (broken_rubberband Q) sink data 7 in
  length data = 2 * window_size + 0 /\
  snd after = Raise RuntimeError /\
  BufferedAudioSource._buf (VoiceChangerSink.audio_source (fst (fst after))) = [] /\
  VoiceChangerSink._user_bufs (fst (fst after)) !! 7%Z =
    Some (repeat x00 window_size) /\
  length (repeat x00 window_size) = 10 * 3840.
Proof.
  cbv zeta.
  pose proof (write_unfold (broken_rubberband Q)
                (VoiceChangerSink.init (VoiceChanger.set_high VoiceChanger.init)
                   idle_client)
                (repeat x00 (2 * window_size)) 7) as Hw.
  cbv zeta in Hw.
  change (default [] (VoiceChangerSink._user_bufs
                        (VoiceChangerSink.init
                           (VoiceChanger.set_high VoiceChanger.init) idle_client)
                      !! 7%Z) ++ repeat x00 (2 * window_size))
    with (repeat x00 (2 * window_size)) in Hw.
  rewrite (dispatch_raises_at (broken_rubberband Q) _ RuntimeError 0
             (repeat x00 (2 * window_size)) _ []) in Hw.
  - cbn [fst snd] in Hw. rewrite Hw.
    cbn [fst snd VoiceChangerSink.audio_source VoiceChangerSink._user_bufs
         VoiceChangerSink.init BufferedAudioSource._buf BufferedAudioSource.init
         concat app].
    rewrite lookup_insert_eq.
    split; [apply Nat.eqb_eq; vm_compute; reflexivity |].
    split; [reflexivity |]. split; [reflexivity |].
    split; [| apply Nat.eqb_eq; vm_compute; reflexivity].
    f_equal; apply bytes_eqb_eq; vm_compute; reflexivity.
  - apply Nat.leb_le. vm_compute. reflexivity.
  - constructor.
  - vm_compute. reflexivity.
Qed.

(** ** The jitter buffer stays frame-aligned *)

Lemma aligned_add_window (n : nat) :
  n mod 3840 = 0 -> (n + window_size) mod 3840 = 0.
Proof.
  intros Hn. rewrite window_size_frames, Nat.Div0.mod_add. exact Hn.
Qed.

Lemma window_mod4 : window_size mod 4 = 0.
Proof. reflexivity. Qed.

(** X8. Given the libraries' contract, a jitter buffer that holds whole
    frames (a multiple of 3840 bytes, as the empty one does) still holds
    whole frames after any [write], however the call ends, and after any
    [read]; a read on it returns buffered data whenever there is any. So no
    partial frame is ever stranded in the jitter buffer. *)
Theorem jitter_buffer_stays_frame_aligned (L : Libs Q)
  (self : VoiceChangerSink.t) (data : list byte) (user : Z) :
  library_contract L ->
  length (BufferedAudioSource._buf (VoiceChangerSink.audio_source self)) mod 3840 = 0 ->
  let src' :=
    VoiceChangerSink.audio_source (fst (fst (VoiceChangerSink.write L self data user))) in
  let r := BufferedAudioSource.read src' in
  length (BufferedAudioSource._buf src') mod 3840 = 0 /\
  length (BufferedAudioSource._buf (snd r)) mod 3840 = 0 /\
  (BufferedAudioSource._buf src' <> [] ->
   BufferedAudioSource._buf src' = fst r ++ BufferedAudioSource._buf (snd r)).
Proof.
  intros Hlib Hal. cbv zeta.
  assert (Hsrc : length (BufferedAudioSource._buf
                   (VoiceChangerSink.audio_source
                      (fst (fst (VoiceChangerSink.write L self data user))))) mod 3840 = 0).
  { pose proof (write_unfold L self data user) as Hw. cbv zeta in Hw. rewrite Hw.
    clear Hw.
    assert (Hd : length (BufferedAudioSource._buf (snd (fst
                   (VoiceChangerSink.dispatch L (VoiceChangerSink.changer self)
                      (default [] (VoiceChangerSink._user_bufs self !! user) ++ data)
                      (VoiceChangerSink.audio_source self))))) mod 3840 = 0).
    { revert Hal.
      generalize (default [] (VoiceChangerSink._user_bufs self !! user) ++ data).
      generalize (VoiceChangerSink.audio_source self). intros src buf.
      pattern buf, src,
        (VoiceChangerSink.dispatch L (VoiceChangerSink.changer self) buf src).
      apply dispatch_ind; clear buf src.
      - intros buf src _ Hal. exact Hal.
      - intros buf src e _ _ Hal. exact Hal.
      - intros buf src processed r Hle Hp IH Hal. apply IH.
        apply (process_length L _ _ _ Hlib) in Hp.
        + cbn [BufferedAudioSource.push BufferedAudioSource._buf].
          rewrite length_app, Hp, length_firstn, Nat.min_l by exact Hle.
          apply aligned_add_window. exact Hal.
        + rewrite length_firstn, Nat.min_l by exact Hle. apply window_mod4. }
    destruct (snd (VoiceChangerSink.dispatch L _ _ _)) as [[] | e];
      cbn [fst VoiceChangerSink.audio_source]; exact Hd. }
  set (src' := VoiceChangerSink.audio_source
                 (fst (fst (VoiceChangerSink.write L self data user)))) in *.
  split; [exact Hsrc |].
  destruct (Nat.le_gt_cases 3840 (length (BufferedAudioSource._buf src'))) as [Hle | Hlt].
  - rewrite (read_enough src' Hle). cbn [fst snd BufferedAudioSource._buf].
    split.
    + rewrite length_skipn.
      pose proof (Nat.div_mod_eq (length (BufferedAudioSource._buf src')) 3840) as Hdm.
      rewrite Hsrc, Nat.add_0_r in Hdm. rewrite Hdm at 1.
      replace (3840 * (length (BufferedAudioSource._buf src') / 3840) - 3840)
        with (0 + (length (BufferedAudioSource._buf src') / 3840 - 1) * 3840) by lia.
      apply Nat.Div0.mod_add.
    + intros _. symmetry. apply firstn_skipn.
  - rewrite (read_underrun src' Hlt). cbn [fst snd]. split; [exact Hsrc |].
    intros Hne. exfalso. apply Hne.
    pose proof (Nat.div_mod_eq (length (BufferedAudioSource._buf src')) 3840) as Hdm.
    rewrite Hsrc, Nat.add_0_r in Hdm.
    assert (length (BufferedAudioSource._buf src') / 3840 = 0) by lia.
    destruct (BufferedAudioSource._buf src'); [reflexivity | cbn [length] in *; lia].
Qed.

(** An instance of X8: eleven frames through the resampling fallback into an
    empty jitter buffer. *)
Lemma jitter_buffer_stays_frame_aligned_witness :
  let sink := VoiceChangerSink.init (VoiceChanger.set_high VoiceChanger.init) idle_client in
  let src' :=
    VoiceChangerSink.audio_source
      (fst (fst (VoiceChangerSink.write scipy_octave_up sink
                   (repeat x00 (window_size + 3840)) 7))) in
  length (BufferedAudioSource._buf src') mod 3840 = 0 /\
  length (BufferedAudioSource._buf (snd (BufferedAudioSource.read src'))) mod 3840 = 0.
Proof.
  cbv zeta.
  destruct (jitter_buffer_stays_frame_aligned scipy_octave_up
              (VoiceChangerSink.init (VoiceChanger.set_high VoiceChanger.init)
                 idle_client)
              (repeat x00 (window_size + 3840)) 7
              scipy_octave_up_contract eq_refl)
    as (H1 & H2 & _).
  split; assumption.
Defined.

(** ** How the incoming data is cut into calls does not matter *)

Lemma dispatch_app (L : Libs Q) (ch : VoiceChanger.t) (more : list byte) :
  forall buf src,
    snd (VoiceChangerSink.dispatch L ch buf src) = Ok tt ->
    VoiceChangerSink.dispatch L ch (buf ++ more) src =
    VoiceChangerSink.dispatch L ch
      (fst (fst (VoiceChangerSink.dispatch L ch buf src)) ++ more)
      (snd (fst (VoiceChangerSink.dispatch L ch buf src))).
Proof.
  intros buf src.
  assert (H : forall r, r = VoiceChangerSink.dispatch L ch buf src ->
                snd r = Ok tt ->
                VoiceChangerSink.dispatch L ch (buf ++ more) src =
                VoiceChangerSink.dispatch L ch (fst (fst r) ++ more) (snd (fst r)));
    [| intros Hok; apply (H _ eq_refl Hok)].
  pattern buf, src, (VoiceChangerSink.dispatch L ch buf src).
  apply dispatch_ind; clear buf src.
  - intros buf src _ r -> _. reflexivity.
  - intros buf src e _ _ r -> [=].
  - intros buf src processed r0 Hle Hp IH r Hr Hok.
    rewrite (dispatch_unfold L ch (buf ++ more)), chunk_leb.
    destruct (Nat.leb_spec window_size (length (buf ++ more))) as [_ | Hlt];
      [| rewrite length_app in Hlt; lia].
    fold window_size.
    rewrite firstn_app, skipn_app.
    replace (window_size - length buf) with 0 by lia.
    cbn [firstn skipn]. rewrite app_nil_r, Hp.
    apply (IH r Hr Hok).
Qed.

(** X9. A speaker's data may arrive in any split: when a [write] of
    [data1] returns, a following [write] of [data2] for the same speaker
    leaves the jitter buffer and the speaker buffers, and ends, exactly as
    one [write] of [data1 ++ data2] on the original sink would. *)
Theorem write_split_is_write_whole (L : Libs Q) (self : VoiceChangerSink.t)
  (data1 data2 : list byte) (user : Z) :
  let first := VoiceChangerSink.write L self data1 user in
  let second := VoiceChangerSink.write L (fst (fst first)) data2 user in
  let whole := VoiceChangerSink.write L self (data1 ++ data2) user in
  snd first = Ok tt ->
  VoiceChangerSink.audio_source (fst (fst second)) =
    VoiceChangerSink.audio_source (fst (fst whole)) /\
  VoiceChangerSink._user_bufs (fst (fst second)) =
    VoiceChangerSink._user_bufs (fst (fst whole)) /\
  snd second = snd whole.
Proof.
  cbv zeta. intros Hfirst.
  pose proof (write_unfold L self data1 user) as H1. cbv zeta in H1.
  pose proof (write_unfold L self (data1 ++ data2) user) as Hw. cbv zeta in Hw.
  set (old := default [] (VoiceChangerSink._user_bufs self !! user)) in *.
  set (d1 := VoiceChangerSink.dispatch L (VoiceChangerSink.changer self)
               (old ++ data1) (VoiceChangerSink.audio_source self)) in *.
  assert (Hd1 : snd d1 = Ok tt).
  { rewrite H1 in Hfirst. destruct (snd d1) as [[] | e]; [reflexivity | discriminate]. }
  rewrite Hd1 in H1.
  pose proof (write_unfold L (fst (fst (VoiceChangerSink.write L self data1 user)))
                data2 user) as H2.
  cbv zeta in H2. rewrite H2, Hw. clear H2 Hw. rewrite H1.
  cbn [fst snd VoiceChangerSink._user_bufs VoiceChangerSink.changer
       VoiceChangerSink.audio_source VoiceChangerSink.vc].
  rewrite lookup_insert_eq.
  change (default [] (Some (fst (fst d1)))) with (fst (fst d1)).
  rewrite app_assoc. fold old.
  rewrite (dispatch_app L _ data2 (old ++ data1) _ Hd1). fold d1.
  destruct (snd (VoiceChangerSink.dispatch L _ (fst (fst d1) ++ data2) (snd (fst d1))))
    as [[] | e];
    cbn [fst snd VoiceChangerSink._user_bufs VoiceChangerSink.audio_source];
    rewrite insert_insert_eq; repeat split; reflexivity.
Qed.

(** An instance of X9: fifteen frames sent as seven and eight. *)
Lemma write_split_is_write_whole_witness :
  let sink := VoiceChangerSink.init (VoiceChanger.set_low VoiceChanger.init) idle_client in
  let L := passthrough_libs Q in
  let first := VoiceChangerSink.write L sink (repeat x00 (7 * 3840)) 7 in
  let second := VoiceChangerSink.write L (fst (fst first)) (repeat x00 (8 * 3840)) 7 in
  let whole :=
    VoiceChangerSink.write L sink (repeat x00 (7 * 3840) ++ repeat x00 (8 * 3840)) 7 in
  VoiceChangerSink.audio_source (fst (fst second)) =
    VoiceChangerSink.audio_source (fst (fst whole)) /\
  VoiceChangerSink._user_bufs (fst (fst second)) =
    VoiceChangerSink._user_bufs (fst (fst whole)) /\
  snd second = snd whole.
Proof.
  cbv zeta.
  apply (write_split_is_write_whole (passthrough_libs Q)
           (VoiceChangerSink.init (VoiceChanger.set_low VoiceChanger.init) idle_client)
           (repeat x00 (7 * 3840)) (repeat x00 (8 * 3840)) 7).
  vm_compute. reflexivity.
Defined.

(** ** The mode controller over runs of commands *)

Lemma run_ops_snoc (ops : list mode_op) (o : mode_op) :
  run_ops (ops ++ [o]) = apply_op (run_ops ops) o.
Proof. unfold run_ops. now rewrite fold_left_app. Qed.

(** What every state reached by the mode-set operations looks like. *)
Lemma run_ops_shape (ops : list mode_op) :
  let s := run_ops ops in
  VoiceChanger._custom_st s = 0%float /\
  (VoiceChanger.mode s = "normal" \/ VoiceChanger.mode s = "high" \/
   VoiceChanger.mode s = "low" \/
   (VoiceChanger.mode s = "gender" /\
    (VoiceChanger._gender_st s = 10%float \/
     VoiceChanger._gender_st s = (-10)%float))).
Proof.
  cbv zeta. induction ops as [| o ops IH] using rev_ind.
  - split; [reflexivity | now left].
  - rewrite run_ops_snoc. destruct IH as [Hc _].
    destruct o as [| | | []]; cbn [apply_op]; (split; [exact Hc |]); auto 10.
Qed.

(** X10. Whatever mode-set operations were run, the controller is in one
    of five situations: normal with shift 0, high with 6, low with -6, or
    gender with 10.0 or -10.0; mode "custom" is never reached and
    [_custom_st] stays 0.0. The shift depends on the last operation alone. *)
Theorem reachable_modes_and_shifts (ops : list mode_op) (o : mode_op) :
  let s := run_ops ops in
  In (VoiceChanger.mode s, VoiceChanger.semitones s)
     [("normal", PyInt 0); ("high", PyInt 6); ("low", PyInt (-6));
      ("gender", PyFloat 10%float); ("gender", PyFloat (-10)%float)] /\
  VoiceChanger._custom_st s = 0%float /\
  VoiceChanger.semitones (run_ops (ops ++ [o])) =
    VoiceChanger.semitones (apply_op VoiceChanger.init o).
Proof.
  cbv zeta. destruct (run_ops_shape ops) as [Hc Hm]. cbv zeta in Hm.
  split; [| split; [exact Hc |]].
  - destruct (run_ops ops) as [m g c]. cbn [VoiceChanger.mode VoiceChanger._gender_st] in Hm.
    destruct Hm as [-> | [-> | [-> | [-> [-> | ->]]]]]; cbn; auto 10.
  - rewrite run_ops_snoc. destruct o as [| | | []]; reflexivity.
Qed.

(** X11. On every state reached by the mode-set operations the text of
    [description] names the shift that [semitones] returns, whatever the
    number formatting is. *)
Theorem description_names_the_shift (format_signed : float -> string)
  (ops : list mode_op) :
  let s := run_ops ops in
  In (description format_signed s, VoiceChanger.semitones s)
     [("ノーマル（変換なし）", PyInt 0);
      ("高い声 (+6 半音)", PyInt 6);
      ("低い声 (-6 半音)", PyInt (-6));
      ("異性の声 (男→女 (+10 半音))", PyFloat 10%float);
      ("異性の声 (女→男 (-10 半音))", PyFloat (-10)%float)].
Proof.
  cbv zeta. destruct (run_ops_shape ops) as [_ Hm]. cbv zeta in Hm.
  destruct (run_ops ops) as [m g c]. cbn [VoiceChanger.mode VoiceChanger._gender_st] in Hm.
  destruct Hm as [-> | [-> | [-> | [-> [-> | ->]]]]]; cbn; auto 10.
Qed.

(** ** Decoding and encoding around a backend that changes nothing *)

Lemma byte_of_Z_of_byte (b : byte) : byte_of_Z (Z.of_N (Byte.to_N b)) = b.
Proof.
  unfold byte_of_Z. pose proof (Byte.to_N_bounded b) as Hb.
  rewrite Z.mod_small by lia. rewrite N2Z.id, Byte.of_to_N. reflexivity.
Qed.

Lemma int16_of_le_range (lo hi : byte) :
  (-32768 <= int16_of_le lo hi <= 32767)%Z.
Proof.
  unfold int16_of_le. cbv zeta.
  pose proof (Byte.to_N_bounded lo). pose proof (Byte.to_N_bounded hi).
  destruct (Z.ltb_spec (Z.of_N (Byte.to_N lo) + 256 * Z.of_N (Byte.to_N hi)) 32768);
    lia.
Qed.

Lemma int16_to_of_le (lo hi : byte) : int16_to_le (int16_of_le lo hi) = [lo; hi].
Proof.
  pose proof (Byte.to_N_bounded lo) as Hlo. pose proof (Byte.to_N_bounded hi) as Hhi.
  assert (Hu : (int16_of_le lo hi mod 65536 =
                Z.of_N (Byte.to_N lo) + 256 * Z.of_N (Byte.to_N hi))%Z).
  { unfold int16_of_le. cbv zeta.
    destruct (Z.ltb_spec (Z.of_N (Byte.to_N lo) + 256 * Z.of_N (Byte.to_N hi)) 32768).
    - apply Z.mod_small. lia.
    - symmetry. apply (Z.mod_unique _ _ (-1)); lia. }
  unfold int16_to_le. cbv zeta. rewrite Hu.
  assert (Hq : ((Z.of_N (Byte.to_N lo) + 256 * Z.of_N (Byte.to_N hi)) / 256 =
                Z.of_N (Byte.to_N hi))%Z).
  { symmetry. apply (Z.div_unique _ _ _ (Z.of_N (Byte.to_N lo))); lia. }
  rewrite Hq, byte_of_Z_of_byte. f_equal.
  unfold byte_of_Z.
  replace ((Z.of_N (Byte.to_N lo) + 256 * Z.of_N (Byte.to_N hi)) mod 256)%Z
    with (Z.of_N (Byte.to_N lo)).
  - now rewrite N2Z.id, Byte.of_to_N.
  - apply (Z.mod_unique _ _ (Z.of_N (Byte.to_N hi))); lia.
Qed.

(** Decoding then encoding gives the bytes back, and decoded samples are
    16-bit. *)
Lemma tobytes_frombuffer (x : list byte) :
  forall ints,
    np_frombuffer_int16 x = Ok ints ->
    tobytes_int16 ints = x /\ Forall (fun z => (-32768 <= z <= 32767)%Z) ints.
Proof.
  remember (length x) as n eqn:Hn. revert x Hn.
  induction n as [n IH] using lt_wf_ind. intros x Hn ints Hx.
  destruct x as [| lo [| hi x]]; cbn [np_frombuffer_int16] in Hx.
  - injection Hx as <-. split; [reflexivity | constructor].
  - discriminate.
  - destruct (np_frombuffer_int16 x) as [rest |] eqn:Hr; [| discriminate].
    rewrite bind_ok in Hx. injection Hx as <-.
    destruct (IH (length x)) with (x := x) (ints := rest) as [Hb Hrange];
      [subst n; cbn [length]; lia | reflexivity | exact Hr |].
    split.
    + cbn [tobytes_int16 flat_map]. fold (tobytes_int16 rest).
      rewrite Hb, int16_to_of_le. reflexivity.
    + constructor; [apply int16_of_le_range | exact Hrange].
Qed.

Lemma quot_Qeq (n n' : Z) (d d' : positive) :
  (n * Z.pos d' = n' * Z.pos d)%Z ->
  Z.quot n (Z.pos d) = Z.quot n' (Z.pos d').
Proof.
  intros H.
  rewrite <- (Z.quot_mul_cancel_r n (Z.pos d) (Z.pos d')) by lia.
  rewrite <- (Z.quot_mul_cancel_r n' (Z.pos d') (Z.pos d)) by lia.
  rewrite H. f_equal. lia.
Qed.

Lemma saturate_int16_Qeq (x y : Q) : x == y -> saturate_int16 x = saturate_int16 y.
Proof.
  intros Hxy. unfold saturate_int16.
  assert (H1 : Qle_bool 32767 x = Qle_bool 32767 y).
  { apply eq_true_iff_eq. rewrite !Qle_bool_iff, Hxy. reflexivity. }
  assert (H2 : Qle_bool x (-32768) = Qle_bool y (-32768)).
  { apply eq_true_iff_eq. rewrite !Qle_bool_iff, Hxy. reflexivity. }
  rewrite H1, H2. destruct (Qle_bool 32767 y); [reflexivity |].
  destruct (Qle_bool y (-32768)); [reflexivity |].
  apply quot_Qeq. exact Hxy.
Qed.

(** The average of two 16-bit samples, scaled back, is their sum halved
    toward zero: nothing saturates. *)
Lemma saturate_average (l r : Z) :
  (-32768 <= l <= 32767)%Z -> (-32768 <= r <= 32767)%Z ->
  saturate_int16 (channel_average (l, r) * 32768) = Z.quot (l + r) 2.
Proof.
  intros Hl Hr.
  rewrite (saturate_int16_Qeq _ ((l + r) # 2)).
  - unfold saturate_int16, Qle_bool. cbn [Qnum Qden].
    destruct (Z.leb_spec (32767 * 2) ((l + r) * 1)) as [H1 | H1].
    + replace (l + r)%Z with 65534%Z by lia. reflexivity.
    + destruct (Z.leb_spec ((l + r) * 1) (-32768 * 2)) as [H2 | H2];
        [| reflexivity].
      replace (l + r)%Z with (-65536)%Z by lia. reflexivity.
  - unfold channel_average. cbn [fst snd]. unfold Qeq. cbn. lia.
Qed.

Lemma repeat2_of_frames {A : Type} (a : list A) :
  length a = 2 * length (stereo_frames a) ->
  Forall (fun f => fst f = snd f) (stereo_frames a) ->
  np_repeat2 (map fst (stereo_frames a)) = a.
Proof.
  remember (length a) as n eqn:Hn. revert a Hn.
  induction n as [n IH] using lt_wf_ind. intros a Hn He Hall.
  destruct a as [| l [| r a]]; cbn [stereo_frames length] in *; [reflexivity | lia |].
  inversion Hall as [| f fs Hf Hrest]; subst. cbn [fst snd] in Hf. subst r.
  cbn [map np_repeat2 flat_map fst app]. do 2 f_equal.
  apply (IH (length a)); [lia | reflexivity | lia | exact Hrest].
Qed.

(** X12. With a backend that returns the samples it was given, [process]
    on whole stereo frames and a nonzero shift writes, for every frame,
    the sum of its two samples halved toward zero on both channels, with no
    clipping; and input whose two channels are already equal comes back
    byte for byte. *)
Theorem unchanged_backend_gives_truncated_average (L : Libs Q)
  (self : VoiceChanger.t) (x : list byte) (ints : list Z) :
  length x mod 4 = 0 ->
  py_eq (VoiceChanger.semitones self) (PyFloat 0%float) = false ->
  np_frombuffer_int16 x = Ok ints ->
  _pitch_shift L (map channel_average (stereo_frames ints))
    (VoiceChanger.semitones self) =
    Ok (map channel_average (stereo_frames ints)) ->
  VoiceChanger.process L self x =
    Ok (tobytes_int16
          (np_repeat2 (map (fun f => Z.quot (fst f + snd f) 2) (stereo_frames ints)))) /\
  (Forall (fun f => fst f = snd f) (stereo_frames ints) ->
   VoiceChanger.process L self x = Ok x).
Proof.
  intros Hmod Hnz Hints Hback.
  destruct (frombuffer_frames x Hmod) as (ints' & Hints' & Heven & _).
  rewrite Hints in Hints'. injection Hints' as <-.
  destruct (tobytes_frombuffer x ints Hints) as [Hbytes Hrange].
  assert (Hframes : Forall (fun f => (-32768 <= fst f <= 32767)%Z /\
                                     (-32768 <= snd f <= 32767)%Z)
                      (stereo_frames ints)).
  { clear - Hrange. remember (length ints) as n eqn:Hn. revert ints Hn Hrange.
    induction n as [n IH] using lt_wf_ind. intros ints Hn Hrange.
    destruct ints as [| l [| r ints]]; cbn [stereo_frames]; try constructor.
    - inversion Hrange as [| ? ? Hl Hrest]; subst.
      inversion Hrest; subst. cbn [fst snd]. split; assumption.
    - inversion Hrange as [| ? ? Hl Hrest]; subst. inversion Hrest; subst.
      apply (IH (length ints)); [cbn [length]; lia | reflexivity | assumption]. }
  assert (Hp : VoiceChanger.process L self x =
               Ok (tobytes_int16 (np_repeat2
                     (map (fun f => Z.quot (fst f + snd f) 2) (stereo_frames ints))))).
  { rewrite (process_frames L self x ints Hnz Hints Heven), Hback, bind_ok.
    rewrite map_map. do 3 f_equal. apply map_ext_in. intros [l r] Hin.
    rewrite List.Forall_forall in Hframes. destruct (Hframes _ Hin) as [Hl Hr].
    cbn [fst snd] in *. apply saturate_average; assumption. }
  split; [exact Hp |].
  intros Hsame. rewrite Hp. f_equal. rewrite <- Hbytes. f_equal.
  rewrite <- (repeat2_of_frames ints Heven Hsame) at 2. f_equal.
  apply map_ext_in. intros [l r] Hin.
  rewrite List.Forall_forall in Hsame. specialize (Hsame _ Hin). cbn [fst snd] in *.
  subst r. replace (l + l)%Z with (l * 2)%Z by lia. apply Z.quot_mul. lia.
Qed.

(** An instance of X12: two frames whose channels are equal (10000 and
    -10000) come back unchanged in mode "high". *)
Lemma unchanged_backend_gives_truncated_average_witness :
  let x := [x10; x27; x10; x27; xf0; xd8; xf0; xd8] in
  VoiceChanger.process (passthrough_libs Q)
    (VoiceChanger.set_high VoiceChanger.init) x = Ok x.
Proof.
  cbv zeta.
  apply (proj2 (unchanged_backend_gives_truncated_average (passthrough_libs Q)
                  (VoiceChanger.set_high VoiceChanger.init)
                  [x10; x27; x10; x27; xf0; xd8; xf0; xd8]
                  [10000; 10000; -10000; -10000]%Z
                  eq_refl eq_refl eq_refl eq_refl)).
  repeat constructor.
Defined.

(** ** Malformed input and missing libraries *)

Lemma frombuffer_odd (x : list byte) :
  length x mod 2 = 1 -> np_frombuffer_int16 x = Raise ValueError.
Proof.
  remember (length x) as n eqn:Hn. revert x Hn.
  induction n as [n IH] using lt_wf_ind. intros x Hn Hodd.
  destruct x as [| lo [| hi x]]; cbn [length] in Hn; subst n.
  - discriminate.
  - reflexivity.
  - cbn [np_frombuffer_int16].
    rewrite (IH (length x)); [reflexivity | cbn [length]; lia | reflexivity |].
    cbn [length] in Hodd.
    replace (S (S (length x))) with (length x + 1 * 2) in Hodd by lia.
    now rewrite Nat.Div0.mod_add in Hodd.
Qed.

Lemma slice_step2_length {A : Type} (a : list A) :
  length (slice_step2 a) = (length a + 1) / 2.
Proof.
  remember (length a) as n eqn:Hn. revert a Hn.
  induction n as [n IH] using lt_wf_ind. intros a Hn.
  destruct a as [| x [| y a]]; cbn [length] in Hn; subst n; try reflexivity.
  cbn [slice_step2 length]. rewrite (IH (length a)) by (lia || reflexivity).
  replace (S (S (length a)) + 1) with (length a + 1 + 1 * 2) by lia.
  rewrite Nat.div_add by lia. lia.
Qed.

Lemma frombuffer_length (x : list byte) :
  forall ints, np_frombuffer_int16 x = Ok ints -> length x = 2 * length ints.
Proof.
  remember (length x) as n eqn:Hn. revert x Hn.
  induction n as [n IH] using lt_wf_ind. intros x Hn ints Hx.
  destruct x as [| lo [| hi x]]; cbn [np_frombuffer_int16] in Hx.
  - injection Hx as <-. subst n. reflexivity.
  - discriminate.
  - destruct (np_frombuffer_int16 x) as [rest |] eqn:Hr; [| discriminate].
    rewrite bind_ok in Hx. injection Hx as <-. subst n.
    pose proof (IH (length x) ltac:(cbn [length]; lia) x eq_refl rest Hr) as Hl.
    cbn [length]. lia.
Qed.

(** X13. With a nonzero shift, input that is not made of whole stereo
    frames makes [process] raise [ValueError] before any library is called:
    always when its length is odd, and from ten bytes on when it ends in a
    lone sample (length 4k + 2). *)
Theorem partial_frames_raise_value_error (L : Libs Q) (self : VoiceChanger.t)
  (x : list byte) :
  py_eq (VoiceChanger.semitones self) (PyFloat 0%float) = false ->
  length x mod 2 = 1 \/ (length x mod 4 = 2 /\ 10 <= length x) ->
  VoiceChanger.process L self x = Raise ValueError.
Proof.
  intros Hnz Hshape. rewrite (process_nonzero L self x Hnz).
  destruct Hshape as [Hodd | [Hlone Hlong]].
  - now rewrite frombuffer_odd.
  - destruct (np_frombuffer_int16 x) as [ints | e] eqn:Hx.
    + rewrite bind_ok. apply frombuffer_length in Hx.
      unfold np_add.
      rewrite !slice_step2_length. rewrite length_tl, !length_map.
      assert (Hn : length ints mod 2 = 1).
      { pose proof (Nat.div_mod_eq (length x) 4).
        pose proof (Nat.div_mod_eq (length ints) 2).
        pose proof (Nat.mod_upper_bound (length ints) 2). lia. }
      pose proof (Nat.div_mod_eq (length ints) 2) as Hd.
      pose proof (Nat.div_mod_eq (length ints + 1) 2) as Hd1.
      pose proof (Nat.mod_upper_bound (length ints + 1) 2) as Hu1.
      pose proof (Nat.div_mod_eq (length ints - 1 + 1) 2) as Hd2.
      pose proof (Nat.mod_upper_bound (length ints - 1 + 1) 2) as Hu2.
      destruct (Nat.eqb_spec ((length ints + 1) / 2) ((length ints - 1 + 1) / 2));
        [lia |].
      destruct (Nat.eqb_spec ((length ints + 1) / 2) 1); [lia |].
      destruct (Nat.eqb_spec ((length ints - 1 + 1) / 2) 1); [lia |].
      reflexivity.
    + assert (Heven : length x mod 2 = 0).
      { pose proof (Nat.div_mod_eq (length x) 4).
        pose proof (Nat.div_mod_eq (length x) 2).
        pose proof (Nat.mod_upper_bound (length x) 2). lia. }
      exfalso. clear - Hx Heven.
      assert (H : forall n (y : list byte), length y = n -> length y mod 2 = 0 ->
                    exists ints, np_frombuffer_int16 y = Ok ints).
      { induction n as [n IH] using lt_wf_ind. intros y Hn He.
        destruct y as [| lo [| hi y]]; cbn [length] in *.
        - eexists. reflexivity.
        - discriminate.
        - destruct (IH (length y)) with (y := y) as [ints Hi];
            [lia | reflexivity | |].
          + replace (S (S (length y))) with (length y + 1 * 2) in He by lia.
            now rewrite Nat.Div0.mod_add in He.
          + eexists. cbn [np_frombuffer_int16]. rewrite Hi. reflexivity. }
      destruct (H _ x eq_refl Heven) as [ints Hi]. congruence.
Qed.

(** An instance of X13: five samples, and three bytes. *)
Lemma partial_frames_raise_value_error_witness :
  let self := VoiceChanger.set_low VoiceChanger.init in
  VoiceChanger.process (passthrough_libs Q) self
    [x01; x00; x02; x00; x03; x00; x04; x00; x05; x00] = Raise ValueError /\
  VoiceChanger.process (passthrough_libs Q) self [x01; x00; x02] =
    Raise ValueError.
Proof.
  cbv zeta. split.
  - apply (partial_frames_raise_value_error (passthrough_libs Q)
             (VoiceChanger.set_low VoiceChanger.init)
             [x01; x00; x02; x00; x03; x00; x04; x00; x05; x00] eq_refl).
    right. split; [reflexivity | apply le_n].
  - apply (partial_frames_raise_value_error (passthrough_libs Q)
             (VoiceChanger.set_low VoiceChanger.init) [x01; x00; x02] eq_refl).
    left. reflexivity.
Defined.

(** X14. The fallback is itself an import: when none of pyrubberband,
    librosa and scipy can be imported, the engine selected is still
    "scipy", and every pitch shift by a nonzero amount raises
    [ImportError], in [process] (on whole stereo frames) as in [main.py]'s
    [pitch_shift]. *)
Theorem no_library_means_import_error (L : Libs Q) (self : VoiceChanger.t)
  (x : list byte) (audio : list Q) (st : pynum) :
  has_pyrubberband L = false ->
  has_librosa L = false ->
  has_scipy L = false ->
  _ENGINE L = Scipy /\
  (py_eq (VoiceChanger.semitones self) (PyFloat 0%float) = false ->
   length x mod 4 = 0 ->
   VoiceChanger.process L self x = Raise ImportError) /\
  (py_eq st (PyInt 0) = false ->
   Main.pitch_shift L audio st = Raise ImportError).
Proof.
  intros Hp Hl Hs.
  assert (He : _ENGINE L = Scipy).
  { unfold _ENGINE, import_module. now rewrite Hp, Hl. }
  split; [exact He | split].
  - intros Hnz Hmod.
    destruct (frombuffer_frames x Hmod) as (ints & Hints & Heven & _).
    rewrite (process_frames L self x ints Hnz Hints Heven).
    unfold _pitch_shift. rewrite He, Hs. reflexivity.
  - intros Hnz. unfold Main.pitch_shift, Main.HAS_PYRUBBERBAND, Main.HAS_LIBROSA,
      Main._pitch_shift_scipy, import_module.
    rewrite Hnz, Hp, Hl, Hs. reflexivity.
Qed.

(** An instance of X14. *)
Lemma no_library_means_import_error_witness :
  _ENGINE (no_libs Q) = Scipy /\
  VoiceChanger.process (no_libs Q) (VoiceChanger.set_high VoiceChanger.init)
    [x01; x00; x02; x00] = Raise ImportError /\
  Main.pitch_shift (no_libs Q) [1%Q; 2%Q] (PyInt 6) = Raise ImportError.
Proof.
  destruct (no_library_means_import_error (no_libs Q)
              (VoiceChanger.set_high VoiceChanger.init) [x01; x00; x02; x00]
              [1%Q; 2%Q] (PyInt 6) eq_refl eq_refl eq_refl)
    as (He & Hp & Hm).
  split; [exact He |]. split; [apply Hp | apply Hm]; reflexivity.
Defined.

(** ** The bot's dictionaries under the commands *)

Lemma get_changer_lookup (st : Bot.state) (gid : Z) :
  Bot._changers (snd (Bot.get_changer st gid)) !! gid =
    Some (fst (Bot.get_changer st gid)) /\
  Bot._sinks (snd (Bot.get_changer st gid)) = Bot._sinks st /\
  (forall c, Bot._changers st !! gid = Some c ->
     Bot.get_changer st gid = (c, st)) /\
  (forall other, other <> gid ->
     Bot._changers (snd (Bot.get_changer st gid)) !! other =
     Bot._changers st !! other).
Proof.
  unfold Bot.get_changer.
  destruct (Bot._changers st !! gid) as [c |] eqn:Hc; cbn [fst snd Bot._changers Bot._sinks].
  - repeat split; try assumption; try reflexivity. now intros c' [= ->].
  - rewrite lookup_insert_eq. repeat split; try reflexivity.
    + intros c [=].
    + intros other Hne. now rewrite lookup_insert_ne by congruence.
Qed.

Lemma run_command_other_guild (format_signed : float -> string)
  (st : Bot.state) (gid other : Z) (c : Bot.command) :
  other <> gid ->
  Bot._changers (Bot.run_command format_signed st gid c) !! other =
    Bot._changers st !! other /\
  Bot._sinks (Bot.run_command format_signed st gid c) !! other =
    Bot._sinks st !! other.
Proof.
  intros Hne. destruct (get_changer_lookup st gid) as (_ & Hs & _ & Ho).
  specialize (Ho other Hne).
  destruct c as [[[vc n] |] | [] | | | base | | [] [m |]];
    cbn [Bot.run_command]; unfold Bot.cmd_join, Bot.cmd_leave, Bot.cmd_pitch_up,
      Bot.cmd_pitch_down, Bot.cmd_gender, Bot.cmd_normal,
      Bot.on_voice_state_update, Bot.mutate_changer;
    try destruct (Bot.get_changer st gid) as [ch st1];
    try destruct (m <=? 1);
    cbn [fst snd Bot._changers Bot._sinks negb] in *;
    rewrite ?lookup_insert_ne, ?lookup_alter_ne, ?lookup_delete_ne by congruence;
    rewrite ?Hs; split; first [exact Ho | reflexivity].
Qed.

(** X15. Guilds are independent: a run of commands and voice-state events,
    none of them issued in a given guild, leaves that guild's
    [VoiceChanger] and sink exactly as they were. *)
Theorem commands_leave_other_guilds_alone (format_signed : float -> string)
  (cs : list (Z * Bot.command)) (other : Z) :
  forall st : Bot.state,
    Forall (fun gc => fst gc <> other) cs ->
    Bot._changers (Bot.run_commands format_signed st cs) !! other =
      Bot._changers st !! other /\
    Bot._sinks (Bot.run_commands format_signed st cs) !! other =
      Bot._sinks st !! other.
Proof.
  induction cs as [| [gid c] cs IH]; intros st Hall; [split; reflexivity |].
  inversion Hall as [| ? ? Hne Hrest]; subst. cbn [fst] in Hne.
  cbn [Bot.run_commands fold_left fst snd].
  fold (Bot.run_commands format_signed (Bot.run_command format_signed st gid c) cs).
  destruct (IH (Bot.run_command format_signed st gid c) Hrest) as [-> ->].
  apply run_command_other_guild. congruence.
Qed.

(** An instance of X15: guild 2 is in mode "low" with a sink; guild 1 joins,
    changes mode and leaves. *)
Lemma commands_leave_other_guilds_alone_witness :
  let low := VoiceChanger.set_low VoiceChanger.init in
  let st :=
    Bot.mk (<[2%Z := low]> ∅) (<[2%Z := VoiceChangerSink.init low idle_client]> ∅) in
  let st' :=
    Bot.run_commands plain_format st
      [(1%Z, Bot.Join (Some (idle_client, "general"))); (1%Z, Bot.PitchUp);
       (1%Z, Bot.Gender "female"); (1%Z, Bot.Leave true)] in
  Bot._changers st' !! 2%Z = Some low /\
  Bot._sinks st' !! 2%Z = Some (VoiceChangerSink.init low idle_client).
Proof.
  cbv zeta.
  destruct (commands_leave_other_guilds_alone plain_format
              [(1%Z, Bot.Join (Some (idle_client, "general"))); (1%Z, Bot.PitchUp);
               (1%Z, Bot.Gender "female"); (1%Z, Bot.Leave true)] 2
              (Bot.mk (<[2%Z := VoiceChanger.set_low VoiceChanger.init]> ∅)
                 (<[2%Z := VoiceChangerSink.init
                             (VoiceChanger.set_low VoiceChanger.init) idle_client]> ∅)))
    as [Hc Hs].
  - repeat constructor; discriminate.
  - rewrite Hc, Hs. split; reflexivity.
Defined.

Lemma session_command_keeps_changer (format_signed : float -> string)
  (st : Bot.state) (gid g : Z) (c : Bot.command) (ch : VoiceChanger.t) :
  is_session_command c = true ->
  Bot._changers st !! gid = Some ch ->
  Bot._changers (Bot.run_command format_signed st g c) !! gid = Some ch.
Proof.
  intros Hc Hch.
  destruct c as [[[vc n] |] | [] | | | base | | [] [m |]]; try discriminate;
    cbn [Bot.run_command]; unfold Bot.cmd_join, Bot.cmd_leave,
      Bot.on_voice_state_update;
    try destruct (m <=? 1); cbn [fst snd negb Bot._changers]; try exact Hch.
  destruct (Z.eq_dec g gid) as [-> | Hne].
  - destruct (get_changer_lookup st gid) as (_ & _ & Hsame & _).
    rewrite (Hsame ch Hch). exact Hch.
  - destruct (get_changer_lookup st g) as (_ & _ & _ & Ho).
    destruct (Bot.get_changer st g) as [c1 st1]. cbn [fst snd Bot._changers] in *.
    rewrite Ho by congruence. exact Hch.
Qed.

(** X16. The mode outlives the session: joining, leaving and voice-state
    events, in any guilds and any number, never change or remove a guild's
    [VoiceChanger]; a later [join] builds its sink around that same
    controller, with an empty jitter buffer, no speaker buffers and
    playback stopped. *)
Theorem mode_outlives_sessions (format_signed : float -> string)
  (cs : list (Z * Bot.command)) (gid : Z) (ch : VoiceChanger.t)
  (vc : VoiceClient) (channel_name : string) :
  forall st : Bot.state,
    Bot._changers st !! gid = Some ch ->
    Forall (fun gc => is_session_command (snd gc) = true) cs ->
    let st1 := Bot.run_commands format_signed st cs in
    let st2 := Bot.run_command format_signed st1 gid
                 (Bot.Join (Some (vc, channel_name))) in
    Bot._changers st1 !! gid = Some ch /\
    Bot._changers st2 !! gid = Some ch /\
    Bot._sinks st2 !! gid =
      Some (VoiceChangerSink.mk ch
              {| is_playing := false; play_result := play_result vc |}
              BufferedAudioSource.init ∅).
Proof.
  induction cs as [| [g c] cs IH]; intros st Hch Hall; cbv zeta.
  - cbn [Bot.run_commands fold_left Bot.run_command]. unfold Bot.cmd_join.
    destruct (get_changer_lookup st gid) as (_ & _ & Hsame & _).
    rewrite (Hsame ch Hch). cbn [fst snd Bot._changers Bot._sinks].
    rewrite lookup_insert_eq. repeat split; try assumption.
    unfold VoiceChangerSink.init. destruct vc as [[] pr]; reflexivity.
  - inversion Hall as [| ? ? Hc Hrest]; subst. cbn [snd] in Hc.
    cbn [Bot.run_commands fold_left fst snd].
    fold (Bot.run_commands format_signed (Bot.run_command format_signed st g c) cs).
    apply (IH (Bot.run_command format_signed st g c)); [| exact Hrest].
    apply session_command_keeps_changer; assumption.
Qed.

(** An instance of X16: mode "high" is set, then the bot leaves and joins
    again. *)
Lemma mode_outlives_sessions_witness :
  let st0 := Bot.run_commands plain_format Bot.init
               [(1%Z, Bot.Join (Some (idle_client, "general"))); (1%Z, Bot.PitchUp)] in
  let st2 := Bot.run_commands plain_format st0
               [(1%Z, Bot.Leave true); (1%Z, Bot.Join (Some (idle_client, "general")))] in
  exists sink,
    Bot._sinks st2 !! 1%Z = Some sink /\
    VoiceChanger.semitones (VoiceChangerSink.changer sink) = PyInt 6.
Proof.
  cbv zeta.
  destruct (mode_outlives_sessions plain_format [(1%Z, Bot.Leave true)] 1
              (VoiceChanger.set_high VoiceChanger.init) idle_client "general"
              (Bot.run_commands plain_format Bot.init
                 [(1%Z, Bot.Join (Some (idle_client, "general"))); (1%Z, Bot.PitchUp)]))
    as (_ & _ & Hs).
  - reflexivity.
  - repeat constructor.
  - eexists. split; [exact Hs | reflexivity].
Defined.

Lemma lower_ascii_idempotent (c : Ascii.ascii) :
  lower_ascii (lower_ascii c) = lower_ascii c.
Proof. destruct c as [[] [] [] [] [] [] [] []]; reflexivity. Qed.

Lemma lower_idempotent (s : string) : lower (lower s) = lower s.
Proof.
  induction s as [| c s IH]; [reflexivity |].
  cbn [lower]. now rewrite lower_ascii_idempotent, IH.
Qed.

(** X17. The reply of a mode command tells the truth: after [!pitch_up],
    [!pitch_down], [!gender] or [!normal] in any state, the guild has a
    [VoiceChanger], the reply is the command's prefix around its
    [description], and that text and the shift now in force are one of the
    five matching pairs. A sink the guild already has keeps its buffers and
    sees the new controller. *)
Theorem mode_command_reply_names_the_shift (format_signed : float -> string)
  (st : Bot.state) (gid : Z) (base : string) :
  let says (r : Bot.state * string) (prefix : string) :=
    exists ch,
      Bot._changers (fst r) !! gid = Some ch /\
      snd r = prefix +:+ description format_signed ch +:+ "**" /\
      In (description format_signed ch, VoiceChanger.semitones ch)
         [("ノーマル（変換なし）", PyInt 0);
          ("高い声 (+6 半音)", PyInt 6);
          ("低い声 (-6 半音)", PyInt (-6));
          ("異性の声 (男→女 (+10 半音))", PyFloat 10%float);
          ("異性の声 (女→男 (-10 半音))", PyFloat (-10)%float)] /\
      Bot._sinks (fst r) !! gid =
        (fun sink =>
           VoiceChangerSink.mk ch (VoiceChangerSink.vc sink)
             (VoiceChangerSink.audio_source sink)
             (VoiceChangerSink._user_bufs sink)) <$> Bot._sinks st !! gid in
  says (Bot.cmd_pitch_up format_signed st gid) "🔼 モード変更: **" /\
  says (Bot.cmd_pitch_down format_signed st gid) "🔽 モード変更: **" /\
  says (Bot.cmd_gender format_signed st gid base) "⚧ モード変更: **" /\
  says (Bot.cmd_normal format_signed st gid) "➡️ モード変更: **".
Proof.
  cbv zeta. destruct (get_changer_lookup st gid) as (_ & Hs & _ & _).
  unfold Bot.cmd_pitch_up, Bot.cmd_pitch_down, Bot.cmd_gender, Bot.cmd_normal,
    Bot.mutate_changer.
  destruct (Bot.get_changer st gid) as [c st1]. cbn [fst snd] in *.
  repeat split; eexists;
    cbn [fst snd Bot._changers Bot._sinks];
    rewrite lookup_insert_eq, lookup_alter_eq, Hs;
    (split; [reflexivity | split; [reflexivity | split; [| reflexivity]]]).
  - cbn. auto.
  - cbn. auto.
  - destruct (existsb _ _); cbn; auto 10.
  - cbn. auto.
Qed.

(** X18. The argument of [!gender] is read without regard to ASCII case, and
    only four words select female-to-male: the shift becomes -10.0 exactly
    when the lower-cased argument is one of "female", "f", "女", "2", and
    +10.0 for every other text. *)
Theorem gender_argument_decides_direction (format_signed : float -> string)
  (st : Bot.state) (gid : Z) (base : string) :
  Bot.cmd_gender format_signed st gid base =
    Bot.cmd_gender format_signed st gid (lower base) /\
  exists ch,
    Bot._changers (fst (Bot.cmd_gender format_signed st gid base)) !! gid = Some ch /\
    VoiceChanger.mode ch = "gender" /\
    (In (lower base) ["female"; "f"; "女"; "2"] ->
     VoiceChanger.semitones ch = PyFloat (-10)%float) /\
    (~ In (lower base) ["female"; "f"; "女"; "2"] ->
     VoiceChanger.semitones ch = PyFloat 10%float).
Proof.
  split.
  - unfold Bot.cmd_gender. now rewrite lower_idempotent.
  - unfold Bot.cmd_gender, Bot.mutate_changer.
    destruct (Bot.get_changer st gid) as [c st1].
    cbn [fst snd Bot._changers]. rewrite lookup_insert_eq. eexists.
    split; [reflexivity |]. split; [reflexivity |].
    destruct (existsb (String.eqb (lower base)) ["female"; "f"; "女"; "2"]) eqn:He.
    + split; [reflexivity |]. intros Hn. exfalso. apply Hn.
      apply existsb_exists in He as (w & Hw & Heq).
      apply String.eqb_eq in Heq. now subst w.
    + split; [| reflexivity]. intros Hin. exfalso.
      assert (existsb (String.eqb (lower base)) ["female"; "f"; "女"; "2"] = true);
        [| congruence].
      apply existsb_exists. exists (lower base). split; [exact Hin |].
      apply String.eqb_refl.
Qed.

(** "FeMaLe" is read as female: the shift is -10.0. *)
Lemma gender_argument_decides_direction_witness :
  exists ch,
    Bot._changers (fst (Bot.cmd_gender plain_format Bot.init 7 "FeMaLe")) !! 7%Z =
      Some ch /\
    VoiceChanger.semitones ch = PyFloat (-10)%float.
Proof.
  destruct (gender_argument_decides_direction plain_format Bot.init 7 "FeMaLe")
    as (_ & ch & Hch & _ & Hf & _).
  exists ch. split; [exact Hch |]. apply Hf. vm_compute. auto.
Defined.

(** ** The keyboard listener and the console loop *)

Lemma modes_intact_start (gender : string) :
  modes_intact (MainUI.select_gender MainUI.init gender).
Proof.
  unfold MainUI.select_gender, modes_intact.
  destruct (String.eqb gender "2"); cbv zeta;
    cbn [MainUI.globals MainUI.MODE_NAMES MainUI.set_semitone
         Main.current_mode Main.SEMITONE_MAP Main.VOLUME_GAIN MainUI.init
         Main.init_globals];
    repeat split; auto 10;
    try (intros m Hm; repeat (destruct Hm as [<- | Hm]; [eexists; reflexivity |]);
         destruct Hm).
  all: try (left; reflexivity).
  all: try (eexists; reflexivity).
Qed.

Lemma modes_intact_ext (st st' : MainUI.state) :
  MainUI.globals st' = MainUI.globals st ->
  MainUI.MODE_NAMES st' = MainUI.MODE_NAMES st ->
  modes_intact st -> modes_intact st'.
Proof. unfold modes_intact. intros -> ->. exact (fun H => H). Qed.

Lemma modes_intact_mode (st st' : MainUI.state) (m : Z) :
  In m [0; 1; 2; 3; 4]%Z ->
  MainUI.globals st' = MainUI.set_current_mode (MainUI.globals st) m ->
  MainUI.MODE_NAMES st' = MainUI.MODE_NAMES st ->
  modes_intact st -> modes_intact st'.
Proof.
  unfold modes_intact. intros Hm -> ->. cbv zeta.
  cbn [MainUI.set_current_mode Main.current_mode Main.SEMITONE_MAP Main.VOLUME_GAIN].
  intros (_ & H). split; assumption.
Qed.

Lemma modes_intact_custom (st st' : MainUI.state) (v : pynum) (n : string) :
  MainUI.globals st' = MainUI.set_semitone (MainUI.globals st) Main.MODE_CUSTOM v ->
  MainUI.MODE_NAMES st' = <[Main.MODE_CUSTOM := n]> (MainUI.MODE_NAMES st) ->
  modes_intact st -> modes_intact st'.
Proof.
  unfold modes_intact. intros -> ->. cbv zeta.
  cbn [MainUI.set_semitone Main.current_mode Main.SEMITONE_MAP Main.VOLUME_GAIN].
  unfold Main.MODE_CUSTOM.
  intros (Hm & H0 & H1 & H2 & H3 & _ & Hn & Hg).
  rewrite !lookup_insert_ne by discriminate. rewrite lookup_insert_eq.
  repeat split; try assumption; [eexists; reflexivity |].
  intros m Hin. destruct (Z.eq_dec m 4%Z) as [-> | Hne].
  - rewrite lookup_insert_eq. eexists; reflexivity.
  - rewrite lookup_insert_ne by congruence. apply Hn, Hin.
Qed.

Lemma switch_mode_ok (st : MainUI.state) (printed : list string) (m : Z) :
  modes_intact st ->
  In m [0; 1; 2; 3; 4]%Z ->
  exists st' printed',
    MainUI.switch_mode st printed (Some m) = Ok (st', printed', true) /\
    modes_intact st' /\
    Main.current_mode (MainUI.globals st') = m /\
    Main.SEMITONE_MAP (MainUI.globals st') = Main.SEMITONE_MAP (MainUI.globals st).
Proof.
  intros Hst Hm. unfold MainUI.switch_mode.
  destruct Hst as (Hcur & H0 & H1 & H2 & H3 & H4 & Hn & Hg).
  destruct (Hn m Hm) as [mode_name ->].
  eexists. eexists. split; [reflexivity |]. split; [| split; reflexivity].
  apply (modes_intact_mode st _ m Hm); try reflexivity.
  repeat split; assumption.
Qed.

Lemma on_press_ok (st : MainUI.state) (k : MainUI.key) :
  modes_intact st ->
  exists st' printed go,
    MainUI.on_press st k = Ok (st', printed, go) /\ modes_intact st'.
Proof.
  intros Hst. unfold MainUI.on_press.
  destruct k as [| ch]; [now exists st, [], true |].
  unfold Main.MODE_NORMAL, Main.MODE_HIGH, Main.MODE_LOW, Main.MODE_OPPOSITE.
  repeat case_bool_decide.
  - destruct (switch_mode_ok st [] 0%Z Hst) as (st' & pr & -> & Hi & _); [cbn; auto |].
    now exists st', pr, true.
  - destruct (switch_mode_ok st [] 1%Z Hst) as (st' & pr & -> & Hi & _); [cbn; auto |].
    now exists st', pr, true.
  - destruct (switch_mode_ok st [] 2%Z Hst) as (st' & pr & -> & Hi & _); [cbn; auto |].
    now exists st', pr, true.
  - destruct (switch_mode_ok st [] 3%Z Hst) as (st' & pr & -> & Hi & _); [cbn; auto 10 |].
    now exists st', pr, true.
  - match goal with
    | |- context [MainUI.switch_mode ?s ?p (Some Main.MODE_CUSTOM)] =>
        destruct (switch_mode_ok s p Main.MODE_CUSTOM) as (st' & pr & Hsw & Hi & _)
    end.
    + eapply (modes_intact_custom st); [reflexivity | reflexivity | exact Hst].
    + cbn; auto 10.
    + rewrite Hsw. now exists st', pr, true.
  - eexists. eexists. eexists. split; [reflexivity |].
    apply (modes_intact_ext st); [reflexivity | reflexivity | exact Hst].
  - now exists st, [], true.
Qed.

Lemma console_turn_ok (format_signed : float -> string) (st : MainUI.state)
  (user_input : option string) (custom : MainUI.custom_input) :
  modes_intact st ->
  exists st' printed,
    MainUI.console_turn format_signed st user_input custom = Ok (st', printed) /\
    modes_intact st'.
Proof.
  intros Hst. unfold MainUI.console_turn.
  assert (Hhead : exists st1 printed1,
            (if bool_decide (Main.current_mode (MainUI.globals st) = MainUI.last_mode st)
             then Ok (st, [])
             else
               match MainUI.MODE_NAMES st !! Main.current_mode (MainUI.globals st) with
               | None => Raise KeyError
               | Some mode_name =>
                   Ok ({| MainUI.globals := MainUI.globals st;
                          MainUI.MODE_NAMES := MainUI.MODE_NAMES st;
                          MainUI.running := MainUI.running st;
                          MainUI.last_mode := Main.current_mode (MainUI.globals st) |},
                       [newline +:+ "  ▶ 現在のモード: " +:+ MainUI.escape +:+ "[1;32m" +:+
                        mode_name +:+ MainUI.escape +:+ "[0m" +:+ newline;
                        "  [変更: 1-5, 終了: q] ➡ "])
               end) = Ok (st1, printed1) /\ modes_intact st1).
  { case_bool_decide; [now exists st, [] |].
    destruct Hst as (Hcur & H0 & H1 & H2 & H3 & H4 & Hn & Hg).
    destruct (Hn _ Hcur) as [mode_name ->].
    eexists. eexists. split; [reflexivity |].
    apply (modes_intact_ext st); [reflexivity | reflexivity |].
    repeat split; assumption. }
  destruct Hhead as (st1 & printed1 & -> & Hst1). rewrite bind_ok.
  destruct user_input as [line |].
  - destruct (String.eqb line "q").
    + eexists. eexists. split; [reflexivity |].
      apply (modes_intact_ext st1); [reflexivity | reflexivity | exact Hst1].
    + destruct (existsb (String.eqb line) ["1"; "2"; "3"; "4"]).
      * eexists. eexists. split; [reflexivity |].
        eapply (modes_intact_mode st1); [| reflexivity | reflexivity | exact Hst1].
        destruct (String.eqb line "1"); [cbn; auto |].
        destruct (String.eqb line "2"); [cbn; auto |].
        destruct (String.eqb line "3"); cbn; auto 10.
      * destruct (String.eqb line "5"); [| now exists st1, printed1].
        destruct custom as [| | val].
        -- eexists. eexists. split; [reflexivity |].
           apply (modes_intact_ext st1); [reflexivity | reflexivity | exact Hst1].
        -- now eexists; eexists.
        -- eexists. eexists. split; [reflexivity |].
           match goal with
           | |- modes_intact {| MainUI.globals := _; MainUI.MODE_NAMES := ?n;
                                MainUI.running := ?r; MainUI.last_mode := ?l |} =>
               apply (modes_intact_mode
                        {| MainUI.globals :=
                             MainUI.set_semitone (MainUI.globals st1)
                               Main.MODE_CUSTOM (PyFloat val);
                           MainUI.MODE_NAMES := n; MainUI.running := r;
                           MainUI.last_mode := l |} _ 4%Z)
           end; [cbn; auto 10 | reflexivity | reflexivity |].
           eapply (modes_intact_custom st1); [reflexivity | reflexivity | exact Hst1].
  - eexists. eexists. split; [reflexivity |].
    apply (modes_intact_ext st1); [reflexivity | reflexivity | exact Hst1].
Qed.

Lemma step_ok (format_signed : float -> string) (st : MainUI.state)
  (e : MainUI.event) :
  modes_intact st ->
  exists st', MainUI.step format_signed st e = Ok st' /\ modes_intact st'.
Proof.
  intros Hst. destruct e as [k | user_input custom]; cbn [MainUI.step].
  - destruct (on_press_ok st k Hst) as (st' & printed & go & -> & Hi).
    rewrite bind_ok. now exists st'.
  - destruct (console_turn_ok format_signed st user_input custom Hst)
      as (st' & printed & -> & Hi).
    rewrite bind_ok. now exists st'.
Qed.

Lemma run_ok (format_signed : float -> string) (es : list MainUI.event) :
  forall st,
    modes_intact st ->
    exists st', MainUI.run format_signed st es = Ok st' /\ modes_intact st'.
Proof.
  induction es as [| e es IH]; intros st Hst; cbn [MainUI.run].
  - now exists st.
  - destruct (step_ok format_signed st e Hst) as (st1 & -> & Hst1).
    rewrite bind_ok. apply IH, Hst1.
Qed.

Lemma run_app (format_signed : float -> string) (es1 es2 : list MainUI.event) :
  forall st st1,
    MainUI.run format_signed st es1 = Ok st1 ->
    MainUI.run format_signed st (es1 ++ es2) = MainUI.run format_signed st1 es2.
Proof.
  induction es1 as [| e es1 IH]; intros st st1; cbn [MainUI.run app].
  - now intros [= ->].
  - destruct (MainUI.step format_signed st e) as [st' | exc]; [| discriminate].
    rewrite !bind_ok. apply IH.
Qed.

Lemma modes_intact_key (st : MainUI.state) :
  modes_intact st ->
  is_Some (Main.SEMITONE_MAP (MainUI.globals st) !!
             Main.current_mode (MainUI.globals st)).
Proof.
  intros (Hcur & H0 & H1 & H2 & H3 & H4 & _).
  cbn [In] in Hcur.
  destruct Hcur as [<- | [<- | [<- | [<- | [<- | []]]]]];
    [rewrite H0 | rewrite H1 | rewrite H2 | destruct H3 as [-> | ->] | exact H4];
    eexists; reflexivity.
Qed.

(** X19. A session never fails on its mode tables. Whatever is answered to
    the gender question and whatever keys and console lines follow, no step
    raises, and afterwards the current mode is one of the five, has a name
    and a shift, the shifts of normal, high and low are still 0, +6 and -6,
    the opposite-voice shift is +10 or -10, and the gain is still 4. *)
Theorem console_session_never_raises (format_signed : float -> string)
  (gender : string) (es : list MainUI.event) :
  exists st',
    MainUI.run format_signed (MainUI.select_gender MainUI.init gender) es = Ok st' /\
    modes_intact st'.
Proof. apply run_ok, modes_intact_start. Qed.

(** X20. In every state a session can reach, the stream callback finds the
    shift of the current mode: with room for [frames] rows it returns, and
    the block it writes has as many rows as [outdata]. *)
Theorem callback_finds_its_mode (format_signed : float -> string)
  (gender : string) (es : list MainUI.event) (L : Libs R)
  (indata outdata : list R) (frames : nat) (status : bool) :
  frames <= length outdata ->
  exists st' out printed,
    MainUI.run format_signed (MainUI.select_gender MainUI.init gender) es = Ok st' /\
    Main.audio_callback L (MainUI.globals st') indata outdata frames status =
      Ok (out, printed) /\
    length out = length outdata.
Proof.
  intros Hroom.
  destruct (run_ok format_signed es _ (modes_intact_start gender))
    as (st' & Hrun & Hst').
  destruct (modes_intact_key st' Hst') as [st Hkey].
  destruct (audio_callback_returns L (MainUI.globals st') indata outdata frames
              status st Hkey Hroom) as (processed & printed & _ & _ & Hcall).
  exists st'. eexists. exists printed.
  split; [exact Hrun |]. split; [exact Hcall |].
  pose proof (limited_output (Main.VOLUME_GAIN (MainUI.globals st')) processed
                outdata frames) as Hout.
  cbv zeta in Hout. rewrite !length_map in Hout.
  apply Hout. lia.
Qed.

Lemma callback_finds_its_mode_witness :
  exists st' out printed,
    MainUI.run plain_format (MainUI.select_gender MainUI.init "2")
      [MainUI.KeyPress (MainUI.KeyCode (Some "4"));
       MainUI.Console (Some "5") (MainUI.CustomValue 7%float);
       MainUI.KeyPress (MainUI.KeyCode (Some "q"))] = Ok st' /\
    Main.audio_callback (broken_rubberband R) (MainUI.globals st')
      [1%R; 2%R] [0%R; 0%R; 0%R] 3 true = Ok (out, printed) /\
    length out = 3.
Proof.
  apply (callback_finds_its_mode plain_format "2"
           [MainUI.KeyPress (MainUI.KeyCode (Some "4"));
            MainUI.Console (Some "5") (MainUI.CustomValue 7%float);
            MainUI.KeyPress (MainUI.KeyCode (Some "q"))]
           (broken_rubberband R) [1%R; 2%R] [0%R; 0%R; 0%R] 3 true).
  cbn. lia.
Defined.

(** X21. After the key 1, whatever happened before, the callback never
    consults a pitch backend: for every set of libraries the block written
    is the limited, four times amplified input, cut to [frames] rows and
    followed by silence, and nothing but a status line is printed. *)
Theorem normal_key_bypasses_the_backend (format_signed : float -> string)
  (gender : string) (es : list MainUI.event) (L : Libs R)
  (indata outdata : list R) (frames : nat) (status : bool) :
  frames <= length outdata ->
  exists st',
    MainUI.run format_signed (MainUI.select_gender MainUI.init gender)
      (es ++ [MainUI.KeyPress (MainUI.KeyCode (Some "1"))]) = Ok st' /\
    Main.audio_callback L (MainUI.globals st') indata outdata frames status =
      Ok (firstn (Nat.min (length indata) frames)
            (map tanh (map (fun x => (x * 4)%R) indata)) ++
          skipn (Nat.min (length indata) frames) (map (fun _ : R => 0%R) outdata),
          if status then [Main.AudioStatus] else []).
Proof.
  intros Hroom.
  destruct (run_ok format_signed es _ (modes_intact_start gender))
    as (st1 & Hrun & Hst1).
  rewrite (run_app format_signed es _ _ st1 Hrun).
  cbn [MainUI.run MainUI.step MainUI.on_press].
  rewrite bool_decide_eq_true_2 by reflexivity.
  destruct (switch_mode_ok st1 [] 0%Z Hst1) as (st' & pr & Hsw & Hst' & Hcur & Hmap);
    [cbn; auto |].
  change (Some Main.MODE_NORMAL) with (Some 0%Z). rewrite Hsw, !bind_ok.
  cbn [fst]. exists st'. split; [reflexivity |].
  destruct Hst1 as (_ & H0 & _). destruct Hst' as (_ & _ & _ & _ & _ & _ & _ & Hg).
  unfold Main.audio_callback. rewrite Hcur, Hmap, H0, Hg.
  cbn [py_eq negb Z.eqb]. cbv beta iota zeta. rewrite !length_map.
  replace (Nat.min (length indata) frames <=? length outdata) with true
    by (symmetry; apply Nat.leb_le; lia).
  destruct status; reflexivity.
Qed.

Lemma normal_key_bypasses_the_backend_witness :
  exists st',
    MainUI.run plain_format (MainUI.select_gender MainUI.init "1")
      ([MainUI.KeyPress (MainUI.KeyCode (Some "5"))] ++
       [MainUI.KeyPress (MainUI.KeyCode (Some "1"))]) = Ok st' /\
    Main.audio_callback (no_libs R) (MainUI.globals st') [1%R; 2%R] [9%R; 9%R; 9%R]
      3 false =
      Ok (firstn (Nat.min (length [1%R; 2%R]) 3)
            (map tanh (map (fun x => (x * 4)%R) [1%R; 2%R])) ++
          skipn (Nat.min (length [1%R; 2%R]) 3)
            (map (fun _ : R => 0%R) [9%R; 9%R; 9%R]),
          []).
Proof.
  apply (normal_key_bypasses_the_backend plain_format "1"
           [MainUI.KeyPress (MainUI.KeyCode (Some "5"))] (no_libs R)
           [1%R; 2%R] [9%R; 9%R; 9%R] 3 false).
  cbn. lia.
Defined.

(** ** The stream callback and its backends *)

Lemma main_pitch_shift_length (L : Libs R) (audio out : list R) (st : pynum) :
  library_contract L ->
  Main.pitch_shift L audio st = Ok out ->
  length out = length audio.
Proof.
  intros (Hpyrb & Hlibrosa & Hres). unfold Main.pitch_shift.
  destruct (py_eq st (PyInt 0)); [now intros [= <-] |].
  destruct (Main.HAS_PYRUBBERBAND L); [apply Hpyrb |].
  destruct (Main.HAS_LIBROSA L); [apply Hlibrosa |].
  unfold Main._pitch_shift_scipy.
  destruct (import_module (has_scipy L)) as [[] | e]; [| discriminate].
  rewrite bind_ok. cbv zeta.
  destruct (scaled_len L (length audio) st) as [r | e]; [| discriminate].
  rewrite bind_ok.
  destruct (sg_resample L audio (Z.to_nat (Z.max 1 r))) as [resampled | e] eqn:Er;
    [| discriminate].
  rewrite bind_ok. apply Hres in Er.
  pose proof (fallback_restores_length resampled (length audio)
                (Z.to_nat (Z.max 1 r)) Er ltac:(lia)) as Hlen.
  destruct (length audio <=? Z.to_nat (Z.max 1 r)); intros [= <-]; exact Hlen.
Qed.

Lemma scipy_halving_contract : library_contract scipy_halving.
Proof.
  repeat split.
  - intros a sr st out [= <-]. reflexivity.
  - intros a sr st kw out [= <-]. reflexivity.
  - intros a n out [= <-]. apply repeat_length.
Qed.

(** X22. The stream callback outlives a failing backend: when [pitch_shift]
    raises, the callback prints the error, and writes the unshifted input,
    amplified and limited, as if the mode were normal. *)
Theorem callback_survives_backend_error (L : Libs R) (g : Main.globals)
  (indata outdata : list R) (frames : nat) (status : bool) (st : pynum)
  (exc : exn) :
  Main.SEMITONE_MAP g !! Main.current_mode g = Some st ->
  Main.pitch_shift L indata st = Raise exc ->
  frames <= length outdata ->
  Main.audio_callback L g indata outdata frames status =
    Ok (firstn (Nat.min (length indata) frames)
          (map tanh (map (fun x => (x * Main.VOLUME_GAIN g)%R) indata)) ++
        skipn (Nat.min (length indata) frames) (map (fun _ : R => 0%R) outdata),
        (if status then [Main.AudioStatus] else []) ++ [Main.PitchShiftError exc]).
Proof.
  intros Hst Hraise Hroom. unfold Main.audio_callback. rewrite Hst.
  assert (Hnz : py_eq st (PyInt 0) = false).
  { unfold Main.pitch_shift in Hraise.
    destruct (py_eq st (PyInt 0)); [discriminate | reflexivity]. }
  rewrite Hnz, Hraise. cbn [negb]. cbv beta iota zeta. rewrite !length_map.
  replace (Nat.min (length indata) frames <=? length outdata) with true
    by (symmetry; apply Nat.leb_le; lia).
  reflexivity.
Qed.

Lemma callback_survives_backend_error_witness :
  Main.audio_callback (broken_rubberband R) high_globals [1%R; 2%R]
    [9%R; 9%R; 9%R] 3 true =
    Ok (firstn (Nat.min (length [1%R; 2%R]) 3)
          (map tanh
             (map (fun x => (x * Main.VOLUME_GAIN high_globals)%R) [1%R; 2%R])) ++
        skipn (Nat.min (length [1%R; 2%R]) 3)
          (map (fun _ : R => 0%R) [9%R; 9%R; 9%R]),
        [Main.AudioStatus] ++ [Main.PitchShiftError RuntimeError]).
Proof.
  apply (callback_survives_backend_error (broken_rubberband R) high_globals
           [1%R; 2%R] [9%R; 9%R; 9%R] 3 true (PyInt 6) RuntimeError).
  - reflexivity.
  - reflexivity.
  - cbn. lia.
Defined.

(** X23. With libraries that keep their contract and a block as the stream
    delivers it ([frames] rows in and out), the callback fills the whole
    output block: every row is the limited, amplified sample of a processed
    signal that has exactly [frames] samples, and no row is left silent. *)
Theorem callback_fills_the_block (L : Libs R) (g : Main.globals)
  (indata outdata : list R) (status : bool) (st : pynum) :
  library_contract L ->
  Main.SEMITONE_MAP g !! Main.current_mode g = Some st ->
  length outdata = length indata ->
  exists processed printed,
    Main.audio_callback L g indata outdata (length indata) status =
      Ok (map tanh (map (fun x => (x * Main.VOLUME_GAIN g)%R) processed), printed) /\
    length processed = length indata /\
    (processed = indata \/ Main.pitch_shift L indata st = Ok processed).
Proof.
  intros HL Hst Hlen.
  destruct (audio_callback_returns L g indata outdata (length indata) status st
              Hst ltac:(lia)) as (processed & printed & Hsrc & _ & Hcall).
  assert (Hp : length processed = length indata).
  { destruct Hsrc as [-> | Hp]; [reflexivity |].
    exact (main_pitch_shift_length L indata processed st HL Hp). }
  exists processed, printed. split; [| split; [exact Hp | exact Hsrc]].
  rewrite Hcall, Hp, Nat.min_id. f_equal. f_equal.
  rewrite firstn_all2 by (rewrite !length_map; lia).
  rewrite skipn_all2 by (rewrite length_map; lia).
  apply app_nil_r.
Qed.

Lemma callback_fills_the_block_witness :
  exists processed printed,
    Main.audio_callback scipy_halving high_globals [1%R; 2%R; 3%R; 4%R]
      [0%R; 0%R; 0%R; 0%R] (length [1%R; 2%R; 3%R; 4%R]) false =
      Ok (map tanh
            (map (fun x => (x * Main.VOLUME_GAIN high_globals)%R) processed),
          printed) /\
    length processed = length [1%R; 2%R; 3%R; 4%R] /\
    (processed = [1%R; 2%R; 3%R; 4%R] \/
     Main.pitch_shift scipy_halving [1%R; 2%R; 3%R; 4%R] (PyInt 6) = Ok processed).
Proof.
  apply (callback_fills_the_block scipy_halving high_globals [1%R; 2%R; 3%R; 4%R]
           [0%R; 0%R; 0%R; 0%R] false (PyInt 6)).
  - exact scipy_halving_contract.
  - reflexivity.
  - reflexivity.
Defined.

(** ** Device detection *)

Lemma contains_spec (pattern s : string) :
  pattern <> EmptyString ->
  contains pattern s = true <->
  exists k, substring k (String.length pattern) s = pattern.
Proof.
  intros Hne. unfold contains.
  destruct (index 0 pattern s) as [m |] eqn:Hi.
  - split; [intros _ | reflexivity].
    exists m. exact (index_correct1 0 m pattern s Hi).
  - split; [discriminate |]. intros [k Hk]. exfalso.
    exact (index_correct3 0 k pattern s Hi Hne ltac:(lia) Hk).
Qed.

Lemma find_blackhole_from_spec (devices : list device) :
  forall i,
    match find_blackhole_from i devices with
    | Some (j, n) =>
        exists k dev,
          j = i + k /\ nth_error devices k = Some dev /\ n = name dev /\
          contains "BlackHole" (name dev) = true /\
          (0 < max_output_channels dev)%Z /\
          forall k' d,
            k' < k -> nth_error devices k' = Some d ->
            contains "BlackHole" (name d) && (0 <? max_output_channels d)%Z = false
    | None =>
        forall d,
          In d devices ->
          contains "BlackHole" (name d) && (0 <? max_output_channels d)%Z = false
    end.
Proof.
  induction devices as [| dev rest IH]; intros i; cbn [find_blackhole_from].
  - intros d [].
  - destruct (contains "BlackHole" (name dev) && (0 <? max_output_channels dev)%Z)
      eqn:Hq.
    + apply andb_prop in Hq as [Hc Ho]. apply Z.ltb_lt in Ho.
      exists 0, dev. repeat split; try assumption; [lia |].
      intros k' d Hk. lia.
    + specialize (IH (S i)).
      destruct (find_blackhole_from (S i) rest) as [[j n] |].
      * destruct IH as (k & d & -> & Hnth & -> & Hc & Ho & Hbefore).
        exists (S k), d. repeat split; try assumption; [lia |].
        intros [| k'] d' Hk; cbn [nth_error].
        -- now intros [= <-].
        -- apply Hbefore. lia.
      * intros d [<- | Hin]; [exact Hq | apply IH, Hin].
Qed.

(** X24. [find_blackhole] answers with the index and name of the first
    device whose name has "BlackHole" in it and that has an output channel;
    every device before it lacks one of the two; and it answers with nothing
    only when no device has both. *)
Theorem find_blackhole_first_output (devices : list device) :
  match find_blackhole devices with
  | Some (i, n) =>
      exists dev,
        nth_error devices i = Some dev /\ n = name dev /\
        (exists k, substring k 9 (name dev) = "BlackHole") /\
        (0 < max_output_channels dev)%Z /\
        forall j d,
          j < i -> nth_error devices j = Some d ->
          ~ ((exists k, substring k 9 (name d) = "BlackHole") /\
             (0 < max_output_channels d)%Z)
  | None =>
      forall d,
        In d devices ->
        ~ ((exists k, substring k 9 (name d) = "BlackHole") /\
           (0 < max_output_channels d)%Z)
  end.
Proof.
  assert (Hno : forall d,
            contains "BlackHole" (name d) && (0 <? max_output_channels d)%Z = false ->
            ~ ((exists k, substring k 9 (name d) = "BlackHole") /\
               (0 < max_output_channels d)%Z)).
  { intros d Hq [Hs Ho].
    apply (contains_spec "BlackHole" (name d)) in Hs; [| discriminate].
    apply Z.ltb_lt in Ho. rewrite Hs, Ho in Hq. discriminate. }
  unfold find_blackhole.
  pose proof (find_blackhole_from_spec devices 0) as H.
  destruct (find_blackhole_from 0 devices) as [[i n] |].
  - destruct H as (k & dev & -> & Hnth & -> & Hc & Ho & Hbefore).
    exists dev. cbn [Nat.add]. repeat split; try assumption.
    + apply (contains_spec "BlackHole" (name dev)) in Hc; [exact Hc | discriminate].
    + intros j d Hj Hd. apply Hno, (Hbefore j d Hj Hd).
  - intros d Hin. apply Hno, H, Hin.
Qed.

(** The third entry is chosen: the microphone is no BlackHole, the second
    entry has no output channel, and the fourth comes later. *)
Example find_blackhole_mac : find_blackhole mac_devices = Some (2, "BlackHole 2ch").
Proof. reflexivity. Qed.
